(** * Attitude estimation module (flight/Modules/Attitude/revolution/attitude.c)

    A shallow embedding of the attitude estimator of the Revolution targets:
    the gyro bias accumulator, the complementary filter, the INS/GPS
    navigation filter cycle, the LLA to NED conversion, the settings
    callback, and the start of the module and of its task.

    Numbers.  The C code computes on IEEE-754 single precision values.  The
    model keeps the two classes of values the code itself distinguishes,
    not-a-number and numbers, and computes on numbers exactly, over the
    rationals: rounding, overflow and infinities are not represented, and a
    division by zero yields [NaN].  Every comparison with [NaN] is false,
    so the self-comparison [x == x] of the source is the NaN test here too.
    The theorems are stated so as not to depend on the exactness: a computed
    value is given as the expression the code evaluates, operation by
    operation, and of arithmetic the proofs use the order of the numbers,
    0 * t = 0 and s - s = 0, and no identity that rounding would break.

    State.  File-scope variables, function statics, the UAVObject store, the
    sensor queues and the alarm live in one [World]; every function of the
    module is a state transformer on it.  Calls into the INS library, which
    is not part of this module, are recorded in a log and act on the
    library's navigation solution through a parameter.  The rest of the
    system acts on the world between the calls of the module, and the
    settings callback, which runs in another task, also between the phases
    of a cycle. *)

From Stdlib Require Import ZArith QArith Qabs List Bool Lia Lqa.
Import ListNotations.

Set Implicit Arguments.

(* ------------------------------------------------------------------------- *)
(** ** Single precision values *)

Inductive float : Type :=
| NaN
| Fin (q : Q).

Declare Scope float_scope.
Delimit Scope float_scope with F.
Bind Scope float_scope with float.

Definition lift2 (f : Q -> Q -> Q) (a b : float) : float :=
  match a, b with
  | Fin x, Fin y => Fin (f x y)
  | _, _ => NaN
  end.

Definition fadd : float -> float -> float := lift2 Qplus.
Definition fsub : float -> float -> float := lift2 Qminus.
Definition fmul : float -> float -> float := lift2 Qmult.

Definition fdiv (a b : float) : float :=
  match a, b with
  | Fin x, Fin y => if Qeq_bool y 0 then NaN else Fin (x / y)
  | _, _ => NaN
  end.

Definition fneg (a : float) : float :=
  match a with
  | Fin x => Fin (- x)
  | NaN => NaN
  end.

Definition fabs (a : float) : float :=
  match a with
  | Fin x => Fin (Qabs x)
  | NaN => NaN
  end.

(** The comparison operators of C on floats: false as soon as one side is
    not a number, except [!=], which is then true. *)
Definition fcmp (c : Q -> Q -> bool) (a b : float) : bool :=
  match a, b with
  | Fin x, Fin y => c x y
  | _, _ => false
  end.

Definition feq : float -> float -> bool := fcmp Qeq_bool.
Definition fne (a b : float) : bool := negb (feq a b).
Definition fle : float -> float -> bool := fcmp Qle_bool.
Definition flt : float -> float -> bool := fcmp (fun x y => negb (Qle_bool y x)).
Definition fge (a b : float) : bool := fle b a.
Definition fgt (a b : float) : bool := flt b a.

(** Integer and boolean operands converted to float. *)
Definition of_int (z : Z) : float := Fin (inject_Z z).
Definition of_bool (b : bool) : float := if b then Fin 1 else Fin 0.

Infix "+" := fadd : float_scope.
Infix "-" := fsub : float_scope.
Infix "*" := fmul : float_scope.
Infix "/" := fdiv : float_scope.
Notation "- x" := (fneg x) : float_scope.
Infix "==?" := feq (at level 70, no associativity) : float_scope.
Infix "!=?" := fne (at level 70, no associativity) : float_scope.
Infix "<?" := flt : float_scope.
Infix "<=?" := fle : float_scope.
Infix ">?" := fgt : float_scope.
Infix ">=?" := fge : float_scope.

(** Numeric equality of two floats as a proposition: both are numbers and
    the numbers are equal. *)
Definition feqv (a b : float) : Prop :=
  match a, b with
  | Fin x, Fin y => x == y
  | _, _ => False
  end.

Infix "=f=" := feqv (at level 70, no associativity).

Definition is_nan (a : float) : bool :=
  match a with NaN => true | Fin _ => false end.

(** [float x[3]] and [float x[4]]. *)
Record arr3 : Type := A3 { a0 : float; a1 : float; a2 : float }.
Record arr4 : Type := A4 { b0 : float; b1 : float; b2 : float; b3 : float }.

Definition feqv3 (u v : arr3) : Prop :=
  a0 u =f= a0 v /\ a1 u =f= a1 v /\ a2 u =f= a2 v.

Definition zero3 : arr3 := A3 (Fin 0) (Fin 0) (Fin 0).

(** Fixed-width integers: [uint32_t], [uint16_t] and [int32_t] arithmetic
    with the wrap-around of the target written out. *)
Definition wrap_u32 (z : Z) : Z := z mod 2 ^ 32.
Definition wrap_u16 (z : Z) : Z := z mod 2 ^ 16.
Definition wrap_i32 (z : Z) : Z := (z + 2 ^ 31) mod 2 ^ 32 - 2 ^ 31.

(** [#define F_PI 3.14159265358979323846f] and
    [const float DEG2RAD = 3.141592653589793f / 180.0f]. *)
Definition F_PI : float := Fin 3.14159265358979323846.
Definition DEG2RAD : float := (Fin 3.141592653589793 / Fin 180)%F.

(** [#define BARO_OFFSET_LOWPASS_ALPHA 0.9997f] *)
Definition BARO_OFFSET_LOWPASS_ALPHA : float := Fin 0.9997.

(* ------------------------------------------------------------------------- *)
(** ** UAVObject data

    The object definitions are generated headers; the records list the
    fields this module reads or writes.  Latitude and longitude are the
    integer fields of the GPS and home objects, in units of 1e-7 degree (the
    code divides them by [10.0e6f]); enumerated fields compared against a
    single constant ([HOMELOCATION_SET_TRUE], ...) are booleans. *)

Record XYZData : Type := mkXYZ { x : float; y : float; z : float }.
Definition AccelsData := XYZData.
Definition GyrosData := XYZData.
Definition MagnetometerData := XYZData.
Definition GyrosBiasData := XYZData.

Record NEDData : Type := mkNED { North : float; East : float; Down : float }.
Definition NEDPositionData := NEDData.
Definition PositionActualData := NEDData.
Definition VelocityActualData := NEDData.
Definition GPSVelocityData := NEDData.

Record AttitudeActualData : Type := mkAttitudeActual {
  q1 : float; q2 : float; q3 : float; q4 : float;
  Roll : float; Pitch : float; Yaw : float
}.

Module BaroAltitude.
Record Data : Type := mk { Altitude : float }.
End BaroAltitude.

Module GPSPosition.
Record Data : Type := mk {
  Latitude : Z; Longitude : Z; Altitude : float; GeoidSeparation : float;
  Satellites : Z; PDOP : float; Groundspeed : float; Heading : float
}.
End GPSPosition.

Module HomeLocation.
Record Data : Type := mk {
  Latitude : Z; Longitude : Z; Altitude : float; Be : arr3; Set_ : bool
}.
End HomeLocation.

Inductive ArmedOptions : Type :=
| FLIGHTSTATUS_ARMED_DISARMED
| FLIGHTSTATUS_ARMED_ARMING
| FLIGHTSTATUS_ARMED_ARMED.

Record FlightStatusData : Type := mkFlightStatus { Armed : ArmedOptions }.

Record AttitudeSettingsData : Type := mkAttitudeSettings {
  AccelKp : float; AccelKi : float; YawBiasRate : float; MagKp : float;
  AccelTau : float; ZeroDuringArming : bool; BiasCorrectGyro : bool
}.

Record INSSettingsData : Type := mkINSSettings {
  mag_var : arr3; accel_var : arr3; gyro_var : arr3; baro_var : float;
  gps_var_pos : float; gps_var_vel : float
}.

Inductive FusionAlgorithmOptions : Type :=
| REVOSETTINGS_FUSIONALGORITHM_COMPLEMENTARY
| REVOSETTINGS_FUSIONALGORITHM_INSOUTDOOR
| REVOSETTINGS_FUSIONALGORITHM_INSINDOOR
| REVOSETTINGS_FUSIONALGORITHM_other (n : Z).

Record RevoSettingsData : Type := mkRevoSettings {
  FusionAlgorithm : FusionAlgorithmOptions
}.

Record InertialSensorSettingsData : Type := mkInertialSensorSettings {
  InitialGyroBias : arr3
}.

(** Alarm severities, in increasing order. *)
Inductive SystemAlarmsAlarm : Type :=
| SYSTEMALARMS_ALARM_OK
| SYSTEMALARMS_ALARM_WARNING
| SYSTEMALARMS_ALARM_ERROR
| SYSTEMALARMS_ALARM_CRITICAL.

Definition severity (a : SystemAlarmsAlarm) : nat :=
  match a with
  | SYSTEMALARMS_ALARM_OK => 0
  | SYSTEMALARMS_ALARM_WARNING => 1
  | SYSTEMALARMS_ALARM_ERROR => 2
  | SYSTEMALARMS_ALARM_CRITICAL => 3
  end.

(* ------------------------------------------------------------------------- *)
(** ** The INS library interface (insgps.h)

    The navigation solution the library exposes through [INSGPSGetNav], and
    the calls this module makes into it. *)

Record NavStruct : Type := mkNav {
  Pos : arr3; Vel : arr3; q : arr4; gyro_bias : arr3
}.

Inductive InsCall : Type :=
| INSGPSInit
| INSSetMagVar (v : arr3)
| INSSetAccelVar (v : arr3)
| INSSetGyroVar (v : arr3)
| INSSetBaroVar (v : float)
| INSSetGyroBias (b : arr3)
| INSSetMagNorth (b : arr3)
| INSSetPosVelVar (pos vel : float)
| INSSetState (pos vel : arr3) (q : arr4) (gyro_bias accel_bias : arr3)
| INSResetP (Pdiag : list float)
| INSStatePrediction (gyros accels : arr3) (dT : float)
| INSCovariancePrediction (dT : float)
| INSCorrection (mag NED vel : arr3) (baro : float) (sensors : Z).

(** What a cycle does that is visible outside the module: calls into the
    INS library and writes of the published objects. *)
Inductive Event : Type :=
| Lib (c : InsCall)
| AttitudeActualSet_ev (d : AttitudeActualData)
| GyrosBiasSet_ev (d : GyrosBiasData)
| NEDPositionSet_ev (d : NEDPositionData)
| PositionActualSet_ev (d : PositionActualData)
| VelocityActualSet_ev (d : VelocityActualData).

(* ------------------------------------------------------------------------- *)
(** ** Module state *)

(** [struct gyro_bias_estimation] *)
Record gyro_bias_estimation_t : Type := mk_gyro_bias_estimation {
  accumulated_gyro : arr3;
  accumulated_gyro_samples : Z;
  accumulating_gyro : bool
}.

Inductive queue : Type :=
| gyroQueue | accelQueue | magQueue | baroQueue | gpsQueue | gpsVelQueue.

Definition queue_eqb (a b : queue) : bool :=
  match a, b with
  | gyroQueue, gyroQueue | accelQueue, accelQueue | magQueue, magQueue
  | baroQueue, baroQueue | gpsQueue, gpsQueue | gpsVelQueue, gpsVelQueue => true
  | _, _ => false
  end.

(** Objects written by the sensor drivers, the GPS and the ground station;
    this module only reads them. *)
Record Inputs : Type := mkInputs {
  uavo_Accels : AccelsData;
  uavo_Gyros : GyrosData;
  uavo_Magnetometer : MagnetometerData;
  uavo_BaroAltitude : BaroAltitude.Data;
  uavo_GPSPosition : GPSPosition.Data;
  uavo_GPSVelocity : GPSVelocityData;
  uavo_FlightStatus : FlightStatusData;
  uavo_AttitudeSettings : AttitudeSettingsData;
  uavo_HomeLocation : HomeLocation.Data;
  uavo_INSSettings : INSSettingsData;
  uavo_RevoSettings : RevoSettingsData;
  uavo_InertialSensorSettings : InertialSensorSettingsData
}.

(** Objects this module publishes. *)
Record Published : Type := mkPublished {
  uavo_AttitudeActual : AttitudeActualData;
  uavo_GyrosBias : GyrosBiasData;
  uavo_NEDPosition : NEDPositionData;
  uavo_PositionActual : PositionActualData;
  uavo_VelocityActual : VelocityActualData
}.

(** File-scope variables of attitude.c. *)
Record Globals : Type := mkGlobals {
  attitudeSettings : AttitudeSettingsData;
  homeLocation : HomeLocation.Data;
  insSettings : INSSettingsData;
  revoSettings : RevoSettingsData;
  gyroBiasSettingsUpdated : bool;
  accel_filter_enabled : bool;
  accel_alpha : float;
  gyro_bias_estimation : gyro_bias_estimation_t;
  accel_mag : float;
  qmag : float;
  mag_err : arr3;
  magKi : float;
  T : arr3;
  init_stage : Z
}.

Inductive complimentary_filter_status_t : Type :=
| CF_POWERON | CF_INITIALIZING | CF_ARMING | CF_NORMAL.

(** Statics of [updateAttitudeComplementary]. *)
Record CFStatics : Type := mkCFStatics {
  timeval : Z;
  accels_filtered : arr3;
  grot_filtered : arr3;
  arming_count : Z;
  complimentary_filter_status : complimentary_filter_status_t
}.

(** Statics of [updateAttitudeINSGPS]. *)
Record INSStatics : Type := mkINSStatics {
  mag_updated : bool;
  baro_updated : bool;
  gps_updated : bool;
  gps_vel_updated : bool;
  baroOffset : float;
  ins_last_time : Z;
  inited : bool
}.

Record World : Type := mkWorld {
  pending : queue -> nat;        (* events waiting in each sensor queue *)
  inp : Inputs;
  pub : Published;
  glob : Globals;
  cf : CFStatics;
  ins : INSStatics;
  alarm : SystemAlarmsAlarm;     (* SYSTEMALARMS_ALARM_ATTITUDE *)
  readonly : bool;               (* AttitudeActualReadOnly() *)
  mag_registered : bool;         (* PIOS_SENSORS_GetQueue(PIOS_SENSOR_MAG) != NULL *)
  tick : Z;                      (* xTaskGetTickCount() *)
  delay_raw : Z;                 (* PIOS_DELAY_GetRaw() *)
  Nav : option NavStruct;        (* INSGPSGetNav(), None for NULL *)
  log : list Event               (* most recent first *)
}.

(** Field updates. *)
Definition set_uavo_AttitudeActual v (r : Published) : Published :=
  mkPublished v (uavo_GyrosBias r) (uavo_NEDPosition r) (uavo_PositionActual
    r) (uavo_VelocityActual r).
Definition set_uavo_GyrosBias v (r : Published) : Published :=
  mkPublished (uavo_AttitudeActual r) v (uavo_NEDPosition r)
    (uavo_PositionActual r) (uavo_VelocityActual r).
Definition set_uavo_NEDPosition v (r : Published) : Published :=
  mkPublished (uavo_AttitudeActual r) (uavo_GyrosBias r) v
    (uavo_PositionActual r) (uavo_VelocityActual r).
Definition set_uavo_PositionActual v (r : Published) : Published :=
  mkPublished (uavo_AttitudeActual r) (uavo_GyrosBias r) (uavo_NEDPosition
    r) v (uavo_VelocityActual r).
Definition set_uavo_VelocityActual v (r : Published) : Published :=
  mkPublished (uavo_AttitudeActual r) (uavo_GyrosBias r) (uavo_NEDPosition
    r) (uavo_PositionActual r) v.

Definition set_attitudeSettings v (r : Globals) : Globals :=
  mkGlobals v (homeLocation r) (insSettings r) (revoSettings r)
    (gyroBiasSettingsUpdated r) (accel_filter_enabled r) (accel_alpha r)
    (gyro_bias_estimation r) (accel_mag r) (qmag r) (mag_err r) (magKi r) (T
    r) (init_stage r).
Definition set_homeLocation v (r : Globals) : Globals :=
  mkGlobals (attitudeSettings r) v (insSettings r) (revoSettings r)
    (gyroBiasSettingsUpdated r) (accel_filter_enabled r) (accel_alpha r)
    (gyro_bias_estimation r) (accel_mag r) (qmag r) (mag_err r) (magKi r) (T
    r) (init_stage r).
Definition set_insSettings v (r : Globals) : Globals :=
  mkGlobals (attitudeSettings r) (homeLocation r) v (revoSettings r)
    (gyroBiasSettingsUpdated r) (accel_filter_enabled r) (accel_alpha r)
    (gyro_bias_estimation r) (accel_mag r) (qmag r) (mag_err r) (magKi r) (T
    r) (init_stage r).
Definition set_revoSettings v (r : Globals) : Globals :=
  mkGlobals (attitudeSettings r) (homeLocation r) (insSettings r) v
    (gyroBiasSettingsUpdated r) (accel_filter_enabled r) (accel_alpha r)
    (gyro_bias_estimation r) (accel_mag r) (qmag r) (mag_err r) (magKi r) (T
    r) (init_stage r).
Definition set_gyroBiasSettingsUpdated v (r : Globals) : Globals :=
  mkGlobals (attitudeSettings r) (homeLocation r) (insSettings r)
    (revoSettings r) v (accel_filter_enabled r) (accel_alpha r)
    (gyro_bias_estimation r) (accel_mag r) (qmag r) (mag_err r) (magKi r) (T
    r) (init_stage r).
Definition set_accel_filter_enabled v (r : Globals) : Globals :=
  mkGlobals (attitudeSettings r) (homeLocation r) (insSettings r)
    (revoSettings r) (gyroBiasSettingsUpdated r) v (accel_alpha r)
    (gyro_bias_estimation r) (accel_mag r) (qmag r) (mag_err r) (magKi r) (T
    r) (init_stage r).
Definition set_accel_alpha v (r : Globals) : Globals :=
  mkGlobals (attitudeSettings r) (homeLocation r) (insSettings r)
    (revoSettings r) (gyroBiasSettingsUpdated r) (accel_filter_enabled r) v
    (gyro_bias_estimation r) (accel_mag r) (qmag r) (mag_err r) (magKi r) (T
    r) (init_stage r).
Definition set_gyro_bias_estimation v (r : Globals) : Globals :=
  mkGlobals (attitudeSettings r) (homeLocation r) (insSettings r)
    (revoSettings r) (gyroBiasSettingsUpdated r) (accel_filter_enabled r)
    (accel_alpha r) v (accel_mag r) (qmag r) (mag_err r) (magKi r) (T r)
    (init_stage r).
Definition set_accel_mag v (r : Globals) : Globals :=
  mkGlobals (attitudeSettings r) (homeLocation r) (insSettings r)
    (revoSettings r) (gyroBiasSettingsUpdated r) (accel_filter_enabled r)
    (accel_alpha r) (gyro_bias_estimation r) v (qmag r) (mag_err r) (magKi
    r) (T r) (init_stage r).
Definition set_qmag v (r : Globals) : Globals :=
  mkGlobals (attitudeSettings r) (homeLocation r) (insSettings r)
    (revoSettings r) (gyroBiasSettingsUpdated r) (accel_filter_enabled r)
    (accel_alpha r) (gyro_bias_estimation r) (accel_mag r) v (mag_err r)
    (magKi r) (T r) (init_stage r).
Definition set_mag_err v (r : Globals) : Globals :=
  mkGlobals (attitudeSettings r) (homeLocation r) (insSettings r)
    (revoSettings r) (gyroBiasSettingsUpdated r) (accel_filter_enabled r)
    (accel_alpha r) (gyro_bias_estimation r) (accel_mag r) (qmag r) v (magKi
    r) (T r) (init_stage r).
Definition set_T v (r : Globals) : Globals :=
  mkGlobals (attitudeSettings r) (homeLocation r) (insSettings r)
    (revoSettings r) (gyroBiasSettingsUpdated r) (accel_filter_enabled r)
    (accel_alpha r) (gyro_bias_estimation r) (accel_mag r) (qmag r) (mag_err
    r) (magKi r) v (init_stage r).
Definition set_init_stage v (r : Globals) : Globals :=
  mkGlobals (attitudeSettings r) (homeLocation r) (insSettings r)
    (revoSettings r) (gyroBiasSettingsUpdated r) (accel_filter_enabled r)
    (accel_alpha r) (gyro_bias_estimation r) (accel_mag r) (qmag r) (mag_err
    r) (magKi r) (T r) v.

Definition set_timeval v (r : CFStatics) : CFStatics :=
  mkCFStatics v (accels_filtered r) (grot_filtered r) (arming_count r)
    (complimentary_filter_status r).
Definition set_accels_filtered v (r : CFStatics) : CFStatics :=
  mkCFStatics (timeval r) v (grot_filtered r) (arming_count r)
    (complimentary_filter_status r).
Definition set_grot_filtered v (r : CFStatics) : CFStatics :=
  mkCFStatics (timeval r) (accels_filtered r) v (arming_count r)
    (complimentary_filter_status r).
Definition set_arming_count v (r : CFStatics) : CFStatics :=
  mkCFStatics (timeval r) (accels_filtered r) (grot_filtered r) v
    (complimentary_filter_status r).
Definition set_complimentary_filter_status v (r : CFStatics) : CFStatics :=
  mkCFStatics (timeval r) (accels_filtered r) (grot_filtered r)
    (arming_count r) v.

Definition set_mag_updated v (r : INSStatics) : INSStatics :=
  mkINSStatics v (baro_updated r) (gps_updated r) (gps_vel_updated r)
    (baroOffset r) (ins_last_time r) (inited r).
Definition set_baro_updated v (r : INSStatics) : INSStatics :=
  mkINSStatics (mag_updated r) v (gps_updated r) (gps_vel_updated r)
    (baroOffset r) (ins_last_time r) (inited r).
Definition set_gps_updated v (r : INSStatics) : INSStatics :=
  mkINSStatics (mag_updated r) (baro_updated r) v (gps_vel_updated r)
    (baroOffset r) (ins_last_time r) (inited r).
Definition set_gps_vel_updated v (r : INSStatics) : INSStatics :=
  mkINSStatics (mag_updated r) (baro_updated r) (gps_updated r) v
    (baroOffset r) (ins_last_time r) (inited r).
Definition set_baroOffset v (r : INSStatics) : INSStatics :=
  mkINSStatics (mag_updated r) (baro_updated r) (gps_updated r)
    (gps_vel_updated r) v (ins_last_time r) (inited r).
Definition set_ins_last_time v (r : INSStatics) : INSStatics :=
  mkINSStatics (mag_updated r) (baro_updated r) (gps_updated r)
    (gps_vel_updated r) (baroOffset r) v (inited r).
Definition set_inited v (r : INSStatics) : INSStatics :=
  mkINSStatics (mag_updated r) (baro_updated r) (gps_updated r)
    (gps_vel_updated r) (baroOffset r) (ins_last_time r) v.

Definition set_pending v (r : World) : World :=
  mkWorld v (inp r) (pub r) (glob r) (cf r) (ins r) (alarm r) (readonly r)
    (mag_registered r) (tick r) (delay_raw r) (Nav r) (log r).
Definition set_pub v (r : World) : World :=
  mkWorld (pending r) (inp r) v (glob r) (cf r) (ins r) (alarm r) (readonly
    r) (mag_registered r) (tick r) (delay_raw r) (Nav r) (log r).
Definition set_glob v (r : World) : World :=
  mkWorld (pending r) (inp r) (pub r) v (cf r) (ins r) (alarm r) (readonly
    r) (mag_registered r) (tick r) (delay_raw r) (Nav r) (log r).
Definition set_cf v (r : World) : World :=
  mkWorld (pending r) (inp r) (pub r) (glob r) v (ins r) (alarm r) (readonly
    r) (mag_registered r) (tick r) (delay_raw r) (Nav r) (log r).
Definition set_ins v (r : World) : World :=
  mkWorld (pending r) (inp r) (pub r) (glob r) (cf r) v (alarm r) (readonly
    r) (mag_registered r) (tick r) (delay_raw r) (Nav r) (log r).
Definition set_alarm v (r : World) : World :=
  mkWorld (pending r) (inp r) (pub r) (glob r) (cf r) (ins r) v (readonly r)
    (mag_registered r) (tick r) (delay_raw r) (Nav r) (log r).
Definition set_Nav v (r : World) : World :=
  mkWorld (pending r) (inp r) (pub r) (glob r) (cf r) (ins r) (alarm r)
    (readonly r) (mag_registered r) (tick r) (delay_raw r) v (log r).
Definition set_log v (r : World) : World :=
  mkWorld (pending r) (inp r) (pub r) (glob r) (cf r) (ins r) (alarm r)
    (readonly r) (mag_registered r) (tick r) (delay_raw r) (Nav r) v.

Definition set_AccelKp v (r : AttitudeSettingsData) : AttitudeSettingsData :=
  mkAttitudeSettings v (AccelKi r) (YawBiasRate r) (MagKp r) (AccelTau r)
    (ZeroDuringArming r) (BiasCorrectGyro r).
Definition set_AccelKi v (r : AttitudeSettingsData) : AttitudeSettingsData :=
  mkAttitudeSettings (AccelKp r) v (YawBiasRate r) (MagKp r) (AccelTau r)
    (ZeroDuringArming r) (BiasCorrectGyro r).
Definition set_YawBiasRate v (r : AttitudeSettingsData) : AttitudeSettingsData :=
  mkAttitudeSettings (AccelKp r) (AccelKi r) v (MagKp r) (AccelTau r)
    (ZeroDuringArming r) (BiasCorrectGyro r).
Definition set_MagKp v (r : AttitudeSettingsData) : AttitudeSettingsData :=
  mkAttitudeSettings (AccelKp r) (AccelKi r) (YawBiasRate r) v (AccelTau r)
    (ZeroDuringArming r) (BiasCorrectGyro r).

Definition set_accumulated_gyro v (r : gyro_bias_estimation_t) : gyro_bias_estimation_t :=
  mk_gyro_bias_estimation v (accumulated_gyro_samples r) (accumulating_gyro
    r).
Definition set_accumulated_gyro_samples v (r : gyro_bias_estimation_t) : gyro_bias_estimation_t :=
  mk_gyro_bias_estimation (accumulated_gyro r) v (accumulating_gyro r).
Definition set_accumulating_gyro v (r : gyro_bias_estimation_t) : gyro_bias_estimation_t :=
  mk_gyro_bias_estimation (accumulated_gyro r) (accumulated_gyro_samples r)
    v.

(* ------------------------------------------------------------------------- *)
(** ** State transformers *)

Definition M (A : Type) : Type := World -> A * World.

Definition ret {A : Type} (a : A) : M A := fun w => (a, w).

Definition bind {A B : Type} (m : M A) (k : A -> M B) : M B :=
  fun w => let (a, w') := m w in k a w'.

Notation "x <- m ;; k" := (bind m (fun x => k))
  (at level 61, m at next level, right associativity).
Notation "m ;;; k" := (bind m (fun _ => k))
  (at level 61, right associativity).

Definition gets {A : Type} (f : World -> A) : M A := fun w => (f w, w).
Definition modify (f : World -> World) : M unit := fun w => (tt, f w).

(** Access to the file-scope variables and to the statics. *)
Definition getG {A : Type} (f : Globals -> A) : M A := gets (fun w => f (glob w)).
Definition setG {A : Type} (s : A -> Globals -> Globals) (v : A) : M unit :=
  modify (fun w => set_glob (s v (glob w)) w).
Definition getC {A : Type} (f : CFStatics -> A) : M A := gets (fun w => f (cf w)).
Definition setC {A : Type} (s : A -> CFStatics -> CFStatics) (v : A) : M unit :=
  modify (fun w => set_cf (s v (cf w)) w).
Definition getI {A : Type} (f : INSStatics -> A) : M A := gets (fun w => f (ins w)).
Definition setI {A : Type} (s : A -> INSStatics -> INSStatics) (v : A) : M unit :=
  modify (fun w => set_ins (s v (ins w)) w).

Definition emit (e : Event) : M unit :=
  modify (fun w => set_log (e :: log w) w).

(** [xQueueReceive(queue, &ev, timeout) == pdTRUE]: an event is taken from
    the queue when one is there by the end of the timeout; the event itself
    is never looked at. *)
Definition xQueueReceive (qu : queue) : M bool :=
  fun w =>
    (negb (Nat.eqb (pending w qu) 0),
     set_pending
       (fun k => if queue_eqb qu k then Nat.pred (pending w k) else pending w k)
       w).

(** UAVObject accessors. *)
Definition AccelsGet : M AccelsData := gets (fun w => uavo_Accels (inp w)).
Definition GyrosGet : M GyrosData := gets (fun w => uavo_Gyros (inp w)).
Definition MagnetometerGet : M MagnetometerData :=
  gets (fun w => uavo_Magnetometer (inp w)).
Definition BaroAltitudeGet : M BaroAltitude.Data :=
  gets (fun w => uavo_BaroAltitude (inp w)).
Definition GPSPositionGet : M GPSPosition.Data :=
  gets (fun w => uavo_GPSPosition (inp w)).
Definition GPSVelocityGet : M GPSVelocityData :=
  gets (fun w => uavo_GPSVelocity (inp w)).
Definition FlightStatusGet : M FlightStatusData :=
  gets (fun w => uavo_FlightStatus (inp w)).
Definition AttitudeSettingsGet : M AttitudeSettingsData :=
  gets (fun w => uavo_AttitudeSettings (inp w)).
Definition HomeLocationGet : M HomeLocation.Data :=
  gets (fun w => uavo_HomeLocation (inp w)).
Definition INSSettingsGet : M INSSettingsData :=
  gets (fun w => uavo_INSSettings (inp w)).
Definition RevoSettingsGet : M RevoSettingsData :=
  gets (fun w => uavo_RevoSettings (inp w)).
Definition InertialSensorSettingsGet : M InertialSensorSettingsData :=
  gets (fun w => uavo_InertialSensorSettings (inp w)).

Definition AttitudeActualGet : M AttitudeActualData :=
  gets (fun w => uavo_AttitudeActual (pub w)).
Definition GyrosBiasGet : M GyrosBiasData :=
  gets (fun w => uavo_GyrosBias (pub w)).
Definition NEDPositionGet : M NEDPositionData :=
  gets (fun w => uavo_NEDPosition (pub w)).
Definition PositionActualGet : M PositionActualData :=
  gets (fun w => uavo_PositionActual (pub w)).
Definition VelocityActualGet : M VelocityActualData :=
  gets (fun w => uavo_VelocityActual (pub w)).

Definition AttitudeActualSet (d : AttitudeActualData) : M unit :=
  modify (fun w => set_pub (set_uavo_AttitudeActual d (pub w)) w) ;;;
  emit (AttitudeActualSet_ev d).
Definition GyrosBiasSet (d : GyrosBiasData) : M unit :=
  modify (fun w => set_pub (set_uavo_GyrosBias d (pub w)) w) ;;;
  emit (GyrosBiasSet_ev d).
Definition NEDPositionSet (d : NEDPositionData) : M unit :=
  modify (fun w => set_pub (set_uavo_NEDPosition d (pub w)) w) ;;;
  emit (NEDPositionSet_ev d).
Definition PositionActualSet (d : PositionActualData) : M unit :=
  modify (fun w => set_pub (set_uavo_PositionActual d (pub w)) w) ;;;
  emit (PositionActualSet_ev d).
Definition VelocityActualSet (d : VelocityActualData) : M unit :=
  modify (fun w => set_pub (set_uavo_VelocityActual d (pub w)) w) ;;;
  emit (VelocityActualSet_ev d).

Definition AttitudeActualReadOnly : M bool := gets readonly.

(** [AlarmsSet(SYSTEMALARMS_ALARM_ATTITUDE, severity)] and
    [AlarmsClear(SYSTEMALARMS_ALARM_ATTITUDE)]. *)
Definition AlarmsSet (s : SystemAlarmsAlarm) : M unit := modify (set_alarm s).
Definition AlarmsClear : M unit := AlarmsSet SYSTEMALARMS_ALARM_OK.

Definition xTaskGetTickCount : M Z := gets tick.
Definition PIOS_DELAY_GetRaw : M Z := gets delay_raw.

(** [float Rbe[3][3]] *)
Record mat3 : Type := M3 { r0 : arr3; r1 : arr3; r2 : arr3 }.

(** Modelled from the spec: [CrossProduct] of CoordinateConversions, which
    the correction math of both error terms names as the cross product of
    its two arguments. *)
Definition CrossProduct (v1 v2 : arr3) : arr3 :=
  A3 (a1 v1 * a2 v2 - a1 v2 * a2 v1)%F
     (a0 v2 * a2 v1 - a0 v1 * a2 v2)%F
     (a0 v1 * a1 v2 - a1 v1 * a0 v2)%F.

(** Code this module calls and does not contain: the C library, the
    coordinate conversions, the delay counter, the INS library and the
    sensor masks of insgps.h. *)
Class Externals : Type := {
  sqrtf : float -> float;
  cosf : float -> float;
  expf : float -> float;
  atan2f : float -> float -> float;
  RPY2Quaternion : arr3 -> arr4;
  Quaternion2RPY : arr4 -> arr3;
  Quaternion2R : arr4 -> mat3;
  rot_mult : mat3 -> arr3 -> bool -> arr3;
  (** microseconds elapsed at counter value [now] since the counter value
      [raw] was read *)
  PIOS_DELAY_DiffuS : Z -> Z -> Z;
  (** effect of a library call on the navigation solution *)
  INS : InsCall -> NavStruct -> NavStruct;
  MAG_SENSORS : Z;
  BARO_SENSOR : Z;
  POS_SENSORS : Z;
  HORIZ_SENSORS : Z;
  VERT_SENSORS : Z;
  HORIZ_POS_SENSORS : Z
}.

(* ------------------------------------------------------------------------- *)
(** ** The module's functions *)

Section Estimator.

Context {ext : Externals}.

Local Open Scope float_scope.

(** A call into the INS library: logged, and applied to the navigation
    solution. *)
Definition ins_call (c : InsCall) : M unit :=
  modify (fun w => set_Nav (option_map (INS c) (Nav w)) w) ;;;
  emit (Lib c).

(** *** Gyro bias accumulator *)

(** [accumulate_gyro_zero] *)
Definition accumulate_gyro_zero : M unit :=
  e <- getG gyro_bias_estimation ;;
  setG set_gyro_bias_estimation (set_accumulated_gyro_samples 0%Z e) ;;;
  e <- getG gyro_bias_estimation ;;
  setG set_gyro_bias_estimation
    (set_accumulated_gyro
       (A3 (Fin 0) (a1 (accumulated_gyro e)) (a2 (accumulated_gyro e))) e) ;;;
  e <- getG gyro_bias_estimation ;;
  setG set_gyro_bias_estimation
    (set_accumulated_gyro
       (A3 (a0 (accumulated_gyro e)) (Fin 0) (a2 (accumulated_gyro e))) e) ;;;
  e <- getG gyro_bias_estimation ;;
  setG set_gyro_bias_estimation
    (set_accumulated_gyro
       (A3 (a0 (accumulated_gyro e)) (a1 (accumulated_gyro e)) (Fin 0)) e).

(** [accumulate_gyro_compute] *)
Definition accumulate_gyro_compute : M unit :=
  e <- getG gyro_bias_estimation ;;
  if accumulating_gyro e && (accumulated_gyro_samples e >? 100)%Z then
    gyrosBias <- GyrosBiasGet ;;
    let n := of_int (accumulated_gyro_samples e) in
    let gyrosBias :=
      mkXYZ (a0 (accumulated_gyro e) / n)
            (a1 (accumulated_gyro e) / n)
            (a2 (accumulated_gyro e) / n) in
    GyrosBiasSet gyrosBias ;;;
    accumulate_gyro_zero ;;;
    e <- getG gyro_bias_estimation ;;
    setG set_gyro_bias_estimation (set_accumulating_gyro false e)
  else ret tt.

(** [accumulate_gyro] *)
Definition accumulate_gyro (gyrosData : GyrosData) : M unit :=
  e <- getG gyro_bias_estimation ;;
  if negb (accumulating_gyro e) then ret tt
  else
    setG set_gyro_bias_estimation
      (set_accumulated_gyro_samples
         (wrap_u32 (accumulated_gyro_samples e + 1)) e) ;;;
    (* bias_correct_gyro *)
    if true then
      gyrosBias <- GyrosBiasGet ;;
      e <- getG gyro_bias_estimation ;;
      setG set_gyro_bias_estimation
        (set_accumulated_gyro
           (A3 (a0 (accumulated_gyro e) + (x gyrosData + x gyrosBias))
               (a1 (accumulated_gyro e) + (y gyrosData + y gyrosBias))
               (a2 (accumulated_gyro e) + (z gyrosData + z gyrosBias))) e)
    else
      e <- getG gyro_bias_estimation ;;
      setG set_gyro_bias_estimation
        (set_accumulated_gyro
           (A3 (a0 (accumulated_gyro e) + x gyrosData)
               (a1 (accumulated_gyro e) + y gyrosData)
               (a2 (accumulated_gyro e) + z gyrosData)) e).

(** *** Accelerometer low pass filter *)

(** [apply_accel_filter(raw, filtered)]: the new contents of [filtered]. *)
Definition apply_accel_filter (raw filtered : arr3) : M arr3 :=
  enabled <- getG accel_filter_enabled ;;
  accel_alpha <- getG accel_alpha ;;
  if enabled then
    ret (A3 (a0 filtered * accel_alpha + a0 raw * (Fin 1 - accel_alpha))
            (a1 filtered * accel_alpha + a1 raw * (Fin 1 - accel_alpha))
            (a2 filtered * accel_alpha + a2 raw * (Fin 1 - accel_alpha)))
  else
    ret (A3 (a0 raw) (a1 raw) (a2 raw)).

(** *** Local tangent plane *)

(** [getNED(gpsPosition, NED)]: the contents of [NED]; it always returns 0. *)
Definition getNED (gpsPosition : GPSPosition.Data) : M arr3 :=
  homeLocation <- getG homeLocation ;;
  T <- getG T ;;
  let dL :=
    A3 (of_int (wrap_i32 (GPSPosition.Latitude gpsPosition
                          - HomeLocation.Latitude homeLocation))
          / Fin 10.0e6 * DEG2RAD)
       (of_int (wrap_i32 (GPSPosition.Longitude gpsPosition
                          - HomeLocation.Longitude homeLocation))
          / Fin 10.0e6 * DEG2RAD)
       (GPSPosition.Altitude gpsPosition
          + GPSPosition.GeoidSeparation gpsPosition
          - HomeLocation.Altitude homeLocation) in
  ret (A3 (a0 T * a0 dL) (a1 T * a1 dL) (a2 T * a2 dL)).

(** *** Settings callback *)

(** The object an update event names; [None] is the [NULL] event of the
    forced update at task start. *)
Inductive UAVObjHandle : Type :=
| InertialSensorSettingsHandle
| INSSettingsHandle
| HomeLocationHandle
| AttitudeSettingsHandle
| RevoSettingsHandle.

Definition handle_eqb (a b : UAVObjHandle) : bool :=
  match a, b with
  | InertialSensorSettingsHandle, InertialSensorSettingsHandle
  | INSSettingsHandle, INSSettingsHandle
  | HomeLocationHandle, HomeLocationHandle
  | AttitudeSettingsHandle, AttitudeSettingsHandle
  | RevoSettingsHandle, RevoSettingsHandle => true
  | _, _ => false
  end.

(** [ev == NULL || ev->obj == h] *)
Definition concerns (ev : option UAVObjHandle) (h : UAVObjHandle) : bool :=
  match ev with
  | None => true
  | Some o => handle_eqb o h
  end.

Definition when (b : bool) (m : M unit) : M unit := if b then m else ret tt.

(** [settingsUpdatedCb] *)
Definition settingsUpdatedCb (ev : option UAVObjHandle) : M unit :=
  when (concerns ev InertialSensorSettingsHandle)
    (inertialSensorSettings <- InertialSensorSettingsGet ;;
     gyrosBias <- GyrosBiasGet ;;
     GyrosBiasSet
       (mkXYZ (a0 (InitialGyroBias inertialSensorSettings))
              (a1 (InitialGyroBias inertialSensorSettings))
              (a2 (InitialGyroBias inertialSensorSettings))) ;;;
     setG set_gyroBiasSettingsUpdated true) ;;;
  when (concerns ev INSSettingsHandle)
    (s <- INSSettingsGet ;;
     setG set_insSettings s ;;;
     ins_call (INSSetMagVar (mag_var s)) ;;;
     ins_call (INSSetAccelVar (accel_var s)) ;;;
     ins_call (INSSetGyroVar (gyro_var s)) ;;;
     ins_call (INSSetBaroVar (baro_var s))) ;;;
  when (concerns ev HomeLocationHandle)
    (h <- HomeLocationGet ;;
     setG set_homeLocation h ;;;
     let lat := of_int (HomeLocation.Latitude h) / Fin 10.0e6 * DEG2RAD in
     let alt := HomeLocation.Altitude h in
     t <- getG T ;;
     setG set_T (A3 (alt + Fin 6.378137E6) (a1 t) (a2 t)) ;;;
     t <- getG T ;;
     setG set_T (A3 (a0 t) (cosf lat * (alt + Fin 6.378137E6)) (a2 t)) ;;;
     t <- getG T ;;
     setG set_T (A3 (a0 t) (a1 t) (- Fin 1.0))) ;;;
  when (concerns ev AttitudeSettingsHandle)
    (s <- AttitudeSettingsGet ;;
     setG set_attitudeSettings s ;;;
     let fakeDt := Fin 0.0025 in
     if AccelTau s <? Fin 0.0001 then
       setG set_accel_alpha (Fin 0) ;;;
       setG set_accel_filter_enabled false
     else
       setG set_accel_alpha (expf (- fakeDt / AccelTau s)) ;;;
       setG set_accel_filter_enabled true) ;;;
  when (concerns ev RevoSettingsHandle)
    (s <- RevoSettingsGet ;; setG set_revoSettings s).

(** *** Shared pieces of the two filters *)

(** Lines 306-315 and 706-714: wait for the gyro and then the accel event;
    [true] when the cycle is given up with the warning alarm. *)
Definition wait_gyro_accel : M bool :=
  g <- xQueueReceive gyroQueue ;;
  timeout <-
    (if negb g then ret true
     else a <- xQueueReceive accelQueue ;; ret (negb a)) ;;
  if timeout then
    ro <- AttitudeActualReadOnly ;;
    if negb ro then
      AlarmsSet SYSTEMALARMS_ALARM_WARNING ;;; ret true
    else ret false
  else ret false.

(** The initial attitude picked from accel and mag data (lines 337-340,
    794-797, 838-841). *)
Definition initial_attitude (accelsData : AccelsData)
    (magData : MagnetometerData) : AttitudeActualData :=
  let Roll := atan2f (- y accelsData) (- z accelsData) * Fin 180.0 / F_PI in
  let Pitch := atan2f (x accelsData) (- z accelsData) * Fin 180.0 / F_PI in
  let Yaw := atan2f (- y magData) (x magData) * Fin 180.0 / F_PI in
  let q := RPY2Quaternion (A3 Roll Pitch Yaw) in
  mkAttitudeActual (b0 q) (b1 q) (b2 q) (b3 q) Roll Pitch Yaw.

(** [Quaternion2RPY(&attitude.q1, &attitude.Roll)] after the quaternion has
    been stored in [attitude]; the two calls fill every field of the
    object. *)
Definition with_quaternion (q : arr4) : AttitudeActualData :=
  let rpy := Quaternion2RPY q in
  mkAttitudeActual (b0 q) (b1 q) (b2 q) (b3 q) (a0 rpy) (a1 rpy) (a2 rpy).

(** *** Complementary filter *)

(** Lines 320-349: the first run forces the filter to a known condition. *)
Definition cf_first_run (accelsData : AccelsData) : M Z :=
  let seed (magData : MagnetometerData) : M Z :=
    attitudeActual <- AttitudeActualGet ;;
    AttitudeActualSet (initial_attitude accelsData magData) ;;;
    setC set_complimentary_filter_status CF_POWERON ;;;
    raw <- PIOS_DELAY_GetRaw ;;
    setC set_timeval raw ;;;
    setC set_arming_count 0%Z ;;;
    ret 0%Z in
  registered <- gets mag_registered ;;
  if registered then
    r <- xQueueReceive magQueue ;;
    if negb r then ret (-1)%Z
    else magData <- MagnetometerGet ;; seed magData
  else seed (mkXYZ (Fin 100) (Fin 0) (Fin 0)).

Definition status_eqb (a b : complimentary_filter_status_t) : bool :=
  match a, b with
  | CF_POWERON, CF_POWERON | CF_INITIALIZING, CF_INITIALIZING
  | CF_ARMING, CF_ARMING | CF_NORMAL, CF_NORMAL => true
  | _, _ => false
  end.

Definition is_arming (f : FlightStatusData) : bool :=
  match Armed f with FLIGHTSTATUS_ARMED_ARMING => true | _ => false end.

Definition setS {A : Type}
    (s : A -> AttitudeSettingsData -> AttitudeSettingsData) (v : A) : M unit :=
  a <- getG attitudeSettings ;; setG set_attitudeSettings (s v a).

(** Lines 351-410: the initialization state of the filter. *)
Definition cf_status_update : M unit :=
  flightStatus <- FlightStatusGet ;;
  status <- getC complimentary_filter_status ;;
  now <- xTaskGetTickCount ;;
  a <- getG attitudeSettings ;;
  if status_eqb status CF_POWERON then
    setC set_complimentary_filter_status
      (if (now >? 1000)%Z then CF_INITIALIZING else CF_POWERON)
  else if status_eqb status CF_INITIALIZING
          && (now <? 7000)%Z && (now >? 1000)%Z then
    setS set_AccelKp (Fin 0.1 + Fin 0.1 * of_bool (now <? 4000)%Z) ;;;
    setS set_AccelKi (Fin 0.1) ;;;
    setS set_YawBiasRate (Fin 0.1) ;;;
    setS set_MagKp (Fin 0.1)
  else if ZeroDuringArming a && is_arming flightStatus then
    arming_count <- getC arming_count ;;
    (if (arming_count <? 20)%Z then setS set_AccelKp (Fin 1.0)
     else if AccelKp a >? Fin 0.1 then
       setS set_AccelKp (AccelKp a - Fin 0.01)
     else ret tt) ;;;
    setC set_arming_count (wrap_u32 (arming_count + 1)) ;;;
    setS set_AccelKi (Fin 0.1) ;;;
    setS set_YawBiasRate (Fin 0.1) ;;;
    setS set_MagKp (Fin 0.1) ;;;
    setG set_accel_filter_enabled false ;;;
    if negb (status_eqb status CF_ARMING) then
      accumulate_gyro_zero ;;;
      setC set_complimentary_filter_status CF_ARMING ;;;
      e <- getG gyro_bias_estimation ;;
      setG set_gyro_bias_estimation (set_accumulating_gyro true e)
    else ret tt
  else if status_eqb status CF_ARMING || status_eqb status CF_INITIALIZING then
    s <- AttitudeSettingsGet ;;
    setG set_attitudeSettings s ;;;
    accel_alpha <- getG accel_alpha ;;
    when (accel_alpha >? Fin 0.0) (setG set_accel_filter_enabled true) ;;;
    when (status_eqb status CF_ARMING)
      (accumulate_gyro_compute ;;;
       e <- getG gyro_bias_estimation ;;
       setG set_gyro_bias_estimation (set_accumulating_gyro false e) ;;;
       setC set_arming_count 0%Z) ;;;
    setC set_complimentary_filter_status CF_NORMAL
  else ret tt.

Definition sum_sq3 (v : arr3) : float :=
  a0 v * a0 v + a1 v * a1 v + a2 v * a2 v.

Definition div3 (v : arr3) (d : float) : arr3 :=
  A3 (a0 v / d) (a1 v / d) (a2 v / d).

(** Lines 430-462: the error between the predicted direction of gravity and
    the smoothed acceleration. *)
Definition cf_accel_err (accelsData : AccelsData) (q : arr4) : M arr3 :=
  let accels := A3 (x accelsData) (y accelsData) (z accelsData) in
  old <- getC accels_filtered ;;
  accels_filtered <- apply_accel_filter accels old ;;
  setC set_accels_filtered accels_filtered ;;;
  let grot :=
    A3 (- (Fin 2 * (b1 q * b3 q - b0 q * b2 q)))
       (- (Fin 2 * (b2 q * b3 q + b0 q * b1 q)))
       (- (b0 q * b0 q - b1 q * b1 q - b2 q * b2 q + b3 q * b3 q)) in
  let accel_err := CrossProduct accels grot in
  old <- getC grot_filtered ;;
  grot_filtered <- apply_accel_filter grot old ;;
  setC set_grot_filtered grot_filtered ;;;
  let accel_err := CrossProduct accels_filtered grot_filtered in
  enabled <- getG accel_filter_enabled ;;
  let grot_mag := if enabled then sqrtf (sum_sq3 grot_filtered) else Fin 1.0 in
  setG set_accel_mag (sum_sq3 accels_filtered) ;;;
  m <- getG accel_mag ;;
  setG set_accel_mag (sqrtf m) ;;;
  accel_mag <- getG accel_mag ;;
  if (grot_mag >? Fin 1.0e-3) && (accel_mag >? Fin 1.0e-3) then
    ret (div3 accel_err (accel_mag * grot_mag))
  else
    ret (A3 (Fin 0) (Fin 0) (Fin 0)).

(** Lines 464-497: the magnetometer error, left in the file-scope
    [mag_err]. *)
Definition cf_mag_err (q : arr4) : M unit :=
  r <- xQueueReceive magQueue ;;
  if negb r then
    let Rbe := Quaternion2R q in
    mag <- MagnetometerGet ;;
    homeLocation <- getG homeLocation ;;
    if (x mag ==? x mag) && (y mag ==? y mag) && (z mag ==? z mag)
       && HomeLocation.Set_ homeLocation then
      let brot := rot_mult Rbe (HomeLocation.Be homeLocation) false in
      let mag_len := sqrtf (x mag * x mag + y mag * y mag + z mag * z mag) in
      let mag := A3 (x mag / mag_len) (y mag / mag_len) (z mag / mag_len) in
      let bmag := sqrtf (sum_sq3 brot) in
      let brot := div3 brot bmag in
      if (bmag <? Fin 1) || (mag_len <? Fin 1) then
        setG set_mag_err (A3 (Fin 0) (Fin 0) (Fin 0))
      else
        setG set_mag_err (CrossProduct mag brot)
    else ret tt
  else
    setG set_mag_err (A3 (Fin 0) (Fin 0) (Fin 0)).

(** Lines 526-547: sign, norm and the guard against a collapsed
    quaternion. *)
Definition cf_renormalize (q : arr4) : M arr4 :=
  let q :=
    if b0 q <? Fin 0 then A4 (- b0 q) (- b1 q) (- b2 q) (- b3 q) else q in
  setG set_qmag
    (sqrtf (b0 q * b0 q + b1 q * b1 q + b2 q * b2 q + b3 q * b3 q)) ;;;
  qmag <- getG qmag ;;
  let q := A4 (b0 q / qmag) (b1 q / qmag) (b2 q / qmag) (b3 q / qmag) in
  if (fabs qmag <? Fin 1.0e-3) || (qmag !=? qmag) then
    ret (A4 (Fin 1) (Fin 0) (Fin 0) (Fin 0))
  else ret q.

(** Lines 499-554: gyro bias integral, rate correction, one step of the
    quaternion derivative, and the new attitude. *)
Definition cf_integrate (gyrosData : GyrosData) (accel_err : arr3)
    (q : arr4) (dT : float) : M unit :=
  a <- getG attitudeSettings ;;
  mag_err <- getG mag_err ;;
  magKi <- getG magKi ;;
  gyrosBias <- GyrosBiasGet ;;
  GyrosBiasSet
    (mkXYZ (x gyrosBias - a0 accel_err * AccelKi a)
           (y gyrosBias - a1 accel_err * AccelKi a)
           (z gyrosBias - a2 mag_err * magKi)) ;;;
  let gx := x gyrosData + a0 accel_err * AccelKp a / dT in
  let gy := y gyrosData + a1 accel_err * AccelKp a / dT in
  let gz := z gyrosData
            + (a2 accel_err * AccelKp a / dT + a2 mag_err * MagKp a / dT) in
  let qdot :=
    A4 ((- b1 q * gx - b2 q * gy - b3 q * gz) * dT * F_PI / Fin 180 / Fin 2)
       ((b0 q * gx - b3 q * gy + b2 q * gz) * dT * F_PI / Fin 180 / Fin 2)
       ((b3 q * gx + b0 q * gy - b1 q * gz) * dT * F_PI / Fin 180 / Fin 2)
       ((- b2 q * gx + b1 q * gy + b0 q * gz) * dT * F_PI / Fin 180 / Fin 2) in
  let q :=
    A4 (b0 q + b0 qdot) (b1 q + b1 qdot) (b2 q + b2 qdot) (b3 q + b3 qdot) in
  q <- cf_renormalize q ;;
  AttitudeActualSet (with_quaternion q).

Definition NED_of (v : arr3) : NEDData := mkNED (a0 v) (a1 v) (a2 v).

(** Lines 556-591: the other queues are flushed, GPS data is passed on. *)
Definition cf_passthrough : M unit :=
  _ <- xQueueReceive baroQueue ;;
  r <- xQueueReceive gpsQueue ;;
  homeLocation <- getG homeLocation ;;
  when (r && HomeLocation.Set_ homeLocation)
    (gpsPosition <- GPSPositionGet ;;
     NED <- getNED gpsPosition ;;
     nedPosition <- NEDPositionGet ;;
     NEDPositionSet (NED_of NED) ;;;
     positionActual <- PositionActualGet ;;
     PositionActualSet (NED_of NED)) ;;;
  r <- xQueueReceive gpsVelQueue ;;
  when r
    (gpsVelocity <- GPSVelocityGet ;;
     velocityActual <- VelocityActualGet ;;
     VelocityActualSet
       (mkNED (North gpsVelocity) (East gpsVelocity) (Down gpsVelocity))).

(** [updateAttitudeComplementary] *)
Definition updateAttitudeComplementary (first_run : bool) : M Z :=
  abandoned <- wait_gyro_accel ;;
  if abandoned then ret (-1)%Z
  else
    accelsData <- AccelsGet ;;
    if first_run then cf_first_run accelsData
    else
      cf_status_update ;;;
      gyrosData <- GyrosGet ;;
      accumulate_gyro gyrosData ;;;
      timeval <- getC timeval ;;
      raw <- PIOS_DELAY_GetRaw ;;
      let dT := of_int (PIOS_DELAY_DiffuS timeval raw) / Fin 1000000.0 in
      setC set_timeval raw ;;;
      attitudeActual <- AttitudeActualGet ;;
      let q :=
        A4 (q1 attitudeActual) (q2 attitudeActual)
           (q3 attitudeActual) (q4 attitudeActual) in
      accel_err <- cf_accel_err accelsData q ;;
      cf_mag_err q ;;;
      cf_integrate gyrosData accel_err q dT ;;;
      cf_passthrough ;;;
      AlarmsClear ;;;
      ret 0%Z.

(** *** INS/GPS navigation filter *)

Definition deg2rad3 (b : GyrosBiasData) : arr3 :=
  A3 (x b * F_PI / Fin 180.0) (y b * F_PI / Fin 180.0) (z b * F_PI / Fin 180.0).

Definition Pdiag : list float :=
  [Fin 25.0; Fin 25.0; Fin 25.0; Fin 5.0; Fin 5.0; Fin 5.0;
   Fin 1e-5; Fin 1e-5; Fin 1e-5; Fin 1e-5; Fin 1e-5; Fin 1e-5; Fin 1e-5;
   Fin 1e-4; Fin 1e-4; Fin 1e-4].

Definition zeros : arr3 := A3 (Fin 0.0) (Fin 0.0) (Fin 0.0).

Definition clear_updated : M unit :=
  setI set_mag_updated false ;;;
  setI set_baro_updated false ;;;
  setI set_gps_updated false ;;;
  setI set_gps_vel_updated false.

(** The navigation solution behind the pointer [INSGPSGetNav] returned. *)
Definition NavGet : M NavStruct :=
  gets (fun w =>
          match Nav w with
          | Some n => n
          | None => mkNav zeros zeros (A4 (Fin 0) (Fin 0) (Fin 0) (Fin 0)) zeros
          end).

(** Lines 778-787 and 811-822: reset of the library and of its variances. *)
Definition ins_reset (outdoor_mode : bool) (gyrosBias : GyrosBiasData)
    : M unit :=
  s <- getG insSettings ;;
  ins_call INSGPSInit ;;;
  ins_call (INSSetMagVar (mag_var s)) ;;;
  ins_call (INSSetAccelVar (accel_var s)) ;;;
  ins_call (INSSetGyroVar (gyro_var s)) ;;;
  ins_call (INSSetBaroVar (baro_var s)) ;;;
  (if outdoor_mode then
     h <- getG homeLocation ;; ins_call (INSSetMagNorth (HomeLocation.Be h))
   else ret tt) ;;;
  ins_call (INSSetGyroBias (deg2rad3 gyrosBias)).

(** Lines 789-805 and 833-850: initial attitude and state. *)
Definition ins_seed (accelsData : AccelsData) (pos : arr3) : M unit :=
  _ <- xQueueReceive magQueue ;;
  magData <- MagnetometerGet ;;
  let attitudeActual := initial_attitude accelsData magData in
  AttitudeActualSet attitudeActual ;;;
  let q :=
    A4 (q1 attitudeActual) (q2 attitudeActual)
       (q3 attitudeActual) (q4 attitudeActual) in
  ins_call (INSSetState pos zeros q zeros zeros) ;;;
  ins_call (INSResetP Pdiag).

(** Lines 769-805: stage 0, indoor. *)
Definition ins_stage0_indoor (accelsData : AccelsData)
    (baroData : BaroAltitude.Data) (gyrosBias : GyrosBiasData) : M unit :=
  setI set_baroOffset (- BaroAltitude.Altitude baroData) ;;;
  baroOffset <- getI baroOffset ;;
  let pos :=
    A3 (Fin 0.0) (Fin 0.0) (- (BaroAltitude.Altitude baroData + baroOffset)) in
  ins_reset false gyrosBias ;;;
  ins_seed accelsData pos.

(** Lines 806-850: stage 0, outdoor. *)
Definition ins_stage0_outdoor (accelsData : AccelsData)
    (baroData : BaroAltitude.Data) (gyrosBias : GyrosBiasData) : M unit :=
  ins_reset true gyrosBias ;;;
  gpsPosition <- GPSPositionGet ;;
  NED <- getNED gpsPosition ;;
  setI set_baroOffset (- a2 NED - BaroAltitude.Altitude baroData) ;;;
  ins_seed accelsData NED.

(** Lines 851-869: a later stage, prediction only. *)
Definition ins_stage_predict (gyrosData : GyrosData) (accelsData : AccelsData)
    : M unit :=
  last <- getI ins_last_time ;;
  raw <- PIOS_DELAY_GetRaw ;;
  let dT := of_int (PIOS_DELAY_DiffuS last raw) / Fin 1.0e6 in
  gyrosBias <- GyrosBiasGet ;;
  let gyros :=
    A3 ((x gyrosData + x gyrosBias) * F_PI / Fin 180.0)
       ((y gyrosData + y gyrosBias) * F_PI / Fin 180.0)
       ((z gyrosData + z gyrosBias) * F_PI / Fin 180.0) in
  ins_call (INSStatePrediction gyros
              (A3 (x accelsData) (y accelsData) (z accelsData)) dT) ;;;
  attitude <- AttitudeActualGet ;;
  nav <- NavGet ;;
  AttitudeActualSet (with_quaternion (q nav)).

(** Lines 767-878: one initialization stage; it returns 0. *)
Definition ins_init_stage (outdoor_mode : bool) (gyrosData : GyrosData)
    (accelsData : AccelsData) (baroData : BaroAltitude.Data)
    (gyrosBias : GyrosBiasData) : M Z :=
  stage <- getG init_stage ;;
  (if (stage =? 0)%Z && negb outdoor_mode then
     ins_stage0_indoor accelsData baroData gyrosBias
   else if (stage =? 0)%Z && outdoor_mode then
     ins_stage0_outdoor accelsData baroData gyrosBias
   else if (stage >? 0)%Z then
     ins_stage_predict gyrosData accelsData
   else ret tt) ;;;
  stage <- getG init_stage ;;
  setG set_init_stage (wrap_i32 (stage + 1)) ;;;
  stage <- getG init_stage ;;
  when (stage >? 10)%Z (setI set_inited true) ;;;
  raw <- PIOS_DELAY_GetRaw ;;
  setI set_ins_last_time raw ;;;
  ret 0%Z.

(** [sensors |= mask] on the [uint16_t sensors]. *)
Definition set_bits (sensors mask : Z) : Z := wrap_u16 (Z.lor sensors mask).

(** Lines 883-890: the time step, kept between 1 ms and 10 ms. *)
Definition ins_time_step : M float :=
  last <- getI ins_last_time ;;
  raw <- PIOS_DELAY_GetRaw ;;
  let dT := of_int (PIOS_DELAY_DiffuS last raw) / Fin 1.0e6 in
  setI set_ins_last_time raw ;;;
  ret (if dT >? Fin 0.01 then Fin 0.01
       else if dT <=? Fin 0.001 then Fin 0.001
       else dT).

(** Lines 892-898: a gyro bias pushed by the settings resets the bias state
    of the filter. *)
Definition ins_bias_reload (gyrosBias : GyrosBiasData) : M unit :=
  updated <- getG gyroBiasSettingsUpdated ;;
  when updated
    (ins_call (INSSetGyroBias (deg2rad3 gyrosBias)) ;;;
     setG set_gyroBiasSettingsUpdated false).

(** Lines 900-923: state prediction, the attitude object, covariance
    prediction. *)
Definition ins_predict (gyrosData : GyrosData) (accelsData : AccelsData)
    (gyrosBias : GyrosBiasData) (dT : float) : M unit :=
  a <- getG attitudeSettings ;;
  let gyros :=
    A3 (x gyrosData * F_PI / Fin 180.0)
       (y gyrosData * F_PI / Fin 180.0)
       (z gyrosData * F_PI / Fin 180.0) in
  let gyros :=
    if BiasCorrectGyro a then
      A3 (a0 gyros + x gyrosBias * F_PI / Fin 180.0)
         (a1 gyros + y gyrosBias * F_PI / Fin 180.0)
         (a2 gyros + z gyrosBias * F_PI / Fin 180.0)
    else gyros in
  ins_call (INSStatePrediction gyros
              (A3 (x accelsData) (y accelsData) (z accelsData)) dT) ;;;
  attitude <- AttitudeActualGet ;;
  nav <- NavGet ;;
  AttitudeActualSet (with_quaternion (q nav)) ;;;
  ins_call (INSCovariancePrediction dT).

(** The locals [sensors], [NED] and [vel] that lines 925-975 prepare for
    the correction. *)
Record Measurements : Type := mkMeasurements {
  ms_sensors : Z; ms_NED : arr3; ms_vel : arr3
}.

(** Lines 925-975: which sensors are available, and the position and
    velocity they report.  The block under [if (0)] at lines 938-943 never
    runs and is left out. *)
Definition ins_measurements (outdoor_mode : bool)
    (baroData : BaroAltitude.Data) (gpsData : GPSPosition.Data)
    (gpsVelData : GPSVelocityData) : M Measurements :=
  mag_updated <- getI mag_updated ;;
  baro_updated <- getI baro_updated ;;
  gps_updated <- getI gps_updated ;;
  gps_vel_updated <- getI gps_vel_updated ;;
  let sensors := 0%Z in
  let NED := A3 (Fin 0.0) (Fin 0.0) (Fin 0.0) in
  let vel := A3 (Fin 0.0) (Fin 0.0) (Fin 0.0) in
  let sensors := if mag_updated then set_bits sensors MAG_SENSORS else sensors in
  let sensors := if baro_updated then set_bits sensors BARO_SENSOR else sensors in
  h <- getG homeLocation ;;
  ins_call (INSSetMagNorth (HomeLocation.Be h)) ;;;
  m <-
    (if gps_updated && outdoor_mode then
       s <- getG insSettings ;;
       ins_call (INSSetPosVelVar (gps_var_pos s) (gps_var_vel s)) ;;;
       let sensors := set_bits sensors POS_SENSORS in
       NED <- getNED gpsData ;;
       baroOffset <- getI baroOffset ;;
       setI set_baroOffset
         (BARO_OFFSET_LOWPASS_ALPHA * baroOffset
          + (Fin 1.0 - BARO_OFFSET_LOWPASS_ALPHA)
            * (- a2 NED - BaroAltitude.Altitude baroData)) ;;;
       nedPos <- NEDPositionGet ;;
       NEDPositionSet (NED_of NED) ;;;
       ret (mkMeasurements sensors NED vel)
     else if negb outdoor_mode then
       setI set_baroOffset (Fin 0) ;;;
       ins_call (INSSetPosVelVar (Fin 1e2) (Fin 1e2)) ;;;
       let vel := A3 (Fin 0) (Fin 0) (Fin 0) in
       baroOffset <- getI baroOffset ;;
       let NED :=
         A3 (Fin 0) (Fin 0) (- (BaroAltitude.Altitude baroData + baroOffset)) in
       let sensors :=
         set_bits sensors (Z.lor HORIZ_SENSORS HORIZ_POS_SENSORS) in
       let sensors := set_bits sensors (Z.lor POS_SENSORS VERT_SENSORS) in
       ret (mkMeasurements sensors NED vel)
     else ret (mkMeasurements sensors NED vel)) ;;
  if gps_vel_updated && outdoor_mode then
    ret (mkMeasurements
           (set_bits (ms_sensors m) (Z.lor HORIZ_SENSORS VERT_SENSORS))
           (ms_NED m)
           (A3 (North gpsVelData) (East gpsVelData) (Down gpsVelData)))
  else ret m.

(** Lines 981-982: the correction, when a sensor is available. *)
Definition ins_correct (magData : MagnetometerData)
    (baroData : BaroAltitude.Data) (m : Measurements) : M unit :=
  baroOffset <- getI baroOffset ;;
  when (negb (ms_sensors m =? 0)%Z)
    (ins_call (INSCorrection
                 (A3 (x magData) (y magData) (z magData)) (ms_NED m) (ms_vel m)
                 (BaroAltitude.Altitude baroData + baroOffset)
                 (ms_sensors m))).

(** Lines 984-1007: position, velocity and gyro bias objects. *)
Definition ins_publish : M unit :=
  positionActual <- PositionActualGet ;;
  nav <- NavGet ;;
  PositionActualSet (NED_of (Pos nav)) ;;;
  velocityActual <- VelocityActualGet ;;
  nav <- NavGet ;;
  VelocityActualSet (NED_of (Vel nav)) ;;;
  a <- getG attitudeSettings ;;
  updated <- getG gyroBiasSettingsUpdated ;;
  when (BiasCorrectGyro a && negb updated)
    (nav <- NavGet ;;
     GyrosBiasSet
       (mkXYZ (a0 (gyro_bias nav) * Fin 180.0 / F_PI)
              (a1 (gyro_bias nav) * Fin 180.0 / F_PI)
              (a2 (gyro_bias nav) * Fin 180.0 / F_PI))).

(** Lines 883-1009: prediction and correction of the running filter; it
    returns 0. *)
Definition ins_predict_correct (outdoor_mode : bool) (gyrosData : GyrosData)
    (accelsData : AccelsData) (magData : MagnetometerData)
    (baroData : BaroAltitude.Data) (gpsData : GPSPosition.Data)
    (gpsVelData : GPSVelocityData) (gyrosBias : GyrosBiasData) : M Z :=
  dT <- ins_time_step ;;
  ins_bias_reload gyrosBias ;;;
  ins_predict gyrosData accelsData gyrosBias dT ;;;
  m <- ins_measurements outdoor_mode baroData gpsData gpsVelData ;;
  ins_correct magData baroData m ;;;
  ins_publish ;;;
  ret 0%Z.

(** Lines 723-735: the first run resets the initialization. *)
Definition ins_first_run : M Z :=
  setI set_inited false ;;;
  setG set_init_stage 0%Z ;;;
  clear_updated ;;;
  raw <- PIOS_DELAY_GetRaw ;;
  setI set_ins_last_time raw ;;;
  ret 0%Z.

(** Lines 737-740: which sensors delivered since the last correction. *)
Definition ins_poll (outdoor_mode : bool) : M unit :=
  r <- xQueueReceive magQueue ;;
  f <- getI mag_updated ;;
  setI set_mag_updated (f || r) ;;;
  r <- xQueueReceive baroQueue ;;
  f <- getI baro_updated ;;
  setI set_baro_updated (f || r) ;;;
  r <- xQueueReceive gpsQueue ;;
  f <- getI gps_updated ;;
  setI set_gps_updated (f || (r && outdoor_mode)) ;;;
  r <- xQueueReceive gpsVelQueue ;;
  f <- getI gps_vel_updated ;;
  setI set_gps_vel_updated (f || (r && outdoor_mode)).

(** Lines 751-758: a magnetometer sample with a NaN or without a magnetic
    reference, and a GPS fix below the minimum requirement, are dropped. *)
Definition ins_screen (magData : MagnetometerData)
    (gpsData : GPSPosition.Data) : M unit :=
  f <- getI mag_updated ;;
  setI set_mag_updated
    (f && ((x magData ==? x magData) && (y magData ==? y magData)
           && (z magData ==? z magData))) ;;;
  h <- getG homeLocation ;;
  f <- getI mag_updated ;;
  setI set_mag_updated
    (f && ((a0 (HomeLocation.Be h) !=? Fin 0)
           || (a1 (HomeLocation.Be h) !=? Fin 0)
           || (a2 (HomeLocation.Be h) !=? Fin 0))) ;;;
  f <- getI gps_updated ;;
  setI set_gps_updated
    (f && ((GPSPosition.Satellites gpsData >=? 7)%Z
           && (GPSPosition.PDOP gpsData <=? Fin 4.0)
           && HomeLocation.Set_ h)).

(** Lines 760-765: the alarm of the cycle. *)
Definition ins_alarm (outdoor_mode : bool) (gpsData : GPSPosition.Data)
    : M unit :=
  now_inited <- getI inited ;;
  if negb now_inited then AlarmsSet SYSTEMALARMS_ALARM_ERROR
  else if outdoor_mode && (GPSPosition.Satellites gpsData <? 7)%Z then
    AlarmsSet SYSTEMALARMS_ALARM_ERROR
  else AlarmsClear.

(** [updateAttitudeINSGPS] *)
Definition updateAttitudeINSGPS (first_run outdoor_mode : bool) : M Z :=
  handle <- gets Nav ;;
  match handle with
  | None => ret (-1)%Z
  | Some _ =>
    abandoned <- wait_gyro_accel ;;
    if abandoned then ret (-1)%Z
    else
      was_inited <- getI inited ;;
      when was_inited clear_updated ;;;
      if first_run then ins_first_run
      else
        ins_poll outdoor_mode ;;;
        gyrosData <- GyrosGet ;;
        accelsData <- AccelsGet ;;
        magData <- MagnetometerGet ;;
        baroData <- BaroAltitudeGet ;;
        gpsData <- GPSPositionGet ;;
        gpsVelData <- GPSVelocityGet ;;
        gyrosBias <- GyrosBiasGet ;;
        ins_screen magData gpsData ;;;
        ins_alarm outdoor_mode gpsData ;;;
        now_inited <- getI inited ;;
        mag_updated <- getI mag_updated ;;
        baro_updated <- getI baro_updated ;;
        gps_updated <- getI gps_updated ;;
        if negb now_inited && mag_updated && baro_updated
           && (gps_updated || negb outdoor_mode) then
          ins_init_stage outdoor_mode gyrosData accelsData baroData gyrosBias
        else if negb now_inited then ret 0%Z
        else
          ins_predict_correct outdoor_mode gyrosData accelsData magData
            baroData gpsData gpsVelData gyrosBias
  end.

(** *** Settings updates during a cycle

    [settingsUpdatedCb] is called by the event dispatcher, from another
    task than [AttitudeTask]: an update can arrive while a cycle is being
    computed, which is what the test of [gyroBiasSettingsUpdated] at line
    999 is there for.  [Arrivals] says at which points between line 898,
    where the flag has been consumed, and line 999, where it is tested
    again, an update of the inertial sensor settings arrives. *)
Record Arrivals : Type := mkArrivals {
  after_reload : bool;         (* between lines 898 and 900 *)
  after_predict : bool;        (* between lines 923 and 925 *)
  after_measurements : bool;   (* between lines 975 and 981 *)
  after_correct : bool         (* between lines 982 and 984 *)
}.

Definition quiet : Arrivals := mkArrivals false false false false.

Definition arrived (c : Arrivals) : bool :=
  after_reload c || after_predict c || after_measurements c || after_correct c.

Definition arrival (b : bool) : M unit :=
  when b (settingsUpdatedCb (Some InertialSensorSettingsHandle)).

(** Lines 883-1009 with the updates [c] arriving. *)
Definition ins_predict_correct_during (c : Arrivals) (outdoor_mode : bool)
    (gyrosData : GyrosData) (accelsData : AccelsData)
    (magData : MagnetometerData) (baroData : BaroAltitude.Data)
    (gpsData : GPSPosition.Data) (gpsVelData : GPSVelocityData)
    (gyrosBias : GyrosBiasData) : M Z :=
  dT <- ins_time_step ;;
  ins_bias_reload gyrosBias ;;;
  arrival (after_reload c) ;;;
  ins_predict gyrosData accelsData gyrosBias dT ;;;
  arrival (after_predict c) ;;;
  m <- ins_measurements outdoor_mode baroData gpsData gpsVelData ;;
  arrival (after_measurements c) ;;;
  ins_correct magData baroData m ;;;
  arrival (after_correct c) ;;;
  ins_publish ;;;
  ret 0%Z.

(** [updateAttitudeINSGPS] with the updates [c] arriving while the running
    filter computes. *)
Definition updateAttitudeINSGPS_during (c : Arrivals)
    (first_run outdoor_mode : bool) : M Z :=
  handle <- gets Nav ;;
  match handle with
  | None => ret (-1)%Z
  | Some _ =>
    abandoned <- wait_gyro_accel ;;
    if abandoned then ret (-1)%Z
    else
      was_inited <- getI inited ;;
      when was_inited clear_updated ;;;
      if first_run then ins_first_run
      else
        ins_poll outdoor_mode ;;;
        gyrosData <- GyrosGet ;;
        accelsData <- AccelsGet ;;
        magData <- MagnetometerGet ;;
        baroData <- BaroAltitudeGet ;;
        gpsData <- GPSPositionGet ;;
        gpsVelData <- GPSVelocityGet ;;
        gyrosBias <- GyrosBiasGet ;;
        ins_screen magData gpsData ;;;
        ins_alarm outdoor_mode gpsData ;;;
        now_inited <- getI inited ;;
        mag_updated <- getI mag_updated ;;
        baro_updated <- getI baro_updated ;;
        gps_updated <- getI gps_updated ;;
        if negb now_inited && mag_updated && baro_updated
           && (gps_updated || negb outdoor_mode) then
          ins_init_stage outdoor_mode gyrosData accelsData baroData gyrosBias
        else if negb now_inited then ret 0%Z
        else
          ins_predict_correct_during c outdoor_mode gyrosData accelsData
            magData baroData gpsData gpsVelData gyrosBias
  end.

End Estimator.

(* ------------------------------------------------------------------------- *)
(** ** Module start and task *)

Section Task.

Context {ext : Externals}.

(** What the rest of the system (the sensor drivers posting to the queues,
    the GPS, the ground station) does to the world while the task sleeps
    for the given number of ticks. *)
Variable elapse : Z -> World -> World.

(** [vTaskDelay(ticks)] *)
Definition vTaskDelay (ticks : Z) : M unit := modify (elapse ticks).

(** [AttitudeStart]: the sensor queues are created, the published
    quaternion is set to the identity and the gyro bias to zero; it
    returns 0.  From the connection of the queues at lines 206-215 on, the
    sensor objects post their events: that is the work of the rest of the
    system, which acts on the world between the calls of this module.  The
    creation of the task and the watchdog registration have no counterpart
    in the state. *)
Definition AttitudeStart : M Z :=
  modify (set_pending (fun _ => 0%nat)) ;;;
  attitude <- AttitudeActualGet ;;
  AttitudeActualSet
    (mkAttitudeActual (Fin 1) (Fin 0) (Fin 0) (Fin 0)
       (Roll attitude) (Pitch attitude) (Yaw attitude)) ;;;
  gyrosBias <- GyrosBiasGet ;;
  GyrosBiasSet (mkXYZ (Fin 0) (Fin 0) (Fin 0)) ;;;
  ret 0%Z.

(** The locals of [AttitudeTask]; [last_algorithm] is [None] while it holds
    the invalid value [0xfffffff], which no setting equals. *)
Record TaskLocals : Type := mkTaskLocals {
  first_run : bool;
  last_algorithm : option FusionAlgorithmOptions
}.

Definition algorithm_eqb (a b : FusionAlgorithmOptions) : bool :=
  match a, b with
  | REVOSETTINGS_FUSIONALGORITHM_COMPLEMENTARY,
    REVOSETTINGS_FUSIONALGORITHM_COMPLEMENTARY
  | REVOSETTINGS_FUSIONALGORITHM_INSOUTDOOR,
    REVOSETTINGS_FUSIONALGORITHM_INSOUTDOOR
  | REVOSETTINGS_FUSIONALGORITHM_INSINDOOR,
    REVOSETTINGS_FUSIONALGORITHM_INSINDOOR => true
  | REVOSETTINGS_FUSIONALGORITHM_other n,
    REVOSETTINGS_FUSIONALGORITHM_other m => (n =? m)%Z
  | _, _ => false
  end.

(** [last_algorithm != revoSettings.FusionAlgorithm] *)
Definition algorithm_changed (last : option FusionAlgorithmOptions)
    (now : FusionAlgorithmOptions) : bool :=
  match last with
  | None => true
  | Some a => negb (algorithm_eqb a now)
  end.

(** [AttitudeTask] up to its loop: the alarm is cleared, the settings are
    loaded, the task waits 100 ticks for the sensors, and the locals are
    set for a first run. *)
Definition AttitudeTask_start : M TaskLocals :=
  AlarmsClear ;;;
  settingsUpdatedCb None ;;;
  vTaskDelay 100 ;;;
  ret (mkTaskLocals true None).

(** One pass of the loop of [AttitudeTask]; the watchdog flag it updates
    at the end has no counterpart in the state. *)
Definition AttitudeTask_loop (l : TaskLocals) : M TaskLocals :=
  let ret_val := (-1)%Z in
  algorithm <- getG (fun g => FusionAlgorithm (revoSettings g)) ;;
  let l :=
    if algorithm_changed (last_algorithm l) algorithm
    then mkTaskLocals true (Some algorithm) else l in
  algorithm <- getG (fun g => FusionAlgorithm (revoSettings g)) ;;
  ret_val <-
    match algorithm with
    | REVOSETTINGS_FUSIONALGORITHM_COMPLEMENTARY =>
        updateAttitudeComplementary (first_run l)
    | REVOSETTINGS_FUSIONALGORITHM_INSOUTDOOR =>
        updateAttitudeINSGPS (first_run l) true
    | REVOSETTINGS_FUSIONALGORITHM_INSINDOOR =>
        updateAttitudeINSGPS (first_run l) false
    | REVOSETTINGS_FUSIONALGORITHM_other _ =>
        AlarmsSet SYSTEMALARMS_ALARM_CRITICAL ;;; ret ret_val
    end ;;
  ret (if (ret_val =? 0)%Z then mkTaskLocals false (last_algorithm l) else l).

End Task.

(* ------------------------------------------------------------------------- *)
(** ** Observing a run *)

(** [n] executions in a row. *)
Fixpoint repeat_m (n : nat) (m : M unit) : M unit :=
  match n with
  | O => ret tt
  | S k => m ;;; repeat_m k m
  end.

(** [evs], oldest first, are the events the computation adds to the log. *)
Definition added {A : Type} (m : M A) (w : World) (evs : list Event) : Prop :=
  log (snd (m w)) = rev evs ++ log w.

(** The events a step adds all satisfy [P]. *)
Definition adds (P : Event -> Prop) (w w' : World) : Prop :=
  exists evs : list Event, log w' = evs ++ log w /\ Forall P evs.

Definition is_correction (e : Event) : bool :=
  match e with Lib (INSCorrection _ _ _ _ _) => true | _ => false end.

Definition is_bias_publication (e : Event) : bool :=
  match e with GyrosBiasSet_ev _ => true | _ => false end.

(** In outdoor mode [INSSetPosVelVar] is called at line 935 only, at the
    head of the block that adds the GPS position to the sensors of the
    correction. *)
Definition is_position_variance (e : Event) : bool :=
  match e with Lib (INSSetPosVelVar _ _) => true | _ => false end.

Definition is_quiet (e : Event) : Prop :=
  is_correction e = false /\ is_bias_publication e = false
  /\ is_position_variance e = false.


Definition is_prediction (e : Event) : bool :=
  match e with
  | Lib (INSStatePrediction _ _ _) | Lib (INSCovariancePrediction _) => true
  | _ => false
  end.

(** Neither a prediction nor a correction. *)
Definition plain (e : Event) : Prop :=
  is_correction e = false /\ is_prediction e = false.

(** The gyro bias object, in degrees per second, from the bias state of
    the library, in radians per second (lines 1003-1005). *)
Definition rad2deg3 (b : arr3) : GyrosBiasData :=
  mkXYZ (a0 b * Fin 180.0 / F_PI)%F (a1 b * Fin 180.0 / F_PI)%F
        (a2 b * Fin 180.0 / F_PI)%F.

(** The gyro bias the settings callback publishes (lines 1056-1061). *)
Definition configured_bias (i : Inputs) : GyrosBiasData :=
  mkXYZ (a0 (InitialGyroBias (uavo_InertialSensorSettings i)))
        (a1 (InitialGyroBias (uavo_InertialSensorSettings i)))
        (a2 (InitialGyroBias (uavo_InertialSensorSettings i))).

(** A write of the gyro bias object, if it is one, is the one of the
    settings callback. *)
Definition bias_from_settings (i : Inputs) (e : Event) : Prop :=
  is_bias_publication e = true -> e = GyrosBiasSet_ev (configured_bias i).

(** The state of the accumulator. *)
Definition estimation (w : World) : gyro_bias_estimation_t :=
  gyro_bias_estimation (glob w).

(** [xQueueReceive] finds an event. *)
Definition delivers (w : World) (qu : queue) : bool :=
  negb (Nat.eqb (pending w qu) 0).

(** No NaN in the sample (lines 475 and 752). *)
Definition mag_valid (m : MagnetometerData) : bool :=
  ((x m ==? x m) && (y m ==? y m) && (z m ==? z m))%F.

(** A magnetic reference is configured (line 755). *)
Definition Be_configured (h : HomeLocation.Data) : bool :=
  ((a0 (HomeLocation.Be h) !=? Fin 0) || (a1 (HomeLocation.Be h) !=? Fin 0)
   || (a2 (HomeLocation.Be h) !=? Fin 0))%F.

(** The minimum requirement for GPS usage (line 758). *)
Definition gps_usable (gps : GPSPosition.Data) (h : HomeLocation.Data)
    : bool :=
  (GPSPosition.Satellites gps >=? 7)%Z
  && (GPSPosition.PDOP gps <=? Fin 4.0)%F
  && HomeLocation.Set_ h.

(** What prediction and correction leave alone: everything but the library
    state, the log, the published objects, the pending-override flag, the
    barometer offset and the time stamp. *)
Definition steady (w w' : World) : Prop :=
  pending w' = pending w /\ inp w' = inp w /\ cf w' = cf w
  /\ alarm w' = alarm w /\ readonly w' = readonly w
  /\ mag_registered w' = mag_registered w /\ tick w' = tick w
  /\ delay_raw w' = delay_raw w
  /\ set_gyroBiasSettingsUpdated false (glob w')
     = set_gyroBiasSettingsUpdated false (glob w)
  /\ set_ins_last_time 0 (set_baroOffset NaN (ins w'))
     = set_ins_last_time 0 (set_baroOffset NaN (ins w)).

(** What the complementary filter leaves alone up to the magnetometer
    step. *)
Definition cf_kept (w w' : World) : Prop :=
  pending w' = pending w /\ inp w' = inp w
  /\ homeLocation (glob w') = homeLocation (glob w)
  /\ mag_err (glob w') = mag_err (glob w)
  /\ uavo_AttitudeActual (pub w') = uavo_AttitudeActual (pub w)
  /\ readonly w' = readonly w /\ tick w' = tick w /\ delay_raw w' = delay_raw w.

(** Lines 716-721 and 737-765 of a cycle that is not a first run: they lead
    to the state in which the cycle chooses between an initialization
    stage, an idle return and the running filter. *)
Definition ins_entry {ext : Externals} (outdoor_mode : bool) : M unit :=
  was_inited <- getI inited ;;
  when was_inited clear_updated ;;;
  ins_poll outdoor_mode ;;;
  magData <- MagnetometerGet ;;
  gpsData <- GPSPositionGet ;;
  ins_screen magData gpsData ;;;
  ins_alarm outdoor_mode gpsData.

(** All sensors the initialization waits for have reported (line 767). *)
Definition ins_ready (outdoor : bool) (w : World) : bool :=
  ((mag_updated (ins w) || delivers w magQueue)
   && mag_valid (uavo_Magnetometer (inp w))
   && Be_configured (homeLocation (glob w)))
  && (baro_updated (ins w) || delivers w baroQueue)
  && ((gps_updated (ins w) || delivers w gpsQueue && outdoor)
      && gps_usable (uavo_GPSPosition (inp w)) (homeLocation (glob w))
      || negb outdoor).

(** The sensors a cycle of the initialized filter has on record once the
    queues are polled and the samples screened (lines 716-721 and
    737-758): those that delivered in this cycle. *)
Definition mag_fresh (w : World) : bool :=
  delivers w magQueue && mag_valid (uavo_Magnetometer (inp w))
  && Be_configured (homeLocation (glob w)).

Definition gps_fresh (outdoor : bool) (w : World) : bool :=
  delivers w gpsQueue && outdoor
  && gps_usable (uavo_GPSPosition (inp w)) (homeLocation (glob w)).

Definition vel_fresh (outdoor : bool) (w : World) : bool :=
  delivers w gpsVelQueue && outdoor.

(** The sensor mask lines 925-971 assemble from the four flags. *)
Definition sensors_of {ext : Externals} (outdoor mag baro gps vel : bool)
    : Z :=
  let sensors := 0%Z in
  let sensors := if mag then set_bits sensors MAG_SENSORS else sensors in
  let sensors := if baro then set_bits sensors BARO_SENSOR else sensors in
  let sensors :=
    if gps && outdoor then set_bits sensors POS_SENSORS
    else if negb outdoor then
      set_bits (set_bits sensors (Z.lor HORIZ_SENSORS HORIZ_POS_SENSORS))
        (Z.lor POS_SENSORS VERT_SENSORS)
    else sensors in
  if vel && outdoor then set_bits sensors (Z.lor HORIZ_SENSORS VERT_SENSORS)
  else sensors.

(** The position lines 925-968 hand to the correction: the GPS position
    in the local frame, the barometer altitude under the origin indoors,
    the initial zeros otherwise. *)
Definition position_of (outdoor gps : bool) (NED : arr3)
    (baro : BaroAltitude.Data) : arr3 :=
  if gps && outdoor then NED
  else if negb outdoor then
    A3 (Fin 0) (Fin 0) (- (BaroAltitude.Altitude baro + Fin 0))%F
  else A3 (Fin 0.0) (Fin 0.0) (Fin 0.0).

(** The velocity lines 925-975 hand to the correction. *)
Definition velocity_of (outdoor gps vel : bool) (gv : GPSVelocityData)
    : arr3 :=
  if vel && outdoor then A3 (North gv) (East gv) (Down gv)
  else if gps && outdoor then A3 (Fin 0.0) (Fin 0.0) (Fin 0.0)
  else if negb outdoor then A3 (Fin 0) (Fin 0) (Fin 0)
  else A3 (Fin 0.0) (Fin 0.0) (Fin 0.0).

(** The mask, the position and the velocity of a cycle of the initialized
    filter, read off the state the cycle starts in. *)
Definition cycle_sensors {ext : Externals} (outdoor : bool) (w : World) : Z :=
  sensors_of outdoor (mag_fresh w) (delivers w baroQueue)
    (gps_fresh outdoor w) (vel_fresh outdoor w).

Definition cycle_position {ext : Externals} (outdoor : bool) (w : World)
    : arr3 :=
  position_of outdoor (gps_fresh outdoor w)
    (fst (getNED (uavo_GPSPosition (inp w)) w)) (uavo_BaroAltitude (inp w)).

Definition cycle_velocity (outdoor : bool) (w : World) : arr3 :=
  velocity_of outdoor (gps_fresh outdoor w) (vel_fresh outdoor w)
    (uavo_GPSVelocity (inp w)).

(** The correction is told to use the position: its mask has a bit of
    [POS_SENSORS]. *)
Definition takes_position {ext : Externals} (sensors : Z) : bool :=
  negb (Z.land sensors POS_SENSORS =? 0)%Z.

(** The masks of the other sensors share no bit with [POS_SENSORS], which
    is a non-zero mask of 16 bits. *)
Definition position_mask_apart {ext : Externals} : Prop :=
  (0 < POS_SENSORS < 2 ^ 16)%Z
  /\ Z.land MAG_SENSORS POS_SENSORS = 0%Z
  /\ Z.land BARO_SENSOR POS_SENSORS = 0%Z
  /\ Z.land HORIZ_SENSORS POS_SENSORS = 0%Z
  /\ Z.land VERT_SENSORS POS_SENSORS = 0%Z.

(** A correction that is told to use the position. *)
Definition corrects_with_position {ext : Externals} (e : Event) : bool :=
  match e with
  | Lib (INSCorrection _ _ _ _ sensors) => takes_position sensors
  | _ => false
  end.

Definition uses_gps_position {ext : Externals} (evs : list Event) : Prop :=
  exists e, In e evs /\ corrects_with_position e = true.

(** What a correction of an outdoor cycle that started in [w] is given as
    position: when its mask has a bit of [POS_SENSORS], the GPS position
    in the local frame, and then the event of that position was taken from
    the queue in this cycle and the fix meets the minimum requirement;
    otherwise the zeros of line 697. *)
Definition position_gated {ext : Externals} (w : World) (e : Event) : Prop :=
  match e with
  | Lib (INSCorrection _ NED _ _ sensors) =>
      if takes_position sensors
      then delivers w gpsQueue = true
           /\ gps_usable (uavo_GPSPosition (inp w)) (homeLocation (glob w))
              = true
           /\ NED = fst (getNED (uavo_GPSPosition (inp w)) w)
      else NED = A3 (Fin 0.0) (Fin 0.0) (Fin 0.0)
  | _ => True
  end.

Inductive CycleKind : Type :=
| Failed | Reset | Stage | Idle | Running.

(** Which path a cycle of [updateAttitudeINSGPS] takes, read off the state
    it starts in. *)
Definition cycle_kind (fr outdoor : bool) (w : World) : CycleKind :=
  match Nav w with
  | None => Failed
  | Some _ =>
      if negb (delivers w gyroQueue && delivers w accelQueue)
         && negb (readonly w) then Failed
      else if fr then Reset
      else if inited (ins w) then Running
      else if ins_ready outdoor w then Stage
      else Idle
  end.

(** What the events of one cycle tell about the state it started in. *)
Definition cycle_events (fr outdoor : bool) (w : World) (e : Event) : Prop :=
  (is_position_variance e = true ->
   outdoor = false
   \/ gps_usable (uavo_GPSPosition (inp w)) (homeLocation (glob w)) = true)
  /\ (is_correction e = true -> inited (ins w) = true /\ fr = false)
  /\ (is_bias_publication e = true -> inited (ins w) = true /\ fr = false).

(** A run: before each cycle the rest of the system (sensor drivers, GPS,
    settings) changes the world; each cycle gets its [first_run] flag. *)
Definition Step : Type := ((World -> World) * bool)%type.

Definition ins_step {ext : Externals} (outdoor : bool) (w : World) (s : Step)
    : World :=
  snd (updateAttitudeINSGPS (snd s) outdoor (fst s w)).

Definition ins_run {ext : Externals} (outdoor : bool) (steps : list Step)
    (w : World) : World :=
  fold_left (ins_step outdoor) steps w.

(** The rest of the system leaves the statics of the filter and its stage
    counter alone. *)
Definition outside (e : World -> World) : Prop :=
  forall w, ins (e w) = ins w /\ init_stage (glob (e w)) = init_stage (glob w).

(** The barometer never puts an event in its queue. *)
Definition baro_silent (e : World -> World) : Prop :=
  forall w, pending (e w) baroQueue = 0%nat.

(** Initialization waits at stage 0 and the barometer has not reported. *)
Definition stalled (w : World) : Prop :=
  inited (ins w) = false /\ init_stage (glob w) = 0%Z
  /\ baro_updated (ins w) = false.

(** The stage counter and the initialized flag agree: the flag is set
    exactly when the eleven stages 0 to 10 are done. *)
Definition staged (w : World) : Prop :=
  (inited (ins w) = false /\ (0 <= init_stage (glob w) <= 10)%Z)
  \/ (inited (ins w) = true /\ init_stage (glob w) = 11%Z).

(** The magnetometer error lines 477-493 compute from the stored sample
    [mag], the attitude [q] and the home field [Be]. *)
Definition mag_error {ext : Externals} (q : arr4) (mag : MagnetometerData)
    (Be : arr3) : arr3 :=
  let brot := rot_mult (Quaternion2R q) Be false in
  let mag_len := sqrtf (x mag * x mag + y mag * y mag + z mag * z mag)%F in
  let bmag := sqrtf (sum_sq3 brot) in
  if ((bmag <? Fin 1) || (mag_len <? Fin 1))%F then A3 (Fin 0) (Fin 0) (Fin 0)
  else CrossProduct
         (A3 (x mag / mag_len) (y mag / mag_len) (z mag / mag_len))%F
         (div3 brot bmag).

(** The accumulation window followed by the request to compute the bias. *)
Definition accumulate_window (n : nat) (g : GyrosData) : M unit :=
  repeat_m n (accumulate_gyro g) ;;; accumulate_gyro_compute.

(** The sum [s] after [n] additions of the term [t], one after the other
    as line 651 performs them. *)
Fixpoint sum_of (n : nat) (s t : float) : float :=
  match n with
  | O => s
  | S k => sum_of k (s + t)%F t
  end.

(** The state after the settings callback has run for an update of the
    home location. *)
Definition home_updated {ext : Externals} (w : World) : World :=
  snd (settingsUpdatedCb (Some HomeLocationHandle) w).

(* ------------------------------------------------------------------------- *)
(** ** A sample platform

    One instance of the code outside the module and a few concrete states,
    to run the module on.  The theorems below hold for every instance;
    this one only serves to evaluate cycles. *)

Module Sample.

Local Open Scope float_scope.

(** Exact on the squares of rationals in lowest terms. *)
Definition sqrt_q (a : float) : float :=
  match a with
  | Fin v => if Qle_bool 0 v then Fin (Z.sqrt (Qnum v) # Pos.sqrt (Qden v))
             else NaN
  | NaN => NaN
  end.

(** The body-from-earth rotation matrix of a unit quaternion. *)
Definition rotation (q : arr4) : mat3 :=
  let q0 := b0 q in let q1 := b1 q in let q2 := b2 q in let q3 := b3 q in
  M3 (A3 (q0 * q0 + q1 * q1 - q2 * q2 - q3 * q3)
         (Fin 2 * (q1 * q2 + q0 * q3))
         (Fin 2 * (q1 * q3 - q0 * q2)))
     (A3 (Fin 2 * (q1 * q2 - q0 * q3))
         (q0 * q0 - q1 * q1 + q2 * q2 - q3 * q3)
         (Fin 2 * (q2 * q3 + q0 * q1)))
     (A3 (Fin 2 * (q1 * q3 + q0 * q2))
         (Fin 2 * (q2 * q3 - q0 * q1))
         (q0 * q0 - q1 * q1 - q2 * q2 + q3 * q3)).

Definition dot (u v : arr3) : float := a0 u * a0 v + a1 u * a1 v + a2 u * a2 v.

Definition apply_rotation (R : mat3) (v : arr3) (transpose : bool) : arr3 :=
  if transpose then
    A3 (dot (A3 (a0 (r0 R)) (a0 (r1 R)) (a0 (r2 R))) v)
       (dot (A3 (a1 (r0 R)) (a1 (r1 R)) (a1 (r2 R))) v)
       (dot (A3 (a2 (r0 R)) (a2 (r1 R)) (a2 (r2 R))) v)
  else A3 (dot (r0 R) v) (dot (r1 R) v) (dot (r2 R) v).

(** A library that keeps the state it is given and whose correction moves
    the gyro bias estimate by 0.001 rad/s on each axis. *)
Definition library (c : InsCall) (n : NavStruct) : NavStruct :=
  match c with
  | INSSetGyroBias b => mkNav (Pos n) (Vel n) (q n) b
  | INSSetState pos vel q gb _ => mkNav pos vel q gb
  | INSCorrection _ _ _ _ _ =>
      mkNav (Pos n) (Vel n) (q n)
        (A3 (a0 (gyro_bias n) + Fin 0.001) (a1 (gyro_bias n) + Fin 0.001)
            (a2 (gyro_bias n) + Fin 0.001))
  | _ => n
  end.

(** The trigonometric functions are exact at the arguments the sample
    states lead to: level attitude, zero heading, home on the equator. *)
Definition platform : Externals := {|
  sqrtf := sqrt_q;
  cosf := fun _ => Fin 1;
  expf := fun _ => Fin 1;
  atan2f := fun _ _ => Fin 0;
  RPY2Quaternion := fun _ => A4 (Fin 1) (Fin 0) (Fin 0) (Fin 0);
  Quaternion2RPY := fun _ => A3 (Fin 0) (Fin 0) (Fin 0);
  Quaternion2R := rotation;
  rot_mult := apply_rotation;
  PIOS_DELAY_DiffuS := fun raw now => wrap_u32 (now - raw);
  INS := library;
  MAG_SENSORS := 0x1C0; BARO_SENSOR := 0x200; POS_SENSORS := 0x007;
  HORIZ_SENSORS := 0x018; VERT_SENSORS := 0x020; HORIZ_POS_SENSORS := 0x003
|}.

Definition xyz0 : XYZData := mkXYZ (Fin 0) (Fin 0) (Fin 0).
Definition ned0 : NEDData := mkNED (Fin 0) (Fin 0) (Fin 0).
Definition identity : arr4 := A4 (Fin 1) (Fin 0) (Fin 0) (Fin 0).

(** Home on the equator at sea level, magnetic field pointing east. *)
Definition home : HomeLocation.Data :=
  HomeLocation.mk 0 0 (Fin 0) (A3 (Fin 0) (Fin 100) (Fin 0)) true.

Definition settings : AttitudeSettingsData :=
  mkAttitudeSettings (Fin 0.05) (Fin 0.0001) (Fin 0.000001) (Fin 0.01)
    (Fin 0) false true.

Definition variances : INSSettingsData :=
  mkINSSettings zero3 zero3 zero3 (Fin 1) (Fin 1) (Fin 1).

(** Level and at rest at home, magnetometer pointing north, eight
    satellites; the configured initial gyro bias is (1, 2, 3) deg/s. *)
Definition sensors : Inputs :=
  mkInputs (mkXYZ (Fin 0) (Fin 0) (Fin (-9.81))) xyz0
    (mkXYZ (Fin 100) (Fin 0) (Fin 0))
    (BaroAltitude.mk (Fin 10))
    (GPSPosition.mk 0 0 (Fin 0) (Fin 0) 8 (Fin 1) (Fin 0) (Fin 0))
    ned0 (mkFlightStatus FLIGHTSTATUS_ARMED_DISARMED) settings home variances
    (mkRevoSettings REVOSETTINGS_FUSIONALGORITHM_INSINDOOR)
    (mkInertialSensorSettings (A3 (Fin 1) (Fin 2) (Fin 3))).

(** Before [AttitudeStart]: the variables of the module as the C start-up
    code leaves them. *)
Definition boot : World :=
  mkWorld (fun _ => 0%nat) sensors
    (mkPublished
       (mkAttitudeActual (Fin 0) (Fin 0) (Fin 0) (Fin 0) (Fin 0) (Fin 0) (Fin 0))
       xyz0 ned0 ned0 ned0)
    (mkGlobals
       (mkAttitudeSettings (Fin 0) (Fin 0) (Fin 0) (Fin 0) (Fin 0) false false)
       (HomeLocation.mk 0 0 (Fin 0) zero3 false)
       (mkINSSettings zero3 zero3 zero3 (Fin 0) (Fin 0) (Fin 0))
       (mkRevoSettings REVOSETTINGS_FUSIONALGORITHM_COMPLEMENTARY)
       false false (Fin 0) (mk_gyro_bias_estimation zero3 0 false)
       (Fin 0) (Fin 0) zero3 (Fin 0.000001) zero3 0)
    (mkCFStatics 0 zero3 zero3 0 CF_POWERON)
    (mkINSStatics false false false false (Fin 0) 0 false)
    SYSTEMALARMS_ALARM_OK false true 0 2500
    (Some (mkNav zero3 zero3 identity zero3)) [].

(** Every sensor posts an event. *)
Definition deliver (w : World) : World := set_pending (fun _ => 1%nat) w.

(** Every sensor but the one behind [k] posts an event. *)
Definition deliver_but (k : queue) (w : World) : World :=
  set_pending (fun j => if queue_eqb j k then 0%nat else 1%nat) w.

(** The gyro and the accelerometer post an event, the other sensors do
    not. *)
Definition inertial_only (w : World) : World :=
  set_pending
    (fun j => if queue_eqb j gyroQueue || queue_eqb j accelQueue
              then 1%nat else 0%nat) w.

(** No sensor posts an event. *)
Definition silence (w : World) : World := set_pending (fun _ => 0%nat) w.

(** The module started and the task at the head of its loop: during the
    delay every sensor has posted an event. *)
Definition power_on : World :=
  snd (AttitudeTask_start (ext := platform) (fun _ => deliver)
         (snd (AttitudeStart boot))).

(** The events a computation adds to the log, oldest first. *)
Definition events_of {A : Type} (m : M A) (w : World) : list Event :=
  rev (firstn (length (log (snd (m w))) - length (log w)) (log (snd (m w)))).

(** A first run followed by [n] cycles, all sensors delivering each time. *)
Definition cycles (n : nat) : list Step :=
  (deliver, true) :: repeat (deliver, false) n.

(** The filter after its eleven initialization stages, the sensors having
    delivered again. *)
Definition running (outdoor : bool) : World :=
  deliver (ins_run (ext := platform) outdoor (cycles 11) power_on).

(** The accumulator switched on and empty, the published gyro bias [b]. *)
Definition accumulating (b : GyrosBiasData) : World :=
  set_pub (set_uavo_GyrosBias b (pub power_on))
    (set_glob
       (set_gyro_bias_estimation (mk_gyro_bias_estimation zero3 0 true)
          (glob power_on))
       power_on).

(** The INS library has no navigation solution to give. *)
Definition no_library : World := set_Nav None power_on.

(** The world as it is with other sensor data. *)
Definition with_inputs (i : Inputs) (w : World) : World :=
  mkWorld (pending w) i (pub w) (glob w) (cf w) (ins w) (alarm w)
    (readonly w) (mag_registered w) (tick w) (delay_raw w) (Nav w) (log w).

(** The sample sensor data with another magnetometer sample. *)
Definition sensors_with_mag (m : MagnetometerData) : Inputs :=
  mkInputs (uavo_Accels sensors) (uavo_Gyros sensors) m
    (uavo_BaroAltitude sensors) (uavo_GPSPosition sensors)
    (uavo_GPSVelocity sensors) (uavo_FlightStatus sensors)
    (uavo_AttitudeSettings sensors) (uavo_HomeLocation sensors)
    (uavo_INSSettings sensors) (uavo_RevoSettings sensors)
    (uavo_InertialSensorSettings sensors).

(** The sample sensor data with another GPS fix. *)
Definition sensors_with_gps (g : GPSPosition.Data) : Inputs :=
  mkInputs (uavo_Accels sensors) (uavo_Gyros sensors)
    (uavo_Magnetometer sensors) (uavo_BaroAltitude sensors) g
    (uavo_GPSVelocity sensors) (uavo_FlightStatus sensors)
    (uavo_AttitudeSettings sensors) (uavo_HomeLocation sensors)
    (uavo_INSSettings sensors) (uavo_RevoSettings sensors)
    (uavo_InertialSensorSettings sensors).

(** Simulation: the published attitude is read-only. *)
Definition simulated (w : World) : World :=
  mkWorld (pending w) (inp w) (pub w) (glob w) (cf w) (ins w) (alarm w)
    true (mag_registered w) (tick w) (delay_raw w) (Nav w) (log w).

(** The complementary filter in the given initialization state. *)
Definition with_status (s : complimentary_filter_status_t) (w : World)
    : World :=
  set_cf (set_complimentary_filter_status s (cf w)) w.

(** The pilot arms, with zeroing during arming switched on, while the
    complementary filter is in normal operation. *)
Definition arming (w : World) : World :=
  with_inputs
    (mkInputs (uavo_Accels (inp w)) (uavo_Gyros (inp w))
       (uavo_Magnetometer (inp w)) (uavo_BaroAltitude (inp w))
       (uavo_GPSPosition (inp w)) (uavo_GPSVelocity (inp w))
       (mkFlightStatus FLIGHTSTATUS_ARMED_ARMING)
       (uavo_AttitudeSettings (inp w)) (uavo_HomeLocation (inp w))
       (uavo_INSSettings (inp w)) (uavo_RevoSettings (inp w))
       (uavo_InertialSensorSettings (inp w)))
    (set_glob
       (set_attitudeSettings
          (mkAttitudeSettings (Fin 0.05) (Fin 0.0001) (Fin 0.000001)
             (Fin 0.01) (Fin 0) true true)
          (glob w))
       (with_status CF_NORMAL w)).

(** The copy of the fusion algorithm setting changed to [a]. *)
Definition with_algorithm (a : FusionAlgorithmOptions) (w : World) : World :=
  set_glob (set_revoSettings (mkRevoSettings a) (glob w)) w.

(** One event in every sensor queue, two in the magnetometer queue. *)
Definition two_mag_events (w : World) : World :=
  set_pending (fun k => if queue_eqb k magQueue then 2%nat else 1%nat) w.

(** The copy of the home location marked as not set. *)
Definition without_home (w : World) : World :=
  set_glob
    (set_homeLocation (HomeLocation.mk 0 0 (Fin 0) zero3 false) (glob w)) w.

End Sample.

(* ------------------------------------------------------------------------- *)
(** ** Tactics

    Two ways to run a state transformer symbolically.  On a world kept as a
    variable, [wsimpl] unfolds the monad and lets the projections meet the
    field updates, for proofs that go on by rewriting.  On a world split
    into its fields ([wdestruct]), [wcbv] evaluates the transformer except
    for arithmetic and comparisons, and [break_if] case splits the tests
    that remain. *)

Ltac wunfold :=
  cbv beta delta
    [bind ret gets modify getG setG getC setC getI setI setS emit when
     AccelsGet GyrosGet MagnetometerGet BaroAltitudeGet GPSPositionGet
     GPSVelocityGet FlightStatusGet AttitudeSettingsGet HomeLocationGet
     INSSettingsGet RevoSettingsGet InertialSensorSettingsGet
     AttitudeActualGet GyrosBiasGet NEDPositionGet PositionActualGet
     VelocityActualGet AttitudeActualSet GyrosBiasSet NEDPositionSet
     PositionActualSet VelocityActualSet AttitudeActualReadOnly
     AlarmsSet AlarmsClear xTaskGetTickCount PIOS_DELAY_GetRaw
     vTaskDelay ins_call NavGet xQueueReceive].

Ltac wreduce :=
  cbn beta iota zeta delta
    [fst snd negb andb orb option_map queue_eqb status_eqb handle_eqb concerns
     NED_of Nat.pred
     set_uavo_AttitudeActual set_uavo_GyrosBias set_uavo_NEDPosition
     set_uavo_PositionActual set_uavo_VelocityActual
     set_attitudeSettings set_homeLocation set_insSettings set_revoSettings
     set_gyroBiasSettingsUpdated set_accel_filter_enabled set_accel_alpha
     set_gyro_bias_estimation set_accel_mag set_qmag set_mag_err set_T
     set_init_stage
     set_timeval set_accels_filtered set_grot_filtered set_arming_count
     set_complimentary_filter_status
     set_mag_updated set_baro_updated set_gps_updated set_gps_vel_updated
     set_baroOffset set_ins_last_time set_inited
     set_pending set_pub set_glob set_cf set_ins set_alarm set_Nav set_log
     set_AccelKp set_AccelKi set_YawBiasRate set_MagKp
     set_accumulated_gyro set_accumulated_gyro_samples set_accumulating_gyro
     pending inp pub glob cf ins alarm readonly mag_registered tick delay_raw
     Nav log
     uavo_Accels uavo_Gyros uavo_Magnetometer uavo_BaroAltitude
     uavo_GPSPosition uavo_GPSVelocity uavo_FlightStatus
     uavo_AttitudeSettings uavo_HomeLocation uavo_INSSettings
     uavo_RevoSettings uavo_InertialSensorSettings
     uavo_AttitudeActual uavo_GyrosBias uavo_NEDPosition uavo_PositionActual
     uavo_VelocityActual
     attitudeSettings homeLocation insSettings revoSettings
     gyroBiasSettingsUpdated accel_filter_enabled accel_alpha
     gyro_bias_estimation accel_mag qmag mag_err magKi T init_stage
     timeval accels_filtered grot_filtered arming_count
     complimentary_filter_status
     mag_updated baro_updated gps_updated gps_vel_updated baroOffset
     ins_last_time inited
     accumulated_gyro accumulated_gyro_samples accumulating_gyro
     AccelKp AccelKi YawBiasRate MagKp AccelTau ZeroDuringArming
     BiasCorrectGyro
     a0 a1 a2 b0 b1 b2 b3 x y z North East Down
     q1 q2 q3 q4 Roll Pitch Yaw Pos Vel q gyro_bias].

Ltac wsetters :=
  cbv beta delta
    [set_uavo_AttitudeActual set_uavo_GyrosBias set_uavo_NEDPosition
     set_uavo_PositionActual set_uavo_VelocityActual
     set_attitudeSettings set_homeLocation set_insSettings set_revoSettings
     set_gyroBiasSettingsUpdated set_accel_filter_enabled set_accel_alpha
     set_gyro_bias_estimation set_accel_mag set_qmag set_mag_err set_T
     set_init_stage
     set_timeval set_accels_filtered set_grot_filtered set_arming_count
     set_complimentary_filter_status
     set_mag_updated set_baro_updated set_gps_updated set_gps_vel_updated
     set_baroOffset set_ins_last_time set_inited
     set_pending set_pub set_glob set_cf set_ins set_alarm set_Nav set_log
     set_AccelKp set_AccelKi set_YawBiasRate set_MagKp
     set_accumulated_gyro set_accumulated_gyro_samples set_accumulating_gyro];
  wreduce.

Ltac wsimpl := wunfold; wreduce.

(** The monad, the accessors of the objects, the field updates and the
    projections are unfolded; arithmetic and comparisons are left as they
    are written. *)
Declare Reduction world :=
  cbv beta iota zeta delta
    [bind ret gets modify getG setG getC setC getI setI setS emit when
     AccelsGet GyrosGet MagnetometerGet BaroAltitudeGet GPSPositionGet
     GPSVelocityGet FlightStatusGet AttitudeSettingsGet HomeLocationGet
     INSSettingsGet RevoSettingsGet InertialSensorSettingsGet
     AttitudeActualGet GyrosBiasGet NEDPositionGet PositionActualGet
     VelocityActualGet AttitudeActualSet GyrosBiasSet NEDPositionSet
     PositionActualSet VelocityActualSet AttitudeActualReadOnly
     AlarmsSet AlarmsClear xTaskGetTickCount PIOS_DELAY_GetRaw
     vTaskDelay ins_call NavGet xQueueReceive
     fst snd negb andb orb option_map queue_eqb status_eqb handle_eqb concerns
     NED_of Nat.pred
     set_uavo_AttitudeActual set_uavo_GyrosBias set_uavo_NEDPosition
     set_uavo_PositionActual set_uavo_VelocityActual
     set_attitudeSettings set_homeLocation set_insSettings set_revoSettings
     set_gyroBiasSettingsUpdated set_accel_filter_enabled set_accel_alpha
     set_gyro_bias_estimation set_accel_mag set_qmag set_mag_err set_T
     set_init_stage
     set_timeval set_accels_filtered set_grot_filtered set_arming_count
     set_complimentary_filter_status
     set_mag_updated set_baro_updated set_gps_updated set_gps_vel_updated
     set_baroOffset set_ins_last_time set_inited
     set_pending set_pub set_glob set_cf set_ins set_alarm set_Nav set_log
     set_AccelKp set_AccelKi set_YawBiasRate set_MagKp
     set_accumulated_gyro set_accumulated_gyro_samples set_accumulating_gyro
     pending inp pub glob cf ins alarm readonly mag_registered tick delay_raw
     Nav log
     uavo_Accels uavo_Gyros uavo_Magnetometer uavo_BaroAltitude
     uavo_GPSPosition uavo_GPSVelocity uavo_FlightStatus
     uavo_AttitudeSettings uavo_HomeLocation uavo_INSSettings
     uavo_RevoSettings uavo_InertialSensorSettings
     uavo_AttitudeActual uavo_GyrosBias uavo_NEDPosition uavo_PositionActual
     uavo_VelocityActual
     attitudeSettings homeLocation insSettings revoSettings
     gyroBiasSettingsUpdated accel_filter_enabled accel_alpha
     gyro_bias_estimation accel_mag qmag mag_err magKi T init_stage
     timeval accels_filtered grot_filtered arming_count
     complimentary_filter_status
     mag_updated baro_updated gps_updated gps_vel_updated baroOffset
     ins_last_time inited
     accumulated_gyro accumulated_gyro_samples accumulating_gyro
     AccelKp AccelKi YawBiasRate MagKp AccelTau ZeroDuringArming
     BiasCorrectGyro
     a0 a1 a2 b0 b1 b2 b3 x y z North East Down
     q1 q2 q3 q4 Roll Pitch Yaw Pos Vel q gyro_bias].

Ltac wcbv :=
  lazymatch goal with
  | |- ?G => let G' := eval world in G in change G'
  end.

Ltac wcbv_in H :=
  let P := type of H in
  let P' := eval world in P in
  change P' in H.

Ltac wcbv_all :=
  repeat match goal with H : _ |- _ => progress wcbv_in H end; wcbv.

Ltac wdestruct w :=
  let pe := fresh "pend" in
  let i := fresh "i" in let p := fresh "p" in let g := fresh "g" in
  let c := fresh "c" in let n := fresh "n" in
  destruct w as [pe i p g c n ? ? ? ? ? ? ?];
  destruct i, p, g, c, n; wcbv_all.

Ltac break_if :=
  match goal with
  | |- context [if ?c then _ else _] =>
      lazymatch c with
      | context [if _ then _ else _] => fail
      | _ => destruct c eqn:?
      end
  end.

Ltac phase :=
  repeat (break_if; wcbv); repeat split; try reflexivity.

(** The events a symbolic run has put in front of the log. *)
Ltac prefix_of l base :=
  lazymatch l with
  | base => constr:(@nil Event)
  | ?a :: ?t => let r := prefix_of t base in constr:(a :: r)
  end.

Ltac new_events :=
  lazymatch goal with
  | |- exists evs : list Event, ?l = evs ++ ?base /\ _ =>
      let p := prefix_of l base in
      exists p; split; [reflexivity | repeat constructor]
  end.

(* ------------------------------------------------------------------------- *)
(** * Properties *)

(** ** Gyro bias accumulator *)

Lemma accumulate_gyro_on (g : GyrosData) (w : World) :
  accumulating_gyro (estimation w) = true ->
  accumulate_gyro g w =
  (tt, set_glob (set_gyro_bias_estimation
         (mk_gyro_bias_estimation
            (A3 (a0 (accumulated_gyro (estimation w)) + (x g + x (uavo_GyrosBias (pub w))))
                (a1 (accumulated_gyro (estimation w)) + (y g + y (uavo_GyrosBias (pub w))))
                (a2 (accumulated_gyro (estimation w)) + (z g + z (uavo_GyrosBias (pub w)))))%F
            (wrap_u32 (accumulated_gyro_samples (estimation w) + 1))
            true)
         (glob w)) w).
Proof.
  unfold estimation. intros H.
  unfold accumulate_gyro. wsimpl. rewrite H. wsimpl. wsetters. rewrite H. reflexivity.
Qed.

Lemma accumulate_gyro_off (g : GyrosData) (w : World) :
  accumulating_gyro (estimation w) = false ->
  accumulate_gyro g w = (tt, w).
Proof.
  unfold estimation. intros H.
  unfold accumulate_gyro. wsimpl. rewrite H. reflexivity.
Qed.

Lemma accumulate_gyro_compute_below (w : World) :
  (accumulated_gyro_samples (estimation w) <= 100)%Z ->
  accumulate_gyro_compute w = (tt, w).
Proof.
  unfold estimation. intros H.
  unfold accumulate_gyro_compute. wsimpl.
  replace (accumulated_gyro_samples (gyro_bias_estimation (glob w)) >? 100)%Z with false.
  - rewrite andb_false_r. reflexivity.
  - symmetry. rewrite Z.gtb_ltb. apply Z.ltb_ge. exact H.
Qed.

Lemma accumulate_gyro_compute_idle (w : World) :
  accumulating_gyro (estimation w) = false ->
  accumulate_gyro_compute w = (tt, w).
Proof.
  unfold estimation. intros H.
  unfold accumulate_gyro_compute. wsimpl. rewrite H. reflexivity.
Qed.

Lemma accumulate_gyro_compute_mean (w : World) :
  accumulating_gyro (estimation w) = true ->
  (100 < accumulated_gyro_samples (estimation w))%Z ->
  let w' := snd (accumulate_gyro_compute w) in
  uavo_GyrosBias (pub w') =
    mkXYZ (a0 (accumulated_gyro (estimation w)) / of_int (accumulated_gyro_samples (estimation w)))%F
          (a1 (accumulated_gyro (estimation w)) / of_int (accumulated_gyro_samples (estimation w)))%F
          (a2 (accumulated_gyro (estimation w)) / of_int (accumulated_gyro_samples (estimation w)))%F
  /\ estimation w' = mk_gyro_bias_estimation (A3 (Fin 0) (Fin 0) (Fin 0)) 0 false
  /\ log w' = GyrosBiasSet_ev (uavo_GyrosBias (pub w')) :: log w.
Proof.
  unfold estimation. intros H1 H2.
  unfold accumulate_gyro_compute, accumulate_gyro_zero. wsimpl. rewrite H1.
  replace (accumulated_gyro_samples (gyro_bias_estimation (glob w)) >? 100)%Z with true
    by (symmetry; rewrite Z.gtb_ltb; apply Z.ltb_lt; exact H2).
  wsimpl. auto.
Qed.

Lemma repeat_accumulate (g : GyrosData) (b : GyrosBiasData) (n : nat) :
  forall (w : World) (k : Z) (s : arr3),
  uavo_GyrosBias (pub w) = b ->
  accumulating_gyro (estimation w) = true ->
  accumulated_gyro_samples (estimation w) = k ->
  (0 <= k)%Z -> (k + Z.of_nat n < 2 ^ 32)%Z ->
  accumulated_gyro (estimation w) = s ->
  let w' := snd (repeat_m n (accumulate_gyro g) w) in
  accumulated_gyro (estimation w')
  = A3 (sum_of n (a0 s) (x g + x b)%F) (sum_of n (a1 s) (y g + y b)%F)
       (sum_of n (a2 s) (z g + z b)%F)
  /\ accumulated_gyro_samples (estimation w') = (k + Z.of_nat n)%Z
  /\ accumulating_gyro (estimation w') = true
  /\ pub w' = pub w /\ log w' = log w.
Proof.
  induction n as [|n IH]; intros w k s Hb Ha Hk Hk0 Hlt Hs.
  - cbn [repeat_m sum_of]. wsimpl. rewrite Hs, Hk, Ha.
    destruct s. repeat split; try reflexivity; lia.
  - cbn [repeat_m]. unfold bind. rewrite (accumulate_gyro_on g w Ha).
    set (w1 := set_glob _ w).
    assert (E1 : estimation w1 =
      mk_gyro_bias_estimation
        (A3 (a0 s + (x g + x b))%F (a1 s + (y g + y b))%F
            (a2 s + (z g + z b))%F)
        (wrap_u32 (k + 1)) true).
    { unfold w1, estimation. wsimpl. fold (estimation w).
      rewrite Hs, Hk, Hb. reflexivity. }
    assert (Hw : wrap_u32 (k + 1) = (k + 1)%Z).
    { unfold wrap_u32. apply Z.mod_small. lia. }
    destruct (IH w1 (k + 1)%Z
                (A3 (a0 s + (x g + x b))%F (a1 s + (y g + y b))%F
                    (a2 s + (z g + z b))%F))
      as (Ht & Hn & Hacc & Hpub & Hlog).
    + unfold w1. wsimpl. exact Hb.
    + rewrite E1. reflexivity.
    + rewrite E1. cbn. exact Hw.
    + lia.
    + lia.
    + rewrite E1. reflexivity.
    + rewrite Ht, Hn, Hacc, Hpub, Hlog. cbn [sum_of a0 a1 a2].
      repeat split; try reflexivity. lia.
Qed.

Local Open Scope float_scope.

(** ** Local tangent plane *)

Lemma delta_zero :
  exists d : Q, of_int (wrap_i32 0) / Fin 10.0e6 * DEG2RAD = Fin d /\ d == 0.
Proof. eexists. split; [vm_compute; reflexivity | reflexivity]. Qed.

(** ** The log and the parts of the state a phase leaves alone *)

Lemma adds_refl (P : Event -> Prop) (w : World) : adds P w w.
Proof. exists []. split; [reflexivity | constructor]. Qed.

Lemma adds_trans (P : Event -> Prop) (w1 w2 w3 : World) :
  adds P w1 w2 -> adds P w2 w3 -> adds P w1 w3.
Proof.
  intros (e1 & H1 & F1) (e2 & H2 & F2). exists (e2 ++ e1). split.
  - rewrite H2, H1, app_assoc. reflexivity.
  - apply Forall_app. split; assumption.
Qed.

Lemma adds_weaken (P Q : Event -> Prop) (w w' : World) :
  (forall e, P e -> Q e) -> adds P w w' -> adds Q w w'.
Proof.
  intros H (e & He & F). exists e. split; [exact He|].
  eapply Forall_impl; [exact H | exact F].
Qed.

Lemma steady_refl (w : World) : steady w w.
Proof. repeat split. Qed.

Lemma steady_trans (w1 w2 w3 : World) :
  steady w1 w2 -> steady w2 w3 -> steady w1 w3.
Proof.
  unfold steady. intros H1 H2.
  repeat match goal with H : _ /\ _ |- _ => destruct H end.
  repeat split; etransitivity; eassumption.
Qed.

Lemma ins_time_step_steady (ext : Externals) (w : World) :
  steady w (snd (ins_time_step w)) /\ log (snd (ins_time_step w)) = log w
  /\ glob (snd (ins_time_step w)) = glob w
  /\ pub (snd (ins_time_step w)) = pub w
  /\ Nav (snd (ins_time_step w)) = Nav w.
Proof.
  wdestruct w. unfold steady, ins_time_step. wcbv. phase.
Qed.

Lemma ins_bias_reload_effect (ext : Externals) (b : GyrosBiasData) (w : World) :
  let w' := snd (ins_bias_reload b w) in
  steady w w' /\ pub w' = pub w
  /\ gyroBiasSettingsUpdated (glob w') = false
  /\ log w' = (if gyroBiasSettingsUpdated (glob w)
               then [Lib (INSSetGyroBias (deg2rad3 b))] else []) ++ log w
  /\ (Nav w <> None -> Nav w' <> None).
Proof.
  wdestruct w. unfold steady, ins_bias_reload. wcbv.
  destruct gyroBiasSettingsUpdated0; wcbv; repeat split; try reflexivity.
  - destruct Nav0; wcbv; congruence.
  - auto.
Qed.

Lemma ins_predict_effect (ext : Externals) (g : GyrosData) (a : AccelsData)
    (b : GyrosBiasData) (dT : float) (w : World) :
  let w' := snd (ins_predict g a b dT w) in
  steady w w' /\ glob w' = glob w
  /\ uavo_GyrosBias (pub w') = uavo_GyrosBias (pub w)
  /\ (Nav w <> None -> Nav w' <> None)
  /\ adds (fun e => is_correction e = false /\ is_bias_publication e = false
                    /\ is_position_variance e = false) w w'.
Proof.
  wdestruct w. unfold steady, adds, ins_predict. wcbv.
  repeat split; try reflexivity.
  - destruct Nav0; wcbv; congruence.
  - new_events.
Qed.

Lemma ins_measurements_effect (ext : Externals) (outdoor : bool)
    (baro : BaroAltitude.Data) (gps : GPSPosition.Data)
    (gv : GPSVelocityData) (w : World) :
  let w' := snd (ins_measurements outdoor baro gps gv w) in
  steady w w' /\ glob w' = glob w
  /\ uavo_GyrosBias (pub w') = uavo_GyrosBias (pub w)
  /\ (Nav w <> None -> Nav w' <> None)
  /\ adds (fun e => is_correction e = false /\ is_bias_publication e = false
                    /\ (is_position_variance e = true ->
                        outdoor = false \/ gps_updated (ins w) = true)) w w'.
Proof.
  wdestruct w. unfold steady, adds, ins_measurements, getNED. wcbv.
  destruct gps_updated0, outdoor, gps_vel_updated0; wcbv;
    (repeat split; try reflexivity;
     [destruct Nav0; wcbv; congruence | new_events; auto; discriminate]).
Qed.

Lemma ins_correct_effect (ext : Externals) (mag : MagnetometerData)
    (baro : BaroAltitude.Data) (m : Measurements) (w : World) :
  let w' := snd (ins_correct mag baro m w) in
  steady w w' /\ glob w' = glob w /\ pub w' = pub w
  /\ (Nav w <> None -> Nav w' <> None)
  /\ adds (fun e => is_bias_publication e = false
                    /\ is_position_variance e = false) w w'.
Proof.
  wdestruct w. unfold steady, adds, ins_correct. wcbv.
  destruct (ms_sensors m =? 0)%Z; wcbv;
    (repeat split; try reflexivity;
     [destruct Nav0; wcbv; congruence | new_events]).
Qed.

Lemma ins_publish_effect (ext : Externals) (w : World) :
  let w' := snd (ins_publish w) in
  steady w w' /\ glob w' = glob w /\ Nav w' = Nav w
  /\ adds (fun e => is_correction e = false
                    /\ is_position_variance e = false) w w'
  /\ (forall nav, Nav w = Some nav ->
      if BiasCorrectGyro (attitudeSettings (glob w))
         && negb (gyroBiasSettingsUpdated (glob w))
      then uavo_GyrosBias (pub w') = rad2deg3 (gyro_bias nav)
           /\ exists evs, log w' = GyrosBiasSet_ev (rad2deg3 (gyro_bias nav)) :: evs
      else uavo_GyrosBias (pub w') = uavo_GyrosBias (pub w)
           /\ adds (fun e => is_bias_publication e = false) w w').
Proof.
  wdestruct w. unfold steady, adds, ins_publish, rad2deg3. wcbv.
  destruct attitudeSettings0 as [? ? ? ? ? ? bc]; wcbv.
  destruct bc, gyroBiasSettingsUpdated0; wcbv;
    repeat split; try reflexivity; try new_events;
    subst Nav0; wcbv; first [reflexivity | new_events | eexists; reflexivity].
Qed.

Lemma steady_glob (w w' : World) :
  steady w w' ->
  attitudeSettings (glob w') = attitudeSettings (glob w)
  /\ homeLocation (glob w') = homeLocation (glob w)
  /\ insSettings (glob w') = insSettings (glob w)
  /\ init_stage (glob w') = init_stage (glob w)
  /\ gyro_bias_estimation (glob w') = gyro_bias_estimation (glob w).
Proof.
  intros H. destruct H as (_ & _ & _ & _ & _ & _ & _ & _ & Hg & _).
  repeat split.
  - apply (f_equal attitudeSettings) in Hg. exact Hg.
  - apply (f_equal homeLocation) in Hg. exact Hg.
  - apply (f_equal insSettings) in Hg. exact Hg.
  - apply (f_equal init_stage) in Hg. exact Hg.
  - apply (f_equal gyro_bias_estimation) in Hg. exact Hg.
Qed.

Lemma steady_flags (w w' : World) :
  steady w w' ->
  mag_updated (ins w') = mag_updated (ins w)
  /\ baro_updated (ins w') = baro_updated (ins w)
  /\ gps_updated (ins w') = gps_updated (ins w)
  /\ gps_vel_updated (ins w') = gps_vel_updated (ins w)
  /\ inited (ins w') = inited (ins w).
Proof.
  intros H. destruct H as (_ & _ & _ & _ & _ & _ & _ & _ & _ & Hi).
  repeat split.
  - apply (f_equal mag_updated) in Hi. exact Hi.
  - apply (f_equal baro_updated) in Hi. exact Hi.
  - apply (f_equal gps_updated) in Hi. exact Hi.
  - apply (f_equal gps_vel_updated) in Hi. exact Hi.
  - apply (f_equal inited) in Hi. exact Hi.
Qed.

Lemma adds_log (P : Event -> Prop) (w w' : World) :
  log w' = log w -> adds P w w'.
Proof. intros H. exists []. split; [exact H | constructor]. Qed.

Section PredictCorrect.

Context {ext : Externals}.
Variables (outdoor : bool) (g : GyrosData) (a : AccelsData)
  (mag : MagnetometerData) (baro : BaroAltitude.Data)
  (gps : GPSPosition.Data) (gv : GPSVelocityData) (b : GyrosBiasData).

Lemma ins_predict_correct_effect (w : World) :
  Nav w <> None ->
  let r := ins_predict_correct outdoor g a mag baro gps gv b w in
  fst r = 0%Z /\ steady w (snd r)
  /\ gyroBiasSettingsUpdated (glob (snd r)) = false
  /\ adds (fun e => is_position_variance e = true ->
                    outdoor = false \/ gps_updated (ins w) = true) w (snd r)
  /\ (gyroBiasSettingsUpdated (glob w) = true ->
      exists evs, log (snd r) = evs ++ Lib (INSSetGyroBias (deg2rad3 b)) :: log w)
  /\ exists nav', Nav (snd r) = Some nav'
     /\ if BiasCorrectGyro (attitudeSettings (glob w))
        then uavo_GyrosBias (pub (snd r)) = rad2deg3 (gyro_bias nav')
             /\ exists evs, log (snd r) = GyrosBiasSet_ev (rad2deg3 (gyro_bias nav')) :: evs
        else uavo_GyrosBias (pub (snd r)) = uavo_GyrosBias (pub w)
             /\ adds (fun e => is_bias_publication e = false) w (snd r).
Proof.
  intros HN. unfold ins_predict_correct, bind, ret.
  pose proof (ins_time_step_steady ext w) as H1.
  destruct (ins_time_step w) as [dT w1]. cbn [fst snd] in H1.
  destruct H1 as (S1 & L1 & G1 & P1 & N1).
  pose proof (ins_bias_reload_effect ext b w1) as H2.
  destruct (ins_bias_reload b w1) as [? w2]. cbn [fst snd] in H2.
  destruct H2 as (S2 & P2 & F2 & L2 & N2).
  pose proof (ins_predict_effect ext g a b dT w2) as H3.
  destruct (ins_predict g a b dT w2) as [? w3]. cbn [fst snd] in H3.
  destruct H3 as (S3 & G3 & P3 & N3 & A3).
  pose proof (ins_measurements_effect ext outdoor baro gps gv w3) as H4.
  destruct (ins_measurements outdoor baro gps gv w3) as [m w4]. cbn [fst snd] in H4.
  destruct H4 as (S4 & G4 & P4 & N4 & A4).
  pose proof (ins_correct_effect ext mag baro m w4) as H5.
  destruct (ins_correct mag baro m w4) as [? w5]. cbn [fst snd] in H5.
  destruct H5 as (S5 & G5 & P5 & N5 & A5).
  pose proof (ins_publish_effect ext w5) as H6.
  destruct (ins_publish w5) as [? w6]. cbn [fst snd] in H6.
  destruct H6 as (S6 & G6 & N6 & A6 & B6).
  cbn [fst snd].
  assert (S03 : steady w w3) by (eapply steady_trans; [eapply steady_trans|]; eassumption).
  assert (S05 : steady w w5) by (eapply steady_trans; [eapply steady_trans|]; eassumption).
  assert (S06 : steady w w6) by (eapply steady_trans; eassumption).
  assert (A02 : adds (fun e => is_correction e = true -> False) w1 w1) by apply adds_refl.
  assert (F5 : gyroBiasSettingsUpdated (glob w5) = false) by (rewrite G5, G4, G3; exact F2).
  assert (E2 : exists evs, log w2 = evs ++ log w /\ Forall (fun e => is_bias_publication e = false /\ is_position_variance e = false) evs).
  { rewrite L2, L1. eexists. split; [reflexivity|].
    destruct (gyroBiasSettingsUpdated (glob w1)); repeat constructor. }
  assert (N5' : Nav w5 <> None) by (rewrite N1 in N2; auto).
  destruct (Nav w5) as [nav5|] eqn:E5; [|congruence].
  specialize (B6 nav5 eq_refl). rewrite F5, andb_true_r in B6.
  destruct (steady_glob S05) as (At5 & _).
  destruct (steady_flags S03) as (_ & _ & Gp3 & _).
  split; [reflexivity|]. split; [exact S06|].
  split; [rewrite G6; exact F5|].
  split; [|split].
  - eapply adds_trans; [|eapply adds_weaken; [|exact A6]; cbn; intros e (_ & He) Hc; congruence].
    eapply adds_trans; [|eapply adds_weaken; [|exact A5]; cbn; intros e (_ & He) Hc; congruence].
    eapply adds_trans; [|eapply adds_weaken; [|exact A4]; cbn; intros e (_ & _ & He) Hc; rewrite <- Gp3; auto].
    eapply adds_trans; [|eapply adds_weaken; [|exact A3]; cbn; intros e (_ & _ & He) Hc; congruence].
    destruct E2 as (evs & He & Hf). exists evs. split; [exact He|].
    eapply Forall_impl; [|exact Hf]. cbn. intros e (_ & He') Hc. congruence.
  - intros Hu. rewrite <- G1 in Hu. rewrite Hu in L2. cbn [app] in L2. rewrite L1 in L2.
    destruct A3 as (e3 & L3 & _), A4 as (e4 & L4 & _), A5 as (e5 & L5 & _), A6 as (e6 & L6 & _).
    exists (e6 ++ e5 ++ e4 ++ e3). rewrite L6, L5, L4, L3, L2.
    rewrite <- !app_assoc. reflexivity.
  - exists nav5. split; [rewrite N6; reflexivity|].
    rewrite At5 in B6.
    destruct (BiasCorrectGyro (attitudeSettings (glob w))).
    + exact B6.
    + destruct B6 as (Bp & Ba). split.
      * rewrite Bp, P5, P4, P3, P2, P1. reflexivity.
      * eapply adds_trans; [|exact Ba].
        eapply adds_trans; [|eapply adds_weaken; [|exact A5]; cbn; intros e (He & _); exact He].
        eapply adds_trans; [|eapply adds_weaken; [|exact A4]; cbn; intros e (_ & He & _); exact He].
        eapply adds_trans; [|eapply adds_weaken; [|exact A3]; cbn; intros e (_ & He & _); exact He].
        destruct E2 as (evs & He & Hf). exists evs. split; [exact He|].
        eapply Forall_impl; [|exact Hf]. cbn. intros e (He' & _). exact He'.
Qed.

End PredictCorrect.

Lemma wait_gyro_accel_effect (w : World) :
  let r := wait_gyro_accel w in
  fst r = (negb (delivers w gyroQueue && delivers w accelQueue)
           && negb (readonly w))
  /\ inp (snd r) = inp w /\ pub (snd r) = pub w /\ glob (snd r) = glob w
  /\ cf (snd r) = cf w /\ ins (snd r) = ins w /\ Nav (snd r) = Nav w
  /\ log (snd r) = log w /\ readonly (snd r) = readonly w
  /\ tick (snd r) = tick w /\ delay_raw (snd r) = delay_raw w
  /\ mag_registered (snd r) = mag_registered w
  /\ alarm (snd r) = (if fst r then SYSTEMALARMS_ALARM_WARNING else alarm w)
  /\ (forall k, k <> gyroQueue -> k <> accelQueue ->
      pending (snd r) k = pending w k).
Proof.
  wdestruct w. unfold wait_gyro_accel, delivers. wcbv.
  destruct (pend gyroQueue =? 0)%nat, (pend accelQueue =? 0)%nat, readonly0;
    wcbv; repeat split; try reflexivity;
    intros k; destruct k; wcbv; congruence.
Qed.

Lemma ins_entry_effect (ext : Externals) (outdoor : bool) (w : World) :
  let W := snd (ins_entry outdoor w) in
  let f (b : bool) := if inited (ins w) then false else b in
  inp W = inp w /\ pub W = pub w /\ glob W = glob w /\ cf W = cf w
  /\ Nav W = Nav w /\ log W = log w
  /\ tick W = tick w /\ delay_raw W = delay_raw w
  /\ inited (ins W) = inited (ins w)
  /\ ins_last_time (ins W) = ins_last_time (ins w)
  /\ baroOffset (ins W) = baroOffset (ins w)
  /\ mag_updated (ins W)
     = (f (mag_updated (ins w)) || delivers w magQueue)
       && mag_valid (uavo_Magnetometer (inp w))
       && Be_configured (homeLocation (glob w))
  /\ baro_updated (ins W) = (f (baro_updated (ins w)) || delivers w baroQueue)
  /\ gps_updated (ins W)
     = (f (gps_updated (ins w)) || delivers w gpsQueue && outdoor)
       && gps_usable (uavo_GPSPosition (inp w)) (homeLocation (glob w))
  /\ gps_vel_updated (ins W)
     = (f (gps_vel_updated (ins w)) || delivers w gpsVelQueue && outdoor)
  /\ alarm W
     = (if negb (inited (ins w)) then SYSTEMALARMS_ALARM_ERROR
        else if outdoor
                && (GPSPosition.Satellites (uavo_GPSPosition (inp w)) <? 7)%Z
        then SYSTEMALARMS_ALARM_ERROR else SYSTEMALARMS_ALARM_OK).
Proof.
  wdestruct w.
  unfold ins_entry, clear_updated, ins_poll, ins_screen, ins_alarm, delivers,
    mag_valid, Be_configured, gps_usable.
  wcbv. destruct inited0; wcbv.
  - destruct outdoor; wcbv; repeat (break_if; wcbv); repeat split; reflexivity.
  - repeat split; try reflexivity.
    all: repeat (break_if; wcbv); try reflexivity.
Qed.

Lemma ins_cycle_none (ext : Externals) (fr outdoor : bool) (w : World) :
  Nav w = None -> updateAttitudeINSGPS fr outdoor w = ((-1)%Z, w).
Proof.
  intros H. unfold updateAttitudeINSGPS, bind, gets. rewrite H. reflexivity.
Qed.

Lemma ins_cycle_abandoned (ext : Externals) (fr outdoor : bool) (w : World) :
  Nav w <> None -> fst (wait_gyro_accel w) = true ->
  updateAttitudeINSGPS fr outdoor w = ((-1)%Z, snd (wait_gyro_accel w)).
Proof.
  intros H Ha. unfold updateAttitudeINSGPS, bind, gets.
  destruct (Nav w); [|congruence].
  destruct (wait_gyro_accel w) as [ab w1]. cbn in Ha. subst ab. reflexivity.
Qed.

Lemma ins_cycle_first_run (ext : Externals) (outdoor : bool) (w : World) :
  Nav w <> None -> fst (wait_gyro_accel w) = false ->
  let w1 := snd (wait_gyro_accel w) in
  let r := updateAttitudeINSGPS true outdoor w in
  fst r = 0%Z
  /\ inited (ins (snd r)) = false /\ init_stage (glob (snd r)) = 0%Z
  /\ mag_updated (ins (snd r)) = false /\ baro_updated (ins (snd r)) = false
  /\ gps_updated (ins (snd r)) = false /\ gps_vel_updated (ins (snd r)) = false
  /\ ins_last_time (ins (snd r)) = delay_raw w
  /\ alarm (snd r) = alarm w /\ pub (snd r) = pub w /\ log (snd r) = log w
  /\ Nav (snd r) = Nav w /\ inp (snd r) = inp w.
Proof.
  intros H Ha w1.
  pose proof (wait_gyro_accel_effect w) as E. cbn zeta in E. rewrite Ha in E.
  fold w1 in E.
  destruct E as (_ & Ei & Ep & Eg & Ec & En & Ev & El & Er & Et & Ed & Em & Ea & _).
  unfold updateAttitudeINSGPS, bind, gets.
  destruct (Nav w); [|congruence].
  destruct (wait_gyro_accel w) as [ab w1'] eqn:E. cbn in Ha. subst ab.
  cbn in w1. subst w1.
  revert Ei Ep Eg Ec En Ev El Er Et Ed Em Ea. clear. 
  wdestruct w1'. intros. subst. unfold ins_first_run, clear_updated. wcbv.
  destruct inited0; wcbv; repeat split; congruence.
Qed.

Lemma ins_cycle_running (ext : Externals) (outdoor : bool) (w : World) :
  Nav w <> None -> fst (wait_gyro_accel w) = false ->
  let W := snd (ins_entry outdoor (snd (wait_gyro_accel w))) in
  updateAttitudeINSGPS false outdoor w =
  if negb (inited (ins W)) && mag_updated (ins W) && baro_updated (ins W)
     && (gps_updated (ins W) || negb outdoor)
  then ins_init_stage outdoor (uavo_Gyros (inp w)) (uavo_Accels (inp w))
         (uavo_BaroAltitude (inp w)) (uavo_GyrosBias (pub w)) W
  else if negb (inited (ins W)) then (0%Z, W)
  else ins_predict_correct outdoor (uavo_Gyros (inp w)) (uavo_Accels (inp w))
         (uavo_Magnetometer (inp w)) (uavo_BaroAltitude (inp w))
         (uavo_GPSPosition (inp w)) (uavo_GPSVelocity (inp w))
         (uavo_GyrosBias (pub w)) W.
Proof.
  intros H Ha.
  pose proof (wait_gyro_accel_effect w) as E. cbn zeta in E. rewrite Ha in E.
  destruct E as (_ & Ei & Ep & _).
  unfold updateAttitudeINSGPS, bind at 1, gets.
  destruct (Nav w); [|congruence].
  unfold bind at 1.
  destruct (wait_gyro_accel w) as [ab w1] eqn:E. cbn in Ha. subst ab.
  cbn [fst snd] in *. rewrite <- Ei, <- Ep. clear.
  wdestruct w1.
  unfold ins_entry, clear_updated, ins_poll, ins_screen, ins_alarm.
  wcbv.
  destruct inited0; wcbv.
  all: repeat lazymatch goal with
       | |- (if ?c then _ else _) _ = _ => destruct c
       | |- (let (_, _) := (if ?c then _ else _) _ in _) = _ => destruct c; wcbv
       end; try reflexivity.
Qed.

Lemma ins_init_stage_effect (ext : Externals) (outdoor : bool) (g : GyrosData)
    (a : AccelsData) (baro : BaroAltitude.Data) (b : GyrosBiasData) (w : World) :
  let r := ins_init_stage outdoor g a baro b w in
  fst r = 0%Z
  /\ init_stage (glob (snd r)) = wrap_i32 (init_stage (glob w) + 1)
  /\ inited (ins (snd r))
     = (inited (ins w) || (wrap_i32 (init_stage (glob w) + 1) >? 10)%Z)
  /\ mag_updated (ins (snd r)) = mag_updated (ins w)
  /\ baro_updated (ins (snd r)) = baro_updated (ins w)
  /\ gps_updated (ins (snd r)) = gps_updated (ins w)
  /\ gps_vel_updated (ins (snd r)) = gps_vel_updated (ins w)
  /\ alarm (snd r) = alarm w
  /\ uavo_GyrosBias (pub (snd r)) = uavo_GyrosBias (pub w)
  /\ gyroBiasSettingsUpdated (glob (snd r)) = gyroBiasSettingsUpdated (glob w)
  /\ adds is_quiet w (snd r)
  /\ ((0 < init_stage (glob w))%Z ->
      exists gyros dT att,
        log (snd r)
        = AttitudeActualSet_ev att
          :: Lib (INSStatePrediction gyros (A3 (x a) (y a) (z a)) dT) :: log w).
Proof.
  wdestruct w.
  unfold ins_init_stage, ins_stage0_indoor, ins_stage0_outdoor,
    ins_stage_predict, ins_reset, ins_seed, getNED, adds, is_quiet.
  wcbv.
  repeat (break_if; wcbv).
  all: repeat match goal with |- _ /\ _ => split end.
  all: try reflexivity.
  all: try new_events.
  all: intros Hpos;
    repeat match goal with
    | H : (_ =? _)%Z = true |- _ => apply Z.eqb_eq in H
    | H : (_ =? _)%Z = false |- _ => apply Z.eqb_neq in H
    | H : (_ >? _)%Z = false |- _ => rewrite Z.gtb_ltb in H; apply Z.ltb_ge in H
    end; try lia.
  all: do 3 eexists; reflexivity.
Qed.

(** ** The cycle of the navigation filter *)

Lemma adds_added (A : Type) (P : Event -> Prop) (m : M A) (w : World)
    (evs : list Event) :
  adds P w (snd (m w)) -> added m w evs -> Forall P evs.
Proof.
  intros (e' & H & F) Ha. unfold added in Ha. rewrite H in Ha.
  apply app_inv_tail in Ha. subst e'.
  apply Forall_forall. intros e He. rewrite Forall_forall in F.
  apply F. apply -> in_rev. exact He.
Qed.

Lemma ins_cycle_adds (ext : Externals) (fr outdoor : bool) (w : World) :
  adds (cycle_events fr outdoor w) w (snd (updateAttitudeINSGPS fr outdoor w)).
Proof.
  destruct (Nav w) eqn:HN.
  2: { rewrite ins_cycle_none by exact HN. apply adds_refl. }
  assert (HN' : Nav w <> None) by congruence.
  pose proof (wait_gyro_accel_effect w) as E. cbn zeta in E.
  destruct E as (_ & Ei & Ep & Eg & Ec & En & Ev & El & _).
  destruct (fst (wait_gyro_accel w)) eqn:Ha.
  { rewrite ins_cycle_abandoned by assumption. apply adds_log. exact El. }
  destruct fr.
  { pose proof (ins_cycle_first_run ext outdoor w HN' Ha) as F. cbn zeta in F.
    destruct F as (_ & _ & _ & _ & _ & _ & _ & _ & _ & _ & Fl & _).
    apply adds_log. exact Fl. }
  rewrite ins_cycle_running by assumption.
  pose proof (ins_entry_effect ext outdoor (snd (wait_gyro_accel w))) as W.
  cbn zeta in W.
  set (W0 := snd (ins_entry outdoor (snd (wait_gyro_accel w)))) in *.
  destruct W as (Wi & Wp & Wg & Wc & Wn & Wl & _ & _ & Winit & _ & _ & _ & _ & Wgps & _).
  assert (A0 : adds (cycle_events false outdoor w) w W0)
    by (apply adds_log; rewrite Wl; exact El).
  rewrite En in Winit.
  match goal with |- context [if ?c then _ else _] => destruct c end.
  - pose proof (ins_init_stage_effect ext outdoor (uavo_Gyros (inp w)) (uavo_Accels (inp w))
                  (uavo_BaroAltitude (inp w)) (uavo_GyrosBias (pub w)) W0) as S.
    cbn zeta in S. destruct S as (_ & _ & _ & _ & _ & _ & _ & _ & _ & _ & Sa & _).
    eapply adds_trans; [exact A0|]. eapply adds_weaken; [|exact Sa].
    intros e (H1 & H2 & H3). unfold cycle_events. repeat split; congruence.
  - destruct (inited (ins W0)) eqn:EI; cbn [negb].
    + assert (NW : Nav W0 <> None) by (rewrite Wn, Ev; exact HN').
      pose proof (ins_predict_correct_effect outdoor (uavo_Gyros (inp w)) (uavo_Accels (inp w))
         (uavo_Magnetometer (inp w)) (uavo_BaroAltitude (inp w)) (uavo_GPSPosition (inp w))
         (uavo_GPSVelocity (inp w)) (uavo_GyrosBias (pub w)) W0 NW) as S.
      cbn zeta in S. destruct S as (_ & _ & _ & Sa & _).
      eapply adds_trans; [exact A0|]. eapply adds_weaken; [|exact Sa].
      intros e He. unfold cycle_events. rewrite <- Winit.
      repeat split; auto.
      intros Hp. destruct (He Hp) as [Ho|Hg]; [left; exact Ho|right].
      rewrite Wgps in Hg. apply andb_true_iff in Hg. destruct Hg as (_ & Hg).
      rewrite Ei, Eg in Hg. exact Hg.
    + exact A0.
Qed.

Lemma gps_usable_true (gps : GPSPosition.Data) (h : HomeLocation.Data) :
  gps_usable gps h = true ->
  (7 <= GPSPosition.Satellites gps)%Z
  /\ (GPSPosition.PDOP gps <=? Fin 4.0) = true
  /\ HomeLocation.Set_ h = true.
Proof.
  unfold gps_usable. intros H.
  apply andb_true_iff in H. destruct H as (H & H3).
  apply andb_true_iff in H. destruct H as (H1 & H2).
  repeat split; try assumption. apply Z.geb_le. exact H1.
Qed.

Lemma delivers_after_wait (w : World) (k : queue) :
  k <> gyroQueue -> k <> accelQueue ->
  delivers (snd (wait_gyro_accel w)) k = delivers w k.
Proof.
  intros H1 H2. pose proof (wait_gyro_accel_effect w) as E. cbn zeta in E.
  unfold delivers. 
  destruct E as (_ & _ & _ & _ & _ & _ & _ & _ & _ & _ & _ & _ & _ & Ep).
  rewrite Ep by assumption. reflexivity.
Qed.

Lemma ins_cycle_transition (ext : Externals) (fr outdoor : bool) (w : World) :
  let r := updateAttitudeINSGPS fr outdoor w in
  match cycle_kind fr outdoor w with
  | Failed =>
      fst r = (-1)%Z /\ ins (snd r) = ins w /\ glob (snd r) = glob w
      /\ pub (snd r) = pub w /\ log (snd r) = log w /\ Nav (snd r) = Nav w
      /\ (Nav w <> None -> alarm (snd r) = SYSTEMALARMS_ALARM_WARNING)
      /\ (Nav w = None -> alarm (snd r) = alarm w)
  | Reset =>
      fst r = 0%Z /\ inited (ins (snd r)) = false
      /\ init_stage (glob (snd r)) = 0%Z
      /\ mag_updated (ins (snd r)) = false /\ baro_updated (ins (snd r)) = false
      /\ gps_updated (ins (snd r)) = false
      /\ gps_vel_updated (ins (snd r)) = false
      /\ alarm (snd r) = alarm w /\ pub (snd r) = pub w /\ log (snd r) = log w
  | Stage =>
      fst r = 0%Z
      /\ init_stage (glob (snd r)) = wrap_i32 (init_stage (glob w) + 1)
      /\ inited (ins (snd r)) = (wrap_i32 (init_stage (glob w) + 1) >? 10)%Z
      /\ alarm (snd r) = SYSTEMALARMS_ALARM_ERROR
      /\ ((0 < init_stage (glob w))%Z ->
          exists gyros dT att,
            log (snd r)
            = AttitudeActualSet_ev att
              :: Lib (INSStatePrediction gyros
                        (A3 (x (uavo_Accels (inp w))) (y (uavo_Accels (inp w)))
                            (z (uavo_Accels (inp w)))) dT)
              :: log w)
  | Idle =>
      fst r = 0%Z /\ inited (ins (snd r)) = false
      /\ init_stage (glob (snd r)) = init_stage (glob w)
      /\ baro_updated (ins (snd r))
         = (baro_updated (ins w) || delivers w baroQueue)
      /\ alarm (snd r) = SYSTEMALARMS_ALARM_ERROR
      /\ pub (snd r) = pub w /\ log (snd r) = log w
  | Running =>
      fst r = 0%Z /\ inited (ins (snd r)) = true
      /\ init_stage (glob (snd r)) = init_stage (glob w)
      /\ alarm (snd r)
         = (if outdoor
               && (GPSPosition.Satellites (uavo_GPSPosition (inp w)) <? 7)%Z
            then SYSTEMALARMS_ALARM_ERROR else SYSTEMALARMS_ALARM_OK)
  end.
Proof.
  unfold cycle_kind.
  destruct (Nav w) eqn:HN.
  2: { rewrite ins_cycle_none by exact HN. cbn. repeat split; congruence. }
  assert (HN' : Nav w <> None) by congruence.
  pose proof (wait_gyro_accel_effect w) as E. cbn zeta in E.
  destruct E as (Ef & Ei & Ep & Eg & Ec & En & Ev & El & _ & _ & _ & _ & Ea & _).
  rewrite <- Ef.
  destruct (fst (wait_gyro_accel w)) eqn:Ha.
  { rewrite ins_cycle_abandoned by assumption. cbn [fst snd].
    repeat split; try assumption; try reflexivity; try congruence. }
  destruct fr.
  { pose proof (ins_cycle_first_run ext outdoor w HN' Ha) as F. cbn zeta in F.
    destruct F as (F1 & F2 & F3 & F4 & F5 & F6 & F7 & _ & F8 & F9 & F10 & _).
    repeat split; assumption. }
  cbn zeta. rewrite ins_cycle_running by assumption.
  pose proof (ins_entry_effect ext outdoor (snd (wait_gyro_accel w))) as W.
  cbn zeta in W.
  set (W0 := snd (ins_entry outdoor (snd (wait_gyro_accel w)))) in *.
  destruct W as (Wi & Wp & Wg & Wc & Wn & Wl & _ & _ & Winit & _ & _ & Wmag & Wbaro & Wgps & _ & Wal).
  rewrite !delivers_after_wait in * by discriminate.
  rewrite ?En, ?Ei, ?Eg, ?Ep, ?El, ?Ev in *. rewrite Winit.
  destruct (inited (ins w)) eqn:EI; cbn [negb andb].
  - assert (NW : Nav W0 <> None) by (rewrite Wn; exact HN').
    pose proof (ins_predict_correct_effect outdoor (uavo_Gyros (inp w)) (uavo_Accels (inp w))
       (uavo_Magnetometer (inp w)) (uavo_BaroAltitude (inp w)) (uavo_GPSPosition (inp w))
       (uavo_GPSVelocity (inp w)) (uavo_GyrosBias (pub w)) W0 NW) as S.
    cbn zeta in S. destruct S as (S1 & S2 & _).
    destruct (steady_flags S2) as (_ & _ & _ & _ & Si).
    destruct (steady_glob S2) as (_ & _ & _ & Ss & _).
    destruct S2 as (_ & _ & _ & Sal & _).
    repeat split; try assumption.
    + rewrite Si, Winit. reflexivity.
    + rewrite Ss, Wg. reflexivity.
    + rewrite Sal, Wal. cbn [negb]. reflexivity.
  - replace (mag_updated (ins W0) && baro_updated (ins W0)
             && (gps_updated (ins W0) || negb outdoor))
      with (ins_ready outdoor w)
      by (unfold ins_ready; rewrite Wmag, Wbaro, Wgps; reflexivity).
    destruct (ins_ready outdoor w).
    + pose proof (ins_init_stage_effect ext outdoor (uavo_Gyros (inp w)) (uavo_Accels (inp w))
                  (uavo_BaroAltitude (inp w)) (uavo_GyrosBias (pub w)) W0) as S.
      cbn zeta in S.
      destruct S as (S1 & S2 & S3 & _ & _ & _ & _ & S4 & _ & _ & _ & S5).
      rewrite Wg in S2, S3, S5. rewrite Winit in S3. cbn [orb] in S3.
      rewrite Wl in S5. rewrite Wal in S4.
      repeat split; assumption.
    + cbn [fst snd]. repeat split; try assumption; try reflexivity.
      rewrite Wg. reflexivity.
Qed.

Lemma stalled_cycle (ext : Externals) (fr outdoor : bool) (w : World) :
  stalled w -> pending w baroQueue = 0%nat ->
  let r := updateAttitudeINSGPS fr outdoor w in
  stalled (snd r)
  /\ (fr = false -> fst r = 0%Z -> alarm (snd r) = SYSTEMALARMS_ALARM_ERROR).
Proof.
  intros (Hi & Hs & Hb) Hq.
  pose proof (ins_cycle_transition ext fr outdoor w) as Tr. cbn zeta in Tr.
  unfold cycle_kind in Tr.
  assert (Hr : ins_ready outdoor w = false).
  { unfold ins_ready, delivers. rewrite Hb, Hq. cbn.
    rewrite andb_false_r. reflexivity. }
  rewrite Hi, Hr in Tr. unfold stalled. cbn zeta.
  destruct (Nav w).
  - destruct (negb (delivers w gyroQueue && delivers w accelQueue) && negb (readonly w)).
    + destruct Tr as (T1 & T2 & T3 & _). rewrite T1, T2, T3.
      repeat split; try assumption. discriminate.
    + destruct fr.
      * destruct Tr as (T1 & T2 & T3 & _ & T5 & _).
        repeat split; try assumption. discriminate.
      * destruct Tr as (T1 & T2 & T3 & T4 & T5 & _).
        rewrite T2, T3, T4, Hb. unfold delivers. rewrite Hq.
        repeat split; try assumption; try reflexivity. intros _ _. exact T5.
  - destruct Tr as (T1 & T2 & T3 & _). rewrite T1, T2, T3.
    repeat split; try assumption. discriminate.
Qed.

Lemma stalled_run (ext : Externals) (outdoor : bool) (steps : list Step) :
  forall w0 : World,
  stalled w0 ->
  Forall (fun s => outside (fst s) /\ baro_silent (fst s)) steps ->
  stalled (ins_run outdoor steps w0).
Proof.
  induction steps as [|s steps IH]; intros w0 H0 HF; [exact H0|].
  inversion HF as [|? ? (Ho & Hb) HF']; subst.
  cbn [ins_run fold_left]. apply IH; [|exact HF'].
  unfold ins_step. apply stalled_cycle.
  - destruct H0 as (Hi & Hs & Hbu). destruct (Ho w0) as (E1 & E2).
    unfold stalled. rewrite E1, E2. auto.
  - apply Hb.
Qed.

Lemma wrap_i32_small (n : Z) : (0 <= n <= 11)%Z -> wrap_i32 n = n.
Proof.
  intros H. unfold wrap_i32.
  rewrite Z.mod_small; [lia|]. 
  change (2 ^ 31)%Z with 2147483648%Z. change (2 ^ 32)%Z with 4294967296%Z. lia.
Qed.

Lemma staged_cycle (ext : Externals) (fr outdoor : bool) (w : World) :
  staged w -> staged (snd (updateAttitudeINSGPS fr outdoor w)).
Proof.
  intros H.
  pose proof (ins_cycle_transition ext fr outdoor w) as Tr. cbn zeta in Tr.
  destruct (cycle_kind fr outdoor w) eqn:K.
  - destruct Tr as (_ & T2 & T3 & _). unfold staged. rewrite T2, T3. exact H.
  - destruct Tr as (_ & T2 & T3 & _). left. rewrite T2, T3. split; [reflexivity|lia].
  - destruct Tr as (_ & T2 & T3 & _).
    assert (Hi : inited (ins w) = false).
    { unfold cycle_kind in K. destruct (Nav w); [|discriminate].
      destruct (negb _ && negb _); [discriminate|]. destruct fr; [discriminate|].
      destruct (inited (ins w)); [discriminate|reflexivity]. }
    destruct H as [(_ & Hs)|(Ht & _)]; [|congruence].
    unfold staged. rewrite T2, T3, wrap_i32_small by lia.
    destruct (Z.eq_dec (init_stage (glob w)) 10) as [E|E].
    + right. rewrite E. split; reflexivity.
    + left. split; [|lia]. rewrite Z.gtb_ltb. apply Z.ltb_ge. lia.
  - destruct Tr as (_ & T2 & T3 & _). unfold staged. rewrite T2, T3.
    left. destruct H as [(_ & Hs)|(Ht & _)]; [auto|].
    unfold cycle_kind in K. destruct (Nav w); [|discriminate].
    destruct (negb _ && negb _); [discriminate|]. destruct fr; [discriminate|].
    rewrite Ht in K. discriminate.
  - destruct Tr as (_ & T2 & T3 & _). unfold staged. rewrite T2, T3.
    unfold cycle_kind in K. destruct (Nav w); [|discriminate].
    destruct (negb _ && negb _); [discriminate|]. destruct fr; [discriminate|].
    destruct (inited (ins w)) eqn:Hi.
    + destruct H as [(Hf & _)|(_ & Hs)]; [congruence|]. right. auto.
    + destruct (ins_ready outdoor w); discriminate.
Qed.

Lemma staged_run (ext : Externals) (outdoor : bool) (steps : list Step) :
  forall w0 : World,
  staged w0 -> Forall (fun s => outside (fst s)) steps ->
  staged (ins_run outdoor steps w0).
Proof.
  induction steps as [|s steps IH]; intros w0 H0 HF; [exact H0|].
  inversion HF as [|? ? Ho HF']; subst.
  cbn [ins_run fold_left]. apply IH; [|exact HF'].
  unfold ins_step. apply staged_cycle.
  destruct (Ho w0) as (E1 & E2). unfold staged. rewrite E1, E2. exact H0.
Qed.

Lemma cycle_kind_not_inited (fr outdoor : bool) (w : World) :
  cycle_kind fr outdoor w = Stage -> inited (ins w) = false.
Proof.
  unfold cycle_kind. destruct (Nav w); [|discriminate].
  destruct (negb _ && negb _); [discriminate|]. destruct fr; [discriminate|].
  destruct (inited (ins w)); [discriminate|reflexivity].
Qed.

Lemma added_exact (A : Type) (m : M A) (w : World) (evs new : list Event) :
  added m w evs -> log (snd (m w)) = new ++ log w -> evs = rev new.
Proof.
  unfold added. intros H1 H2. rewrite H2 in H1. apply app_inv_tail in H1.
  rewrite H1, rev_involutive. reflexivity.
Qed.

(** ** The complementary filter up to the magnetometer error *)

Lemma cf_kept_trans (w1 w2 w3 : World) :
  cf_kept w1 w2 -> cf_kept w2 w3 -> cf_kept w1 w3.
Proof.
  unfold cf_kept. intros H1 H2.
  repeat match goal with H : _ /\ _ |- _ => destruct H end.
  repeat split; etransitivity; eassumption.
Qed.

Lemma accumulate_gyro_zero_kept (w : World) :
  cf_kept w (snd (accumulate_gyro_zero w)).
Proof. wdestruct w. unfold cf_kept, accumulate_gyro_zero. wcbv. repeat split. Qed.

Lemma accumulate_gyro_compute_kept (w : World) :
  cf_kept w (snd (accumulate_gyro_compute w)).
Proof.
  wdestruct w. unfold cf_kept, accumulate_gyro_compute, accumulate_gyro_zero. wcbv.
  repeat (break_if; wcbv); repeat split.
Qed.

Lemma accumulate_gyro_kept (g : GyrosData) (w : World) :
  cf_kept w (snd (accumulate_gyro g w)).
Proof.
  wdestruct w. unfold cf_kept, accumulate_gyro. wcbv.
  repeat (break_if; wcbv); repeat split.
Qed.

Lemma cf_status_update_kept (w : World) :
  cf_kept w (snd (cf_status_update w)).
Proof.
  wdestruct w.
  unfold cf_kept, cf_status_update, accumulate_gyro_compute, accumulate_gyro_zero, is_arming.
  wcbv.
  repeat (break_if; wcbv); repeat split.
Qed.

Lemma cf_accel_err_kept (ext : Externals) (a : AccelsData) (q : arr4) (w : World) :
  cf_kept w (snd (cf_accel_err a q w)).
Proof.
  wdestruct w. unfold cf_kept, cf_accel_err, apply_accel_filter. wcbv.
  repeat (break_if; wcbv); repeat split.
Qed.

Lemma cf_mag_err_effect (ext : Externals) (q : arr4) (w : World) :
  mag_err (glob (snd (cf_mag_err q w)))
  = if delivers w magQueue then A3 (Fin 0) (Fin 0) (Fin 0)
    else if mag_valid (uavo_Magnetometer (inp w))
            && HomeLocation.Set_ (homeLocation (glob w))
    then mag_error q (uavo_Magnetometer (inp w))
           (HomeLocation.Be (homeLocation (glob w)))
    else mag_err (glob w).
Proof.
  wdestruct w. unfold cf_mag_err, delivers, mag_valid, mag_error. wcbv.
  repeat (break_if; wcbv); reflexivity.
Qed.

Lemma cf_integrate_mag_err (ext : Externals) (g : GyrosData) (e : arr3)
    (q : arr4) (dT : float) (w : World) :
  mag_err (glob (snd (cf_integrate g e q dT w))) = mag_err (glob w)
  /\ homeLocation (glob (snd (cf_integrate g e q dT w))) = homeLocation (glob w).
Proof.
  wdestruct w. unfold cf_integrate, cf_renormalize. wcbv.
  repeat (break_if; wcbv); split; reflexivity.
Qed.

Lemma cf_passthrough_mag_err (ext : Externals) (w : World) :
  mag_err (glob (snd (cf_passthrough w))) = mag_err (glob w).
Proof.
  wdestruct w. unfold cf_passthrough, getNED. wcbv.
  repeat (break_if; wcbv); reflexivity.
Qed.

(** ** The wait for gyro and accel *)

Lemma wait_gyro_accel_passes (w : World) :
  fst (wait_gyro_accel w) = false
  <-> delivers w gyroQueue && delivers w accelQueue || readonly w = true.
Proof.
  destruct (wait_gyro_accel_effect w) as (E & _). cbn zeta in E. rewrite E.
  destruct (delivers w gyroQueue), (delivers w accelQueue), (readonly w);
    cbn; intuition congruence.
Qed.

Lemma empty_queue_fails (w : World) :
  pending w gyroQueue = 0%nat \/ pending w accelQueue = 0%nat ->
  delivers w gyroQueue && delivers w accelQueue = false.
Proof.
  unfold delivers. intros [H|H]; rewrite H; cbn;
    [reflexivity | apply andb_false_r].
Qed.

(** ** The cycle of the initialized filter *)

Lemma getNED_depends_on_home (ext : Externals) (g : GPSPosition.Data)
    (w w' : World) :
  homeLocation (glob w') = homeLocation (glob w) -> T (glob w') = T (glob w) ->
  fst (getNED g w') = fst (getNED g w).
Proof.
  intros Hh Ht. unfold getNED, bind, getG, gets, ret. cbn [fst snd].
  rewrite Hh, Ht. reflexivity.
Qed.

Lemma steady_T (w w' : World) : steady w w' -> T (glob w') = T (glob w).
Proof.
  intros H. destruct H as (_ & _ & _ & _ & _ & _ & _ & _ & Hg & _).
  apply (f_equal T) in Hg. exact Hg.
Qed.

Lemma ins_time_step_baro (ext : Externals) (w : World) :
  baroOffset (ins (snd (ins_time_step w))) = baroOffset (ins w).
Proof. wdestruct w. unfold ins_time_step. wcbv. phase. Qed.

Lemma ins_bias_reload_baro (ext : Externals) (b : GyrosBiasData) (w : World) :
  baroOffset (ins (snd (ins_bias_reload b w))) = baroOffset (ins w).
Proof. wdestruct w. unfold ins_bias_reload. wcbv. phase. Qed.

Lemma ins_predict_baro (ext : Externals) (g : GyrosData) (a : AccelsData)
    (b : GyrosBiasData) (dT : float) (w : World) :
  baroOffset (ins (snd (ins_predict g a b dT w))) = baroOffset (ins w).
Proof. wdestruct w. unfold ins_predict. wcbv. phase. Qed.

Lemma ins_measurements_baro (ext : Externals) (outdoor : bool)
    (baro : BaroAltitude.Data) (gps : GPSPosition.Data)
    (gv : GPSVelocityData) (w : World) :
  baroOffset (ins (snd (ins_measurements outdoor baro gps gv w)))
  = if gps_updated (ins w) && outdoor then
      BARO_OFFSET_LOWPASS_ALPHA * baroOffset (ins w)
      + (Fin 1.0 - BARO_OFFSET_LOWPASS_ALPHA)
        * (- a2 (fst (getNED gps w)) - BaroAltitude.Altitude baro)
    else if negb outdoor then Fin 0
    else baroOffset (ins w).
Proof.
  wdestruct w. unfold ins_measurements, getNED. wcbv.
  destruct gps_updated0, outdoor, gps_vel_updated0; wcbv; reflexivity.
Qed.

Lemma ins_correct_baro (ext : Externals) (mag : MagnetometerData)
    (baro : BaroAltitude.Data) (m : Measurements) (w : World) :
  baroOffset (ins (snd (ins_correct mag baro m w))) = baroOffset (ins w).
Proof. wdestruct w. unfold ins_correct. wcbv. phase. Qed.

Lemma ins_publish_baro (ext : Externals) (w : World) :
  baroOffset (ins (snd (ins_publish w))) = baroOffset (ins w).
Proof. wdestruct w. unfold ins_publish. wcbv. phase. Qed.

Section PredictCorrectBaro.

Context {ext : Externals}.
Variables (outdoor : bool) (g : GyrosData) (a : AccelsData)
  (mag : MagnetometerData) (baro : BaroAltitude.Data)
  (gps : GPSPosition.Data) (gv : GPSVelocityData) (b : GyrosBiasData).

Lemma ins_predict_correct_baro (w : World) :
  baroOffset (ins (snd (ins_predict_correct outdoor g a mag baro gps gv b w)))
  = if gps_updated (ins w) && outdoor then
      BARO_OFFSET_LOWPASS_ALPHA * baroOffset (ins w)
      + (Fin 1.0 - BARO_OFFSET_LOWPASS_ALPHA)
        * (- a2 (fst (getNED gps w)) - BaroAltitude.Altitude baro)
    else if negb outdoor then Fin 0
    else baroOffset (ins w).
Proof.
  unfold ins_predict_correct, bind, ret.
  pose proof (ins_time_step_steady ext w) as H1.
  pose proof (ins_time_step_baro ext w) as B1.
  destruct (ins_time_step w) as [dT w1]. cbn [fst snd] in H1, B1.
  destruct H1 as (S1 & _).
  pose proof (ins_bias_reload_effect ext b w1) as H2.
  pose proof (ins_bias_reload_baro ext b w1) as B2.
  destruct (ins_bias_reload b w1) as [? w2]. cbn [fst snd] in H2, B2.
  destruct H2 as (S2 & _).
  pose proof (ins_predict_effect ext g a b dT w2) as H3.
  pose proof (ins_predict_baro ext g a b dT w2) as B3.
  destruct (ins_predict g a b dT w2) as [? w3]. cbn [fst snd] in H3, B3.
  destruct H3 as (S3 & _).
  pose proof (ins_measurements_baro ext outdoor baro gps gv w3) as B4.
  destruct (ins_measurements outdoor baro gps gv w3) as [m w4].
  cbn [fst snd] in B4.
  pose proof (ins_correct_baro ext mag baro m w4) as B5.
  destruct (ins_correct mag baro m w4) as [? w5]. cbn [fst snd] in B5.
  pose proof (ins_publish_baro ext w5) as B6.
  destruct (ins_publish w5) as [? w6]. cbn [fst snd] in B6.
  cbn [fst snd].
  assert (S03 : steady w w3)
    by (eapply steady_trans; [eapply steady_trans|]; eassumption).
  destruct (steady_flags S03) as (_ & _ & Gp & _).
  destruct (steady_glob S03) as (_ & Hh & _).
  rewrite B6, B5, B4, Gp, B3, B2, B1.
  rewrite (getNED_depends_on_home ext gps w w3 Hh (steady_T S03)).
  reflexivity.
Qed.

End PredictCorrectBaro.

(** The cycle of the initialized filter seen from the state it starts in:
    the state [W] the sensor bookkeeping leads to, and prediction and
    correction from there. *)
Lemma ins_running_cycle (ext : Externals) (outdoor : bool) (w : World) :
  Nav w <> None -> inited (ins w) = true ->
  fst (wait_gyro_accel w) = false ->
  exists W : World,
    updateAttitudeINSGPS false outdoor w
    = ins_predict_correct outdoor (uavo_Gyros (inp w)) (uavo_Accels (inp w))
        (uavo_Magnetometer (inp w)) (uavo_BaroAltitude (inp w))
        (uavo_GPSPosition (inp w)) (uavo_GPSVelocity (inp w))
        (uavo_GyrosBias (pub w)) W
    /\ Nav W <> None /\ glob W = glob w /\ inp W = inp w /\ pub W = pub w
    /\ log W = log w
    /\ baroOffset (ins W) = baroOffset (ins w)
    /\ mag_updated (ins W)
       = delivers w magQueue && mag_valid (uavo_Magnetometer (inp w))
         && Be_configured (homeLocation (glob w))
    /\ baro_updated (ins W) = delivers w baroQueue
    /\ gps_updated (ins W)
       = delivers w gpsQueue && outdoor
         && gps_usable (uavo_GPSPosition (inp w)) (homeLocation (glob w))
    /\ gps_vel_updated (ins W) = delivers w gpsVelQueue && outdoor.
Proof.
  intros HN Hi Hw.
  pose proof (wait_gyro_accel_effect w) as E. cbn zeta in E.
  destruct E as (_ & Ei & Ep & Eg & Ec & En & Ev & El & _).
  pose proof (ins_entry_effect ext outdoor (snd (wait_gyro_accel w))) as W.
  cbn zeta in W.
  exists (snd (ins_entry outdoor (snd (wait_gyro_accel w)))).
  rewrite ins_cycle_running by assumption.
  set (W0 := snd (ins_entry outdoor (snd (wait_gyro_accel w)))) in *.
  destruct W as (Wi & Wp & Wg & Wc & Wn & Wl & _ & _ & Winit & _ & Wb & Wmag
                 & Wbaro & Wgps & Wvel & _).
  rewrite !delivers_after_wait in * by discriminate.
  rewrite ?En, ?Ei, ?Eg, ?Ep, ?El, ?Ev in *.
  rewrite Hi in *. cbn [orb] in *.
  rewrite Winit. cbn [negb andb].
  repeat match goal with |- _ /\ _ => split end; try assumption.
  - reflexivity.
  - rewrite Wn. exact HN.
Qed.


(** ** The sensor mask *)

Lemma wrap_u16_land (z : Z) : wrap_u16 z = Z.land z (Z.ones 16).
Proof. unfold wrap_u16. rewrite Z.land_ones by lia. reflexivity. Qed.

Lemma wrap_u16_range (z : Z) : (0 <= wrap_u16 z < 2 ^ 16)%Z.
Proof. unfold wrap_u16. apply Z.mod_pos_bound. lia. Qed.

Lemma land_16_bits (p : Z) :
  (0 <= p < 2 ^ 16)%Z -> Z.land (Z.ones 16) p = p.
Proof.
  intros H. rewrite Z.land_comm, Z.land_ones by lia.
  apply Z.mod_small. exact H.
Qed.

(** The bits of a 16-bit mask [p] in [sensors | mask]. *)
Lemma set_bits_land (s m p : Z) :
  (0 <= p < 2 ^ 16)%Z ->
  Z.land (set_bits s m) p = Z.lor (Z.land s p) (Z.land m p).
Proof.
  intros Hp. unfold set_bits. rewrite wrap_u16_land.
  rewrite <- Z.land_assoc, (land_16_bits Hp).
  apply Z.land_lor_distr_l.
Qed.

Section Masks.

Context {ext : Externals}.

(** With masks that share no bit with [POS_SENSORS], the assembled mask
    has a bit of [POS_SENSORS] exactly when line 936 or line 967 ran. *)
Lemma sensors_of_position (outdoor mag baro gps vel : bool) :
  position_mask_apart ->
  takes_position (sensors_of outdoor mag baro gps vel)
  = (gps || negb outdoor).
Proof.
  intros (Hp & Hm & Hb & Hh & Hv).
  assert (Hp' : (0 <= POS_SENSORS < 2 ^ 16)%Z) by lia.
  assert (Hz : Z.land 0 POS_SENSORS = 0%Z) by apply Z.land_0_l.
  assert (Hd : Z.land POS_SENSORS POS_SENSORS = POS_SENSORS)
    by apply Z.land_diag.
  assert (Hn : (POS_SENSORS =? 0)%Z = false) by (apply Z.eqb_neq; lia).
  assert (Ho : forall u, (Z.lor u POS_SENSORS =? 0)%Z = false).
  { intros u. apply Z.eqb_neq. intros C. apply Z.lor_eq_0_iff in C. lia. }
  unfold takes_position, sensors_of.
  destruct outdoor, mag, baro, gps, vel; cbn [andb orb negb];
    rewrite ?(set_bits_land _ _ Hp'), ?Z.land_lor_distr_l,
      ?Hz, ?Hm, ?Hb, ?Hh, ?Hv, ?Hd, ?Z.lor_0_l, ?Z.lor_0_r, ?Ho, ?Hn;
    try reflexivity.
  all: rewrite ?Z.lor_assoc, ?Ho; try reflexivity.
  all: rewrite ?(Z.lor_comm POS_SENSORS), ?Z.lor_assoc, ?Ho; reflexivity.
Qed.

(** Indoors the mask is never zero, whatever the other masks are. *)
Lemma sensors_of_indoor (mag baro gps vel : bool) :
  (0 < POS_SENSORS < 2 ^ 16)%Z ->
  sensors_of false mag baro gps vel <> 0%Z.
Proof.
  intros Hp C.
  assert (Hp' : (0 <= POS_SENSORS < 2 ^ 16)%Z) by lia.
  apply (f_equal (fun s => Z.land s POS_SENSORS)) in C.
  rewrite Z.land_0_l in C. revert C.
  unfold sensors_of. rewrite !andb_false_r. cbn [negb].
  rewrite (set_bits_land _ _ Hp'), (Z.land_lor_distr_l POS_SENSORS),
    Z.land_diag.
  intros C. apply Z.lor_eq_0_iff in C. destruct C as (_ & C).
  apply Z.lor_eq_0_iff in C. lia.
Qed.

(** Outdoors, with no sensor on record, the mask is zero. *)
Lemma sensors_of_nothing : sensors_of true false false false false = 0%Z.
Proof. reflexivity. Qed.

End Masks.

(** ** What each phase of the running filter adds to the log *)

Lemma ins_time_step_clamped (ext : Externals) (w : World) :
  (Fin 0.001 <=? fst (ins_time_step w)) = true
  /\ (fst (ins_time_step w) <=? Fin 0.01) = true.
Proof.
  wdestruct w. unfold ins_time_step. wcbv.
  set (d := PIOS_DELAY_DiffuS ins_last_time0 delay_raw0).
  unfold of_int, fdiv.
  assert (Hd : Qeq_bool 1.0e6 0 = false) by reflexivity.
  rewrite Hd. unfold fgt, flt, fle, fcmp.
  destruct (Qle_bool (inject_Z d / 1.0e6) 0.01) eqn:E1; cbn [negb].
  - destruct (Qle_bool (inject_Z d / 1.0e6) 0.001) eqn:E2.
    + split; reflexivity.
    + split; [|exact E1]. apply Qle_bool_iff. apply Qlt_le_weak.
      apply Qnot_le_lt. intros H. apply Qle_bool_iff in H. congruence.
  - split; reflexivity.
Qed.

Lemma ins_bias_reload_plain (ext : Externals) (b : GyrosBiasData) (w : World) :
  adds plain w (snd (ins_bias_reload b w)).
Proof.
  wdestruct w. unfold adds, plain, ins_bias_reload. wcbv.
  destruct gyroBiasSettingsUpdated0; wcbv; new_events; auto.
Qed.

Lemma ins_predict_log (ext : Externals) (g : GyrosData) (a : AccelsData)
    (b : GyrosBiasData) (dT : float) (w : World) :
  exists (gyros : arr3) (att : AttitudeActualData),
    log (snd (ins_predict g a b dT w))
    = Lib (INSCovariancePrediction dT) :: AttitudeActualSet_ev att
      :: Lib (INSStatePrediction gyros (A3 (x a) (y a) (z a)) dT) :: log w.
Proof.
  wdestruct w. unfold ins_predict. wcbv. do 2 eexists. reflexivity.
Qed.

Lemma ins_measurements_result (ext : Externals) (outdoor : bool)
    (baro : BaroAltitude.Data) (gps : GPSPosition.Data)
    (gv : GPSVelocityData) (w : World) :
  fst (ins_measurements outdoor baro gps gv w)
  = mkMeasurements
      (sensors_of outdoor (mag_updated (ins w)) (baro_updated (ins w))
         (gps_updated (ins w)) (gps_vel_updated (ins w)))
      (position_of outdoor (gps_updated (ins w)) (fst (getNED gps w)) baro)
      (velocity_of outdoor (gps_updated (ins w)) (gps_vel_updated (ins w)) gv)
  /\ adds plain w (snd (ins_measurements outdoor baro gps gv w)).
Proof.
  wdestruct w.
  unfold adds, plain, ins_measurements, getNED, sensors_of, position_of,
    velocity_of.
  wcbv.
  destruct mag_updated0, baro_updated0, gps_updated0, outdoor, gps_vel_updated0;
    wcbv; (split; [reflexivity | new_events; auto]).
Qed.

Lemma ins_correct_log (ext : Externals) (mag : MagnetometerData)
    (baro : BaroAltitude.Data) (m : Measurements) (w : World) :
  log (snd (ins_correct mag baro m w))
  = (if (ms_sensors m =? 0)%Z then []
     else [Lib (INSCorrection (A3 (x mag) (y mag) (z mag)) (ms_NED m)
                  (ms_vel m) (BaroAltitude.Altitude baro + baroOffset (ins w))
                  (ms_sensors m))])
    ++ log w.
Proof.
  wdestruct w. unfold ins_correct. wcbv.
  destruct (ms_sensors m =? 0)%Z; wcbv; reflexivity.
Qed.

Lemma ins_publish_plain (ext : Externals) (w : World) :
  adds plain w (snd (ins_publish w)).
Proof.
  wdestruct w. unfold adds, plain, ins_publish. wcbv.
  repeat (break_if; wcbv); new_events; auto.
Qed.

Section PredictCorrectEvents.

Context {ext : Externals}.
Variables (outdoor : bool) (g : GyrosData) (a : AccelsData)
  (mag : MagnetometerData) (baro : BaroAltitude.Data)
  (gps : GPSPosition.Data) (gv : GPSVelocityData) (b : GyrosBiasData).

(** The log of prediction and correction, most recent first: the published
    objects, the correction if the mask is not zero, the variances, the two
    predictions around the attitude, and the bias reload. *)
Lemma ins_predict_correct_events (w : World) :
  let r := ins_predict_correct outdoor g a mag baro gps gv b w in
  let sensors :=
    sensors_of outdoor (mag_updated (ins w)) (baro_updated (ins w))
      (gps_updated (ins w)) (gps_vel_updated (ins w)) in
  exists (dT : float) (gyros : arr3) (att : AttitudeActualData)
         (evs1 evs2 evs3 : list Event),
    log (snd r)
    = evs3
      ++ (if (sensors =? 0)%Z then []
          else [Lib (INSCorrection (A3 (x mag) (y mag) (z mag))
                       (position_of outdoor (gps_updated (ins w))
                          (fst (getNED gps w)) baro)
                       (velocity_of outdoor (gps_updated (ins w))
                          (gps_vel_updated (ins w)) gv)
                       (BaroAltitude.Altitude baro + baroOffset (ins (snd r)))
                       sensors)])
      ++ evs2
      ++ [Lib (INSCovariancePrediction dT); AttitudeActualSet_ev att;
          Lib (INSStatePrediction gyros (A3 (x a) (y a) (z a)) dT)]
      ++ evs1 ++ log w
    /\ (Fin 0.001 <=? dT) = true /\ (dT <=? Fin 0.01) = true
    /\ Forall plain evs1 /\ Forall plain evs2 /\ Forall plain evs3.
Proof.
  unfold ins_predict_correct, bind, ret.
  pose proof (ins_time_step_steady ext w) as H1.
  pose proof (ins_time_step_clamped ext w) as C1.
  destruct (ins_time_step w) as [dT w1]. cbn [fst snd] in H1, C1.
  destruct H1 as (S1 & L1 & _). destruct C1 as (C1 & C2).
  pose proof (ins_bias_reload_effect ext b w1) as H2.
  pose proof (ins_bias_reload_plain ext b w1) as A2.
  destruct (ins_bias_reload b w1) as [? w2]. cbn [fst snd] in H2, A2.
  destruct H2 as (S2 & _).
  pose proof (ins_predict_effect ext g a b dT w2) as H3.
  pose proof (ins_predict_log ext g a b dT w2) as L3.
  destruct (ins_predict g a b dT w2) as [? w3]. cbn [fst snd] in H3, L3.
  destruct H3 as (S3 & _). destruct L3 as (gyros & att & L3).
  pose proof (ins_measurements_result ext outdoor baro gps gv w3) as R4.
  destruct (ins_measurements outdoor baro gps gv w3) as [m w4].
  cbn [fst snd] in R4. destruct R4 as (R4 & A4).
  pose proof (ins_correct_log ext mag baro m w4) as L5.
  pose proof (ins_correct_baro ext mag baro m w4) as B5.
  destruct (ins_correct mag baro m w4) as [? w5]. cbn [fst snd] in L5, B5.
  pose proof (ins_publish_plain ext w5) as A6.
  pose proof (ins_publish_baro ext w5) as B6.
  destruct (ins_publish w5) as [? w6]. cbn [fst snd] in A6, B6.
  cbn [fst snd].
  assert (S03 : steady w w3)
    by (eapply steady_trans; [eapply steady_trans|]; eassumption).
  destruct (steady_flags S03) as (F1 & F2 & F3 & F4 & _).
  destruct (steady_glob S03) as (_ & Hh & _).
  rewrite F1, F2, F3, F4 in R4.
  rewrite (getNED_depends_on_home ext gps w w3 Hh (steady_T S03)) in R4.
  subst m. cbn [ms_sensors ms_NED ms_vel] in L5.
  destruct A2 as (e1 & E1 & P1), A4 as (e2 & E2 & P2), A6 as (e3 & E3 & P3).
  exists dT, gyros, att, e1, e2, e3.
  split; [|repeat split; assumption].
  rewrite E3, L5, E2, L3, E1, L1, B6, B5. reflexivity.
Qed.

End PredictCorrectEvents.

(** The events of a cycle of the initialized filter, oldest first. *)
Lemma ins_running_events (ext : Externals) (outdoor : bool) (w : World)
    (evs : list Event) :
  Nav w <> None -> inited (ins w) = true ->
  fst (wait_gyro_accel w) = false ->
  added (updateAttitudeINSGPS false outdoor) w evs ->
  let r := updateAttitudeINSGPS false outdoor w in
  let baroAlt :=
    BaroAltitude.Altitude (uavo_BaroAltitude (inp w))
    + baroOffset (ins (snd r)) in
  exists (dT : float) (gyros accels : arr3)
         (att : AttitudeActualData) (evs1 evs2 evs3 : list Event),
    evs = evs1
          ++ [Lib (INSStatePrediction gyros accels dT);
              AttitudeActualSet_ev att; Lib (INSCovariancePrediction dT)]
          ++ evs2
          ++ (if (cycle_sensors outdoor w =? 0)%Z then []
              else [Lib (INSCorrection
                           (A3 (x (uavo_Magnetometer (inp w)))
                               (y (uavo_Magnetometer (inp w)))
                               (z (uavo_Magnetometer (inp w))))
                           (cycle_position outdoor w)
                           (cycle_velocity outdoor w) baroAlt
                           (cycle_sensors outdoor w))])
          ++ evs3
    /\ (Fin 0.001 <=? dT) = true /\ (dT <=? Fin 0.01) = true
    /\ Forall plain evs1 /\ Forall plain evs2 /\ Forall plain evs3.
Proof.
  intros HN Hi Hw Ha.
  destruct (ins_running_cycle ext outdoor w HN Hi Hw)
    as (W & E & NW & Wg & Wi & _ & Wl & _ & Wm & Wb & Wgps & Wv).
  unfold added in Ha. rewrite E in Ha. cbn zeta. rewrite E.
  destruct (ins_predict_correct_events outdoor (uavo_Gyros (inp w))
              (uavo_Accels (inp w)) (uavo_Magnetometer (inp w))
              (uavo_BaroAltitude (inp w)) (uavo_GPSPosition (inp w))
              (uavo_GPSVelocity (inp w)) (uavo_GyrosBias (pub w)) W)
    as (dT & gyros & att & e1 & e2 & e3 & L & C1 & C2 & P1 & P2 & P3).
  rewrite Wm, Wb, Wgps, Wv in L.
  rewrite (getNED_depends_on_home ext (uavo_GPSPosition (inp w)) w W) in L
    by (rewrite Wg; reflexivity).
  fold (mag_fresh w) (gps_fresh outdoor w) (vel_fresh outdoor w) in L.
  fold (cycle_sensors outdoor w) (cycle_position outdoor w)
    (cycle_velocity outdoor w) in L.
  rewrite L, Wl in Ha.
  exists dT, gyros, (A3 (x (uavo_Accels (inp w))) (y (uavo_Accels (inp w)))
                    (z (uavo_Accels (inp w)))), att,
    (rev e1), (rev e2), (rev e3).
  split; [|repeat split; try assumption; apply Forall_rev; assumption].
  rewrite !app_assoc in Ha. apply app_inv_tail in Ha.
  apply (f_equal (@rev Event)) in Ha. rewrite rev_involutive in Ha.
  rewrite <- Ha. rewrite !rev_app_distr. cbn [rev app].
  destruct (cycle_sensors outdoor w =? 0)%Z; cbn [rev app];
    rewrite <- ?app_assoc; reflexivity.
Qed.

Lemma plain_no_correction (l : list Event) :
  Forall plain l -> existsb is_correction l = false.
Proof.
  induction 1 as [|e l (He & _) _ IH]; [reflexivity|].
  cbn [existsb]. rewrite He, IH. reflexivity.
Qed.

(** A correction is called in a cycle of the initialized filter exactly
    when the mask of the cycle is not zero. *)
Lemma ins_running_correction (ext : Externals) (outdoor : bool) (w : World)
    (evs : list Event) :
  Nav w <> None -> inited (ins w) = true ->
  fst (wait_gyro_accel w) = false ->
  added (updateAttitudeINSGPS false outdoor) w evs ->
  existsb is_correction evs = negb (cycle_sensors outdoor w =? 0)%Z.
Proof.
  intros HN Hi Hw Ha.
  destruct (@ins_running_events ext outdoor w evs HN Hi Hw Ha)
    as (dT & gyros & accels & att & e1 & e2 & e3 & E & _ & _
        & P1 & P2 & P3).
  rewrite E, !existsb_app.
  rewrite (plain_no_correction P1), (plain_no_correction P2),
    (plain_no_correction P3).
  destruct (cycle_sensors outdoor w =? 0)%Z; reflexivity.
Qed.

(** Only a cycle of the initialized filter that is not a first run calls
    the correction. *)
Lemma ins_cycle_corrections (ext : Externals) (fr outdoor : bool) (w : World)
    (evs : list Event) :
  added (updateAttitudeINSGPS fr outdoor) w evs ->
  Forall (fun e => is_correction e = false) evs
  \/ (fr = false /\ Nav w <> None /\ inited (ins w) = true
      /\ fst (wait_gyro_accel w) = false).
Proof.
  intros Ha.
  pose proof (adds_added (ins_cycle_adds ext fr outdoor w) Ha) as F.
  assert (Hnone : log (snd (updateAttitudeINSGPS fr outdoor w)) = log w ->
                  Forall (fun e => is_correction e = false) evs).
  { intros Hl. rewrite (added_exact [] Ha Hl). constructor. }
  destruct (Nav w) eqn:HN.
  2: { left. apply Hnone. rewrite ins_cycle_none by exact HN. reflexivity. }
  assert (HN' : Nav w <> None) by congruence.
  destruct (fst (wait_gyro_accel w)) eqn:Hw.
  { left. apply Hnone. rewrite ins_cycle_abandoned by assumption.
    destruct (wait_gyro_accel_effect w) as (_ & _ & _ & _ & _ & _ & _ & El & _).
    exact El. }
  destruct fr, (inited (ins w)) eqn:Hi; [left| left| right; repeat split; congruence |left].
  all: eapply Forall_impl; [|exact F]; intros e (_ & Hc & _);
    destruct (is_correction e); [|reflexivity];
    destruct (Hc eq_refl); congruence.
Qed.

(** ** Settings updates arriving during the cycle *)

Lemma arrival_effect (ext : Externals) (b : bool) (w : World) :
  let w' := snd (arrival b w) in
  steady w w' /\ Nav w' = Nav w
  /\ gyroBiasSettingsUpdated (glob w') = gyroBiasSettingsUpdated (glob w) || b
  /\ uavo_GyrosBias (pub w')
     = (if b then configured_bias (inp w) else uavo_GyrosBias (pub w))
  /\ adds (fun e => is_correction e = false /\ bias_from_settings (inp w) e)
       w w'.
Proof.
  wdestruct w.
  unfold steady, adds, arrival, settingsUpdatedCb, bias_from_settings,
    configured_bias.
  destruct b; wcbv; repeat split; try reflexivity;
    try (destruct gyroBiasSettingsUpdated0; reflexivity);
    new_events; auto.
Qed.

Lemma during_quiet (ext : Externals) (fr outdoor : bool) (w : World) :
  updateAttitudeINSGPS_during quiet fr outdoor w
  = updateAttitudeINSGPS fr outdoor w.
Proof. reflexivity. Qed.

Lemma arrived_quiet (c : Arrivals) : arrived c = false -> c = quiet.
Proof.
  destruct c as [[] [] [] []]; cbn; intros H; try discriminate. reflexivity.
Qed.

Lemma ins_cycle_running_during (ext : Externals) (c : Arrivals)
    (outdoor : bool) (w : World) :
  Nav w <> None -> fst (wait_gyro_accel w) = false ->
  let W := snd (ins_entry outdoor (snd (wait_gyro_accel w))) in
  updateAttitudeINSGPS_during c false outdoor w =
  if negb (inited (ins W)) && mag_updated (ins W) && baro_updated (ins W)
     && (gps_updated (ins W) || negb outdoor)
  then ins_init_stage outdoor (uavo_Gyros (inp w)) (uavo_Accels (inp w))
         (uavo_BaroAltitude (inp w)) (uavo_GyrosBias (pub w)) W
  else if negb (inited (ins W)) then (0%Z, W)
  else ins_predict_correct_during c outdoor (uavo_Gyros (inp w))
         (uavo_Accels (inp w)) (uavo_Magnetometer (inp w))
         (uavo_BaroAltitude (inp w)) (uavo_GPSPosition (inp w))
         (uavo_GPSVelocity (inp w)) (uavo_GyrosBias (pub w)) W.
Proof.
  intros H Ha.
  pose proof (wait_gyro_accel_effect w) as E. cbn zeta in E. rewrite Ha in E.
  destruct E as (_ & Ei & Ep & _).
  unfold updateAttitudeINSGPS_during, bind at 1, gets.
  destruct (Nav w); [|congruence].
  unfold bind at 1.
  destruct (wait_gyro_accel w) as [ab w1] eqn:E. cbn in Ha. subst ab.
  cbn [fst snd] in *. rewrite <- Ei, <- Ep. clear.
  wdestruct w1.
  unfold ins_entry, clear_updated, ins_poll, ins_screen, ins_alarm.
  wcbv.
  destruct inited0; wcbv.
  all: repeat lazymatch goal with
       | |- (if ?c then _ else _) _ = _ => destruct c
       | |- (let (_, _) := (if ?c then _ else _) _ in _) = _ => destruct c; wcbv
       end; try reflexivity.
Qed.

Section PredictCorrectDuring.

Context {ext : Externals}.
Variables (c : Arrivals) (outdoor : bool) (g : GyrosData) (a : AccelsData)
  (mag : MagnetometerData) (baro : BaroAltitude.Data)
  (gps : GPSPosition.Data) (gv : GPSVelocityData) (b : GyrosBiasData).

(** Prediction and correction with updates of the inertial sensor settings
    arriving: the flag the cycle leaves says whether one arrived, and when
    one did, the gyro bias the cycle leaves published is the configured
    one, the only value the gyro bias object is written with. *)
Lemma ins_predict_correct_during_effect (w : World) :
  Nav w <> None ->
  let r := ins_predict_correct_during c outdoor g a mag baro gps gv b w in
  fst r = 0%Z
  /\ gyroBiasSettingsUpdated (glob (snd r)) = arrived c
  /\ (gyroBiasSettingsUpdated (glob w) = true ->
      exists evs,
        log (snd r) = evs ++ Lib (INSSetGyroBias (deg2rad3 b)) :: log w)
  /\ (arrived c = true ->
      uavo_GyrosBias (pub (snd r)) = configured_bias (inp w)
      /\ adds (bias_from_settings (inp w)) w (snd r)).
Proof.
  intros HN. unfold ins_predict_correct_during, bind, ret.
  pose proof (ins_time_step_steady ext w) as H1.
  destruct (ins_time_step w) as [dT w1]. cbn [fst snd] in H1.
  destruct H1 as (S1 & L1 & G1 & P1 & N1).
  pose proof (ins_bias_reload_effect ext b w1) as H2.
  destruct (ins_bias_reload b w1) as [? w2]. cbn [fst snd] in H2.
  destruct H2 as (S2 & P2 & F2 & L2 & N2).
  pose proof (arrival_effect ext (after_reload c) w2) as A2.
  destruct (arrival (after_reload c) w2) as [? v2]. cbn [fst snd] in A2.
  destruct A2 as (T2 & M2 & K2 & B2 & D2).
  pose proof (ins_predict_effect ext g a b dT v2) as H3.
  destruct (ins_predict g a b dT v2) as [? w3]. cbn [fst snd] in H3.
  destruct H3 as (S3 & G3 & P3 & N3 & A3).
  pose proof (arrival_effect ext (after_predict c) w3) as A3'.
  destruct (arrival (after_predict c) w3) as [? v3]. cbn [fst snd] in A3'.
  destruct A3' as (T3 & M3 & K3 & B3 & D3).
  pose proof (ins_measurements_effect ext outdoor baro gps gv v3) as H4.
  destruct (ins_measurements outdoor baro gps gv v3) as [m w4].
  cbn [fst snd] in H4. destruct H4 as (S4 & G4 & P4 & N4 & A4).
  pose proof (arrival_effect ext (after_measurements c) w4) as A4'.
  destruct (arrival (after_measurements c) w4) as [? v4].
  cbn [fst snd] in A4'. destruct A4' as (T4 & M4 & K4 & B4 & D4).
  pose proof (ins_correct_effect ext mag baro m v4) as H5.
  destruct (ins_correct mag baro m v4) as [? w5]. cbn [fst snd] in H5.
  destruct H5 as (S5 & G5 & P5 & N5 & A5).
  pose proof (arrival_effect ext (after_correct c) w5) as A5'.
  destruct (arrival (after_correct c) w5) as [? v5]. cbn [fst snd] in A5'.
  destruct A5' as (T5 & M5 & K5 & B5 & D5).
  pose proof (ins_publish_effect ext v5) as H6.
  destruct (ins_publish v5) as [? w6]. cbn [fst snd] in H6.
  destruct H6 as (S6 & G6 & N6 & A6 & B6).
  cbn [fst snd].
  (* the inputs are those of the start all along *)
  assert (I2 : inp w2 = inp w).
  { destruct S1 as (_ & I1 & _), S2 as (_ & I2 & _). congruence. }
  assert (I3 : inp w3 = inp w).
  { destruct T2 as (_ & J2 & _), S3 as (_ & J3 & _). congruence. }
  assert (I4 : inp w4 = inp w).
  { destruct T3 as (_ & J3 & _), S4 as (_ & J4 & _). congruence. }
  assert (I5 : inp w5 = inp w).
  { destruct T4 as (_ & J4 & _), S5 as (_ & J5 & _). congruence. }
  rewrite I2 in B2, D2. rewrite I3 in B3, D3. rewrite I4 in B4, D4.
  rewrite I5 in B5, D5.
  (* the flag *)
  assert (F5 : gyroBiasSettingsUpdated (glob v5) = arrived c).
  { rewrite K5, G5, K4, G4, K3, G3, K2, F2. unfold arrived. reflexivity. }
  (* the navigation solution is there *)
  assert (NV : Nav v5 <> None).
  { rewrite M5. apply N5. rewrite M4. apply N4. rewrite M3. apply N3.
    rewrite M2. apply N2. rewrite N1. exact HN. }
  split; [reflexivity|]. split; [rewrite G6; exact F5|]. split.
  - intros Hu. rewrite <- G1 in Hu. rewrite Hu in L2. cbn [app] in L2.
    rewrite L1 in L2.
    destruct D2 as (d2 & E2 & _), A3 as (e3 & E3 & _), D3 as (d3 & E3' & _),
      A4 as (e4 & E4 & _), D4 as (d4 & E4' & _), A5 as (e5 & E5 & _),
      D5 as (d5 & E5' & _), A6 as (e6 & E6 & _).
    exists (e6 ++ d5 ++ e5 ++ d4 ++ e4 ++ d3 ++ e3 ++ d2).
    rewrite E6, E5', E5, E4', E4, E3', E3, E2, L2.
    rewrite <- !app_assoc. reflexivity.
  - intros Harr.
    destruct (Nav v5) as [nav5|] eqn:E5; [|congruence].
    specialize (B6 nav5 eq_refl). rewrite F5, Harr, andb_false_r in B6.
    destruct B6 as (Bp & Ba).
    (* the invariant: a pending update means the configured bias is
       published *)
    assert (Q2 : gyroBiasSettingsUpdated (glob v2) = true ->
                 uavo_GyrosBias (pub v2) = configured_bias (inp w)).
    { rewrite K2, F2, B2. destruct (after_reload c); [reflexivity|discriminate]. }
    assert (Q3 : gyroBiasSettingsUpdated (glob v3) = true ->
                 uavo_GyrosBias (pub v3) = configured_bias (inp w)).
    { rewrite K3, G3, B3, P3.
      destruct (after_predict c); [reflexivity|]. rewrite orb_false_r. exact Q2. }
    assert (Q4 : gyroBiasSettingsUpdated (glob v4) = true ->
                 uavo_GyrosBias (pub v4) = configured_bias (inp w)).
    { rewrite K4, G4, B4, P4.
      destruct (after_measurements c); [reflexivity|]. rewrite orb_false_r.
      exact Q3. }
    assert (Q5 : gyroBiasSettingsUpdated (glob v5) = true ->
                 uavo_GyrosBias (pub v5) = configured_bias (inp w)).
    { rewrite K5, G5, B5, P5.
      destruct (after_correct c); [reflexivity|]. rewrite orb_false_r. exact Q4. }
    split; [rewrite Bp; apply Q5; rewrite F5; exact Harr|].
    assert (W1 : forall (P : Event -> Prop) s t,
               adds (fun e => is_correction e = false /\ P e) s t ->
               adds P s t).
    { intros P s t H. eapply adds_weaken; [|exact H]. cbn. tauto. }
    assert (W2 : forall s t,
               adds (fun e => is_bias_publication e = false) s t ->
               adds (bias_from_settings (inp w)) s t).
    { intros s t H. eapply adds_weaken; [|exact H].
      unfold bias_from_settings. cbn. intros e He C. congruence. }
    eapply adds_trans; [|apply W2; exact Ba].
    eapply adds_trans; [|apply W1; exact D5].
    eapply adds_trans;
      [|apply W2; eapply adds_weaken; [|exact A5]; cbn; tauto].
    eapply adds_trans; [|apply W1; exact D4].
    eapply adds_trans;
      [|apply W2; eapply adds_weaken; [|exact A4]; cbn; tauto].
    eapply adds_trans; [|apply W1; exact D3].
    eapply adds_trans;
      [|apply W2; eapply adds_weaken; [|exact A3]; cbn; tauto].
    eapply adds_trans; [|apply W1; exact D2].
    exists (if gyroBiasSettingsUpdated (glob w1)
            then [Lib (INSSetGyroBias (deg2rad3 b))] else []).
    split; [rewrite L2, L1; reflexivity|].
    destruct (gyroBiasSettingsUpdated (glob w1)); repeat constructor.
    unfold bias_from_settings. cbn. discriminate.
Qed.

End PredictCorrectDuring.

(* ------------------------------------------------------------------------- *)
(** * The properties the specification states *)

(** ** The sample states *)

Lemma deliver_outside : outside Sample.deliver.
Proof. intros w. split; reflexivity. Qed.

Lemma deliver_but_outside (k : queue) : outside (Sample.deliver_but k).
Proof. intros w. split; reflexivity. Qed.

Lemma deliver_but_baro_silent : baro_silent (Sample.deliver_but baroQueue).
Proof. intros w. reflexivity. Qed.

(** ** Complementary filter *)

(** C2 (as the code has it): in a cycle of the complementary filter that is
    not a first run and is not given up at the gyro wait, the magnetometer
    error is set to zero when the magnetometer queue delivers a fresh
    sample; when it delivers none, the error is computed from the stored
    sample, provided that sample has no NaN and the home location is set,
    as the cross product of the normalized sample and the normalized home
    field rotated into the body frame (zero when either norm is below 1);
    otherwise the error of the previous cycle is kept. *)
Theorem cf_mag_error_of_cycle (ext : Externals) (w : World) :
  fst (wait_gyro_accel w) = false ->
  let w' := snd (updateAttitudeComplementary false w) in
  let a := uavo_AttitudeActual (pub w) in
  mag_err (glob w')
  = if delivers w magQueue then A3 (Fin 0) (Fin 0) (Fin 0)
    else if mag_valid (uavo_Magnetometer (inp w))
            && HomeLocation.Set_ (homeLocation (glob w))
    then mag_error (A4 (q1 a) (q2 a) (q3 a) (q4 a))
           (uavo_Magnetometer (inp w))
           (HomeLocation.Be (homeLocation (glob w)))
    else mag_err (glob w).
Proof.
  intros Hw.
  pose proof (wait_gyro_accel_effect w) as E. cbn zeta in E.
  destruct E as (_ & Ei & Ep & Eg & _).
  pose proof (delivers_after_wait w (k:=magQueue)) as Ed.
  unfold updateAttitudeComplementary, bind at 1.
  destruct (wait_gyro_accel w) as [ab w1]. cbn [fst snd] in *. subst ab.
  specialize (Ed ltac:(discriminate) ltac:(discriminate)).
  rewrite <- Ei, <- Ep, <- Eg, <- Ed. clear.
  cbv beta iota delta [bind ret AccelsGet GyrosGet gets getC setC modify
    PIOS_DELAY_GetRaw AttitudeActualGet AlarmsClear AlarmsSet].
  pose proof (cf_status_update_kept w1) as K1.
  destruct (cf_status_update w1) as [? w2]. cbn [fst snd] in *.
  pose proof (accumulate_gyro_kept (uavo_Gyros (inp w2)) w2) as K2.
  destruct (accumulate_gyro (uavo_Gyros (inp w2)) w2) as [? w3]. cbn [fst snd] in *.
  cbv beta iota delta [bind ret AccelsGet GyrosGet gets getC setC modify
    PIOS_DELAY_GetRaw AttitudeActualGet AlarmsClear AlarmsSet].
  set (w4 := set_cf _ w3).
  assert (K3 : cf_kept w3 w4) by (unfold w4, cf_kept; repeat split).
  set (q := A4 _ _ _ _).
  pose proof (cf_accel_err_kept ext (uavo_Accels (inp w1)) q w4) as K4.
  destruct (cf_accel_err (uavo_Accels (inp w1)) q w4) as [err w5]. cbn [fst snd] in *.
  pose proof (cf_kept_trans (cf_kept_trans (cf_kept_trans K1 K2) K3) K4) as K.
  pose proof (cf_mag_err_effect ext q w5) as M.
  destruct (cf_mag_err q w5) as [? w6]. cbn [fst snd] in *.
  match goal with |- context [cf_integrate ?g ?e ?q ?d w6] =>
    pose proof (cf_integrate_mag_err ext g e q d w6) as N;
    destruct (cf_integrate g e q d w6) as [? w7] end.
  cbn [fst snd] in *. destruct N as (N & _).
  pose proof (cf_passthrough_mag_err ext w7) as P.
  destruct (cf_passthrough w7) as [? w8]. cbn [fst snd] in *.
  change (mag_err (glob (set_alarm SYSTEMALARMS_ALARM_OK w8))) with (mag_err (glob w8)).
  rewrite P, N, M.
  destruct K as (Kp & Ki & Kh & Km & Ka & _).
  unfold delivers. rewrite Kp, Ki, Kh, Km.
  assert (Eq : q = A4 (q1 (uavo_AttitudeActual (pub w1))) (q2 (uavo_AttitudeActual (pub w1)))
                      (q3 (uavo_AttitudeActual (pub w1))) (q4 (uavo_AttitudeActual (pub w1)))).
  { unfold q, w4.
    destruct K1 as (_ & _ & _ & _ & A1 & _), K2 as (_ & _ & _ & _ & A2 & _).
    change (uavo_AttitudeActual (pub (set_cf (set_timeval (delay_raw w3) (cf w3)) w3)))
      with (uavo_AttitudeActual (pub w3)).
    rewrite A2, A1. reflexivity. }
  rewrite Eq. reflexivity.
Qed.

(** The sample state, magnetometer north and home field east at level
    attitude: with a fresh magnetometer sample in the queue the error is
    zero; with none it is the cross product (0, 0, 1). *)
Lemma cf_mag_error_of_cycle_witness :
  (fst (wait_gyro_accel Sample.power_on) = false
   /\ delivers Sample.power_on magQueue = true
   /\ mag_err (glob (snd (updateAttitudeComplementary (ext := Sample.platform)
                            false Sample.power_on)))
      = A3 (Fin 0) (Fin 0) (Fin 0))
  /\ (fst (wait_gyro_accel (Sample.deliver_but magQueue Sample.power_on)) = false
      /\ delivers (Sample.deliver_but magQueue Sample.power_on) magQueue = false
      /\ feqv3
           (mag_err (glob (snd (updateAttitudeComplementary
                                  (ext := Sample.platform) false
                                  (Sample.deliver_but magQueue Sample.power_on)))))
           (A3 (Fin 0) (Fin 0) (Fin 1))).
Proof.
  split.
  - split; [reflexivity|]. split; [reflexivity|].
    rewrite (cf_mag_error_of_cycle Sample.platform Sample.power_on eq_refl).
    reflexivity.
  - split; [reflexivity|]. split; [reflexivity|].
    rewrite (cf_mag_error_of_cycle Sample.platform
               (Sample.deliver_but magQueue Sample.power_on) eq_refl).
    vm_compute. repeat split.
Defined.

(** C3: a cycle of the complementary filter in which the gyro queue times
    out while the published attitude is not read-only returns -1, sets the
    attitude alarm to warning, and leaves every published object, the
    attitude among them, and the log of writes as they were. *)
Theorem cf_gyro_timeout (ext : Externals) (first_run : bool) (w : World) :
  pending w gyroQueue = 0%nat -> readonly w = false ->
  let r := updateAttitudeComplementary first_run w in
  fst r = (-1)%Z
  /\ alarm (snd r) = SYSTEMALARMS_ALARM_WARNING
  /\ (severity SYSTEMALARMS_ALARM_WARNING <= severity (alarm (snd r)))%nat
  /\ pub (snd r) = pub w
  /\ log (snd r) = log w.
Proof.
  intros Hq Hro.
  pose proof (wait_gyro_accel_effect w) as E. cbn zeta in E.
  destruct E as (Ef & _ & Ep & _ & _ & _ & _ & El & _ & _ & _ & _ & Ea & _).
  unfold delivers in Ef. rewrite Hq, Hro in Ef.
  change (fst (wait_gyro_accel w) = true) in Ef. rewrite Ef in Ea.
  unfold updateAttitudeComplementary, bind.
  destruct (wait_gyro_accel w) as [ab w1]. cbn [fst snd] in *. subst ab.
  cbn [fst snd ret]. rewrite Ea. repeat split; auto.
Qed.

Lemma cf_gyro_timeout_witness :
  pending (Sample.silence Sample.power_on) gyroQueue = 0%nat
  /\ readonly (Sample.silence Sample.power_on) = false
  /\ fst (updateAttitudeComplementary (ext := Sample.platform) false
            (Sample.silence Sample.power_on)) = (-1)%Z
  /\ alarm (snd (updateAttitudeComplementary (ext := Sample.platform) false
                   (Sample.silence Sample.power_on)))
     = SYSTEMALARMS_ALARM_WARNING.
Proof.
  split; [reflexivity|]. split; [reflexivity|].
  destruct (cf_gyro_timeout Sample.platform false
              (Sample.silence Sample.power_on) eq_refl eq_refl)
    as (H1 & H2 & _).
  split; [exact H1 | exact H2].
Defined.

(** ** Gyro bias accumulator *)

(** With additions and a division that are exact, as those of the model
    are, the sum of [n] terms [t] divided by [n] is [t]: what separates the
    quotient the code computes from [t] is the rounding of its single
    precision operations. *)
Remark sum_of_exact (n : nat) (t : Q) :
  (0 < n)%nat -> (sum_of n (Fin 0) (Fin t) / of_int (Z.of_nat n)) =f= Fin t.
Proof.
  intros Hn.
  assert (H : forall k s, exists q,
             sum_of k (Fin s) (Fin t) = Fin q
             /\ (q == s + inject_Z (Z.of_nat k) * t)%Q).
  { induction k as [|k IH]; intros s.
    - exists s. split; [reflexivity|]. cbn. ring.
    - destruct (IH (s + t)%Q) as (q & E & Hq). exists q.
      split; [exact E|]. rewrite Hq, Nat2Z.inj_succ, <- Z.add_1_r, inject_Z_plus.
      change (inject_Z 1) with 1%Q. ring. }
  destruct (H n 0%Q) as (q & E & Hq). rewrite E. unfold of_int, fdiv.
  assert (Hz : ~ (inject_Z (Z.of_nat n) == 0)%Q).
  { unfold inject_Z, Qeq. cbn. lia. }
  destruct (Qeq_bool (inject_Z (Z.of_nat n)) 0) eqn:Eb.
  - apply Qeq_bool_iff in Eb. contradiction.
  - cbn. rewrite Hq. field. exact Hz.
Qed.

(** C10: while the accumulating flag is set, a call of [accumulate_gyro]
    adds to each sum the sample plus the gyro bias published at that
    moment, and nothing else changes but the count: the branch that would
    add the sample alone never runs.  So after [n] samples of the constant
    value g, taken while the published bias is b, an accumulator that
    started empty counts [n] samples and holds on each axis the sum of [n]
    terms g + b, the published bias being untouched; and when more than 100
    samples were taken, the mean [accumulate_gyro_compute] publishes is
    that sum of terms g + b divided by [n]. *)
Theorem accumulate_gyro_adds_published_bias (g : GyrosData) (n : nat)
    (w : World) :
  accumulating_gyro (estimation w) = true ->
  accumulated_gyro (estimation w) = A3 (Fin 0) (Fin 0) (Fin 0) ->
  accumulated_gyro_samples (estimation w) = 0%Z ->
  (Z.of_nat n < 2 ^ 32)%Z ->
  let b := uavo_GyrosBias (pub w) in
  let w1 := snd (repeat_m n (accumulate_gyro g) w) in
  let w2 := snd (accumulate_window n g w) in
  (forall u : World,
     accumulating_gyro (estimation u) = true ->
     let u' := snd (accumulate_gyro g u) in
     accumulated_gyro (estimation u')
     = A3 (a0 (accumulated_gyro (estimation u))
           + (x g + x (uavo_GyrosBias (pub u))))
          (a1 (accumulated_gyro (estimation u))
           + (y g + y (uavo_GyrosBias (pub u))))
          (a2 (accumulated_gyro (estimation u))
           + (z g + z (uavo_GyrosBias (pub u))))
     /\ accumulated_gyro_samples (estimation u')
        = wrap_u32 (accumulated_gyro_samples (estimation u) + 1)
     /\ pub u' = pub u /\ log u' = log u)
  /\ accumulated_gyro_samples (estimation w1) = Z.of_nat n
  /\ accumulated_gyro (estimation w1)
     = A3 (sum_of n (Fin 0) (x g + x b)) (sum_of n (Fin 0) (y g + y b))
          (sum_of n (Fin 0) (z g + z b))
  /\ uavo_GyrosBias (pub w1) = b
  /\ ((100 < n)%nat ->
      uavo_GyrosBias (pub w2)
      = mkXYZ (sum_of n (Fin 0) (x g + x b) / of_int (Z.of_nat n))
              (sum_of n (Fin 0) (y g + y b) / of_int (Z.of_nat n))
              (sum_of n (Fin 0) (z g + z b) / of_int (Z.of_nat n))).
Proof.
  intros Ha Hs Hk Hn b w1 w2.
  destruct (@repeat_accumulate g b n w 0%Z (A3 (Fin 0) (Fin 0) (Fin 0))
              eq_refl Ha Hk ltac:(lia) ltac:(lia) Hs)
    as (Ht & Hc & Hf & Hp & _).
  fold w1 in Ht, Hc, Hf, Hp. cbn [a0 a1 a2] in Ht.
  split; [|split; [rewrite Hc; lia|split; [exact Ht|split]]].
  - intros u Hu u'. subst u'. rewrite (accumulate_gyro_on g u Hu).
    unfold estimation. wsimpl. repeat split; reflexivity.
  - rewrite Hp. reflexivity.
  - intros Hlt.
    destruct (accumulate_gyro_compute_mean w1 Hf) as (Hm & _).
    { rewrite Hc. lia. }
    assert (Ew : w2 = snd (accumulate_gyro_compute w1)).
    { unfold w2, w1, accumulate_window, bind.
      destruct (repeat_m n (accumulate_gyro g) w). reflexivity. }
    rewrite <- Ew in Hm. rewrite Hm, Ht, Hc. reflexivity.
Qed.

(** 150 samples of 1 deg/s on each axis, taken while the published bias is
    (1, 2, 3) deg/s: the mean published is (2, 3, 4). *)
Lemma accumulate_gyro_adds_published_bias_witness :
  accumulating_gyro (estimation (Sample.accumulating (mkXYZ (Fin 1) (Fin 2) (Fin 3)))) = true
  /\ (Z.of_nat 150 < 2 ^ 32)%Z
  /\ x (uavo_GyrosBias
          (pub (snd (accumulate_window 150 (mkXYZ (Fin 1) (Fin 1) (Fin 1))
                       (Sample.accumulating (mkXYZ (Fin 1) (Fin 2) (Fin 3)))))))
     =f= Fin 2
  /\ z (uavo_GyrosBias
          (pub (snd (accumulate_window 150 (mkXYZ (Fin 1) (Fin 1) (Fin 1))
                       (Sample.accumulating (mkXYZ (Fin 1) (Fin 2) (Fin 3)))))))
     =f= Fin 4.
Proof.
  split; [reflexivity|]. split; [reflexivity|].
  destruct (@accumulate_gyro_adds_published_bias
              (mkXYZ (Fin 1) (Fin 1) (Fin 1)) 150
              (Sample.accumulating (mkXYZ (Fin 1) (Fin 2) (Fin 3)))
              eq_refl eq_refl eq_refl eq_refl)
    as (_ & _ & _ & _ & H).
  rewrite H by (repeat constructor).
  split; vm_compute; reflexivity.
Defined.

(** C4 (amended): [accumulate_gyro_compute] changes nothing, and so
    publishes nothing, while no more than 100 samples are accumulated; and
    when the accumulating flag is set and exactly 101 samples of the
    constant value v have been taken while the published bias was b, it
    publishes on each axis the sum of 101 terms v + b divided by 101, in
    one write of the gyro bias object, then leaves the count and the sums
    at zero and the accumulating flag cleared. *)
Theorem accumulate_gyro_compute_after_101 (v : GyrosData) (w : World) :
  accumulating_gyro (estimation w) = true ->
  accumulated_gyro (estimation w) = A3 (Fin 0) (Fin 0) (Fin 0) ->
  accumulated_gyro_samples (estimation w) = 0%Z ->
  let b := uavo_GyrosBias (pub w) in
  (forall u : World,
     (accumulated_gyro_samples (estimation u) <= 100)%Z ->
     accumulate_gyro_compute u = (tt, u))
  /\ (forall k : nat, (k <= 100)%nat ->
      let u := snd (repeat_m k (accumulate_gyro v) w) in
      snd (accumulate_window k v w) = u
      /\ uavo_GyrosBias (pub u) = uavo_GyrosBias (pub w) /\ log u = log w)
  /\ (let w' := snd (accumulate_window 101 v w) in
      uavo_GyrosBias (pub w')
      = mkXYZ (sum_of 101 (Fin 0) (x v + x b) / of_int 101)
              (sum_of 101 (Fin 0) (y v + y b) / of_int 101)
              (sum_of 101 (Fin 0) (z v + z b) / of_int 101)
      /\ log w' = GyrosBiasSet_ev (uavo_GyrosBias (pub w')) :: log w
      /\ estimation w'
         = mk_gyro_bias_estimation (A3 (Fin 0) (Fin 0) (Fin 0)) 0 false).
Proof.
  intros Ha Hs Hk b.
  split; [exact accumulate_gyro_compute_below|]. split.
  - intros k Hle u.
    destruct (@repeat_accumulate v b k w 0%Z (A3 (Fin 0) (Fin 0) (Fin 0))
                eq_refl Ha Hk ltac:(lia) ltac:(lia) Hs)
      as (_ & Hc & _ & Hp & Hl).
    fold u in Hc, Hp, Hl.
    split; [|split; [rewrite Hp; reflexivity | exact Hl]].
    unfold accumulate_window, bind.
    fold u. destruct (repeat_m k (accumulate_gyro v) w) as [? u'] eqn:E.
    cbn [snd] in u. subst u.
    rewrite accumulate_gyro_compute_below; [reflexivity|]. rewrite Hc. lia.
  - intros w'.
    destruct (@repeat_accumulate v b 101 w 0%Z (A3 (Fin 0) (Fin 0) (Fin 0))
                eq_refl Ha Hk ltac:(lia) ltac:(lia) Hs)
      as (Ht & Hc & Hf & Hp & Hl).
    assert (Ew : w' = snd (accumulate_gyro_compute
                             (snd (repeat_m 101 (accumulate_gyro v) w)))).
    { unfold w', accumulate_window, bind.
      destruct (repeat_m 101 (accumulate_gyro v) w). reflexivity. }
    set (w1 := snd (repeat_m 101 (accumulate_gyro v) w)) in *.
    destruct (accumulate_gyro_compute_mean w1 Hf) as (Hm & He & Hg).
    { rewrite Hc. lia. }
    rewrite <- Ew in Hm, He, Hg.
    split; [|split].
    + rewrite Hm, Ht, Hc. reflexivity.
    + rewrite Hg, Hl. reflexivity.
    + exact He.
Qed.

(** 101 samples of (5, 6, 7) deg/s with a zero published bias. *)
Lemma accumulate_gyro_compute_after_101_witness :
  accumulating_gyro (estimation (Sample.accumulating (mkXYZ (Fin 0) (Fin 0) (Fin 0)))) = true
  /\ x (uavo_GyrosBias
          (pub (snd (accumulate_window 101 (mkXYZ (Fin 5) (Fin 6) (Fin 7))
                       (Sample.accumulating (mkXYZ (Fin 0) (Fin 0) (Fin 0)))))))
     =f= Fin 5
  /\ estimation (snd (accumulate_window 101 (mkXYZ (Fin 5) (Fin 6) (Fin 7))
                        (Sample.accumulating (mkXYZ (Fin 0) (Fin 0) (Fin 0)))))
     = mk_gyro_bias_estimation (A3 (Fin 0) (Fin 0) (Fin 0)) 0 false.
Proof.
  split; [reflexivity|].
  destruct (@accumulate_gyro_compute_after_101 (mkXYZ (Fin 5) (Fin 6) (Fin 7))
              (Sample.accumulating (mkXYZ (Fin 0) (Fin 0) (Fin 0)))
              eq_refl eq_refl eq_refl)
    as (_ & _ & Hx & _ & He).
  split; [rewrite Hx; vm_compute; reflexivity | exact He].
Defined.

(** C4, counterexample to the statement of the specification: 101 samples of 1
    deg/s on each axis, taken while the published bias is 1 deg/s on each
    axis, publish a bias of 2 deg/s, not 1. Every value of this run is an
    integer below 2^24, so single precision computes it without rounding. *)
Lemma gyro_mean_is_not_the_sample_value :
  accumulated_gyro_samples
    (estimation
       (snd (repeat_m 101 (accumulate_gyro (mkXYZ (Fin 1) (Fin 1) (Fin 1)))
               (Sample.accumulating (mkXYZ (Fin 1) (Fin 1) (Fin 1))))))
  = 101%Z
  /\ x (uavo_GyrosBias
          (pub (snd (accumulate_window 101 (mkXYZ (Fin 1) (Fin 1) (Fin 1))
                       (Sample.accumulating (mkXYZ (Fin 1) (Fin 1) (Fin 1)))))))
     =f= Fin 2
  /\ ~ x (uavo_GyrosBias
            (pub (snd (accumulate_window 101 (mkXYZ (Fin 1) (Fin 1) (Fin 1))
                         (Sample.accumulating (mkXYZ (Fin 1) (Fin 1) (Fin 1)))))))
       =f= Fin 1.
Proof.
  split; [vm_compute; reflexivity|].
  split; [vm_compute; reflexivity|].
  vm_compute. discriminate.
Qed.

(** ** Local tangent plane *)

(** C8: once the settings callback has run for a home location whose
    altitude is a number and the cosine of whose latitude is a number,
    [getNED] scales the latitude difference by (home altitude + 6378137 m),
    the longitude difference by cos(home latitude) times the same radius,
    and gives as Down the negated sum of GPS altitude and geoid separation
    less the home altitude.  A fix equal to the home location, that is at
    its latitude and longitude and with altitude plus geoid separation
    equal to the home altitude, is converted to (0, 0, 0).  Of arithmetic
    the zeros need only that 0 * t = 0 and s - s = 0 on numbers, which
    holds of single precision as of the rationals. *)
Theorem getNED_at_home (ext : Externals) (w : World) (g : GPSPosition.Data)
    (alt c : Q) :
  let h := uavo_HomeLocation (inp w) in
  HomeLocation.Altitude h = Fin alt ->
  cosf (of_int (HomeLocation.Latitude h) / Fin 10.0e6 * DEG2RAD) = Fin c ->
  let NED := fst (getNED g (home_updated w)) in
  NED = A3 ((Fin alt + Fin 6.378137E6)
            * (of_int (wrap_i32 (GPSPosition.Latitude g - HomeLocation.Latitude h))
               / Fin 10.0e6 * DEG2RAD))
           (Fin c * (Fin alt + Fin 6.378137E6)
            * (of_int (wrap_i32 (GPSPosition.Longitude g - HomeLocation.Longitude h))
               / Fin 10.0e6 * DEG2RAD))
           (- Fin 1.0
            * (GPSPosition.Altitude g + GPSPosition.GeoidSeparation g - Fin alt))
  /\ (GPSPosition.Latitude g = HomeLocation.Latitude h -> a0 NED =f= Fin 0)
  /\ (GPSPosition.Longitude g = HomeLocation.Longitude h -> a1 NED =f= Fin 0)
  /\ ((GPSPosition.Altitude g + GPSPosition.GeoidSeparation g
       ==? HomeLocation.Altitude h) = true ->
      a2 NED =f= Fin 0).
Proof.
  intros h Halt Hcos NED.
  assert (E : NED = A3 ((Fin alt + Fin 6.378137E6)
            * (of_int (wrap_i32 (GPSPosition.Latitude g - HomeLocation.Latitude h)) / Fin 10.0e6 * DEG2RAD))
           (Fin c * (Fin alt + Fin 6.378137E6)
            * (of_int (wrap_i32 (GPSPosition.Longitude g - HomeLocation.Longitude h)) / Fin 10.0e6 * DEG2RAD))
           (- Fin 1.0 * (GPSPosition.Altitude g + GPSPosition.GeoidSeparation g - Fin alt))).
  { unfold NED, getNED, home_updated, settingsUpdatedCb. wsimpl.
    fold h. rewrite Hcos, Halt. reflexivity. }
  split; [exact E|]. rewrite E. wsimpl.
  destruct delta_zero as (d & Hd & Hd0).
  split; [|split].
  - intros ->. rewrite Z.sub_diag, Hd. cbn. rewrite Hd0. ring.
  - intros ->. rewrite Z.sub_diag, Hd. cbn. rewrite Hd0. ring.
  - rewrite Halt.
    destruct (GPSPosition.Altitude g) as [|ga]; [discriminate|].
    destruct (GPSPosition.GeoidSeparation g) as [|gs]; [discriminate|].
    cbn. intros Hs. apply Qeq_bool_iff in Hs. rewrite Hs. ring.
Qed.

(** A fix 40 m above the ellipsoid with a geoid separation of -40 m, at the
    sample home (sea level): all three components are zero. *)
Lemma getNED_at_home_witness :
  HomeLocation.Altitude (uavo_HomeLocation (inp Sample.power_on)) = Fin 0
  /\ cosf (Externals := Sample.platform)
       (of_int (HomeLocation.Latitude (uavo_HomeLocation (inp Sample.power_on)))
        / Fin 10.0e6 * DEG2RAD) = Fin 1
  /\ a0 (fst (getNED (GPSPosition.mk 0 0 (Fin 40) (Fin (-40)) 8 (Fin 1) (Fin 0) (Fin 0))
                (home_updated (ext := Sample.platform) Sample.power_on)))
     =f= Fin 0
  /\ a1 (fst (getNED (GPSPosition.mk 0 0 (Fin 40) (Fin (-40)) 8 (Fin 1) (Fin 0) (Fin 0))
                (home_updated (ext := Sample.platform) Sample.power_on)))
     =f= Fin 0
  /\ a2 (fst (getNED (GPSPosition.mk 0 0 (Fin 40) (Fin (-40)) 8 (Fin 1) (Fin 0) (Fin 0))
                (home_updated (ext := Sample.platform) Sample.power_on)))
     =f= Fin 0.
Proof.
  split; [reflexivity|]. split; [reflexivity|].
  destruct (@getNED_at_home Sample.platform Sample.power_on
              (GPSPosition.mk 0 0 (Fin 40) (Fin (-40)) 8 (Fin 1) (Fin 0) (Fin 0))
              0 1 eq_refl eq_refl)
    as (_ & HN & HE & HD).
  split; [apply HN; reflexivity|]. split; [apply HE; reflexivity|].
  apply HD. reflexivity.
Defined.

(** ** INS/GPS navigation filter *)

(** C5: in outdoor mode, whatever correction a cycle calls, the position
    it is given is gated by the minimum requirement.  When the mask of the
    correction has a bit of [POS_SENSORS], the position is the GPS position
    of this cycle in the local frame, its event was taken from the queue in
    this cycle, and the fix has at least 7 satellites, a PDOP of at most 4.0
    and the home location set; when it has none, the position is left at
    zero.  With fewer than 7 satellites no correction of the cycle uses the
    position and the position variance is not set, whether a GPS event
    waits in the queue or not.  The masks come from insgps.h: those of the
    other sensors are taken to share no bit with [POS_SENSORS]. *)
Theorem gps_position_needs_minimum_fix (ext : Externals) (first_run : bool)
    (w : World) (evs : list Event) :
  position_mask_apart ->
  added (updateAttitudeINSGPS first_run true) w evs ->
  let gps := uavo_GPSPosition (inp w) in
  Forall (position_gated w) evs
  /\ (uses_gps_position evs ->
      delivers w gpsQueue = true
      /\ (7 <= GPSPosition.Satellites gps)%Z
      /\ (GPSPosition.PDOP gps <=? Fin 4.0) = true
      /\ HomeLocation.Set_ (homeLocation (glob w)) = true)
  /\ ((GPSPosition.Satellites gps < 7)%Z ->
      Forall (fun e => corrects_with_position e = false
                       /\ is_position_variance e = false) evs).
Proof.
  intros Hm Ha gps.
  assert (G : Forall (position_gated w) evs).
  { destruct (ins_cycle_corrections Ha) as [F|(-> & HN & Hi & Hw)].
    - eapply Forall_impl; [|exact F].
      intros [[]| | | | |]; cbn; intros; try exact I; discriminate.
    - destruct (@ins_running_events ext true w evs HN Hi Hw Ha)
        as (dT & gyros & accels & att & e1 & e2 & e3 & E & _ & _
            & P1 & P2 & P3).
      assert (Hp : forall l, Forall plain l -> Forall (position_gated w) l).
      { intros l F. eapply Forall_impl; [|exact F].
        intros [[]| | | | |] (Hc & _); cbn in *; try exact I; discriminate. }
      rewrite E. repeat (apply Forall_app; split); auto.
      + repeat constructor.
      + destruct (cycle_sensors true w =? 0)%Z; repeat constructor.
        unfold position_gated, cycle_sensors, cycle_position.
        rewrite (sensors_of_position _ _ _ _ _ Hm). cbn [negb].
        rewrite orb_false_r. unfold position_of.
        destruct (gps_fresh true w) eqn:Eg; cbn [andb negb]; [|reflexivity].
        unfold gps_fresh in Eg. rewrite andb_true_r in Eg.
        apply andb_true_iff in Eg. destruct Eg as (Eq & Eu).
        repeat split; assumption. }
  assert (U : uses_gps_position evs ->
              delivers w gpsQueue = true
              /\ gps_usable gps (homeLocation (glob w)) = true).
  { intros (e & He & Hc). rewrite Forall_forall in G. specialize (G e He).
    destruct e as [[]| | | | |]; try discriminate.
    cbn in Hc, G. rewrite Hc in G. destruct G as (G1 & G2 & _). auto. }
  split; [exact G|]. split.
  - intros Hu. destruct (U Hu) as (U1 & U2).
    split; [exact U1|]. apply gps_usable_true. exact U2.
  - intros Hs.
    assert (Hg : gps_usable gps (homeLocation (glob w)) = false).
    { unfold gps_usable.
      replace (GPSPosition.Satellites gps >=? 7)%Z with false; [reflexivity|].
      symmetry. rewrite Z.geb_leb. apply Z.leb_gt. exact Hs. }
    pose proof (adds_added (ins_cycle_adds ext first_run true w) Ha) as F.
    apply Forall_forall. intros e He. split.
    + destruct (corrects_with_position e) eqn:Hc; [|reflexivity].
      destruct U as (_ & U); [exists e; auto|]. fold gps in Hg. congruence.
    + rewrite Forall_forall in F. destruct (F e He) as (Hv & _).
      destruct (is_position_variance e); [|reflexivity].
      destruct (Hv eq_refl) as [C|C]; [discriminate|].
      fold gps in C. congruence.
Qed.

Lemma sample_masks_apart : position_mask_apart (ext := Sample.platform).
Proof. unfold position_mask_apart. cbn. repeat split; reflexivity. Qed.

(** The running filter of the sample, outdoors with eight satellites: its
    correction uses the position. *)
Lemma gps_position_needs_minimum_fix_witness :
  position_mask_apart (ext := Sample.platform)
  /\ added (updateAttitudeINSGPS (ext := Sample.platform) false true)
       (Sample.running true)
       (Sample.events_of (updateAttitudeINSGPS (ext := Sample.platform) false true)
          (Sample.running true))
  /\ uses_gps_position (ext := Sample.platform)
       (Sample.events_of (updateAttitudeINSGPS (ext := Sample.platform) false true)
          (Sample.running true))
  /\ delivers (Sample.running true) gpsQueue = true
  /\ (7 <= GPSPosition.Satellites (uavo_GPSPosition (inp (Sample.running true))))%Z
  /\ HomeLocation.Set_ (homeLocation (glob (Sample.running true))) = true.
Proof.
  assert (Ha : added (updateAttitudeINSGPS (ext := Sample.platform) false true)
                 (Sample.running true)
                 (Sample.events_of
                    (updateAttitudeINSGPS (ext := Sample.platform) false true)
                    (Sample.running true))).
  { vm_compute. reflexivity. }
  assert (Hu : uses_gps_position (ext := Sample.platform)
                 (Sample.events_of
                    (updateAttitudeINSGPS (ext := Sample.platform) false true)
                    (Sample.running true))).
  { apply existsb_exists. vm_compute. reflexivity. }
  destruct (@gps_position_needs_minimum_fix Sample.platform false _ _
              sample_masks_apart Ha)
    as (_ & H & _).
  destruct (H Hu) as (H0 & H1 & _ & H3).
  split; [exact sample_masks_apart|].
  split; [exact Ha|]. split; [exact Hu|]. auto.
Defined.

(** The running sample outdoors with six satellites in view and a GPS
    event waiting: the cycle calls a correction, which does not use the
    position, and the position variance is not set. *)
Example six_satellites_are_ignored :
  delivers
    (Sample.with_inputs
       (Sample.sensors_with_gps
          (GPSPosition.mk 0 0 (Fin 0) (Fin 0) 6 (Fin 1) (Fin 0) (Fin 0)))
       (Sample.running true)) gpsQueue = true
  /\ existsb is_correction
       (Sample.events_of
          (updateAttitudeINSGPS (ext := Sample.platform) false true)
          (Sample.with_inputs
             (Sample.sensors_with_gps
                (GPSPosition.mk 0 0 (Fin 0) (Fin 0) 6 (Fin 1) (Fin 0) (Fin 0)))
             (Sample.running true))) = true
  /\ existsb (corrects_with_position (ext := Sample.platform))
       (Sample.events_of
          (updateAttitudeINSGPS (ext := Sample.platform) false true)
          (Sample.with_inputs
             (Sample.sensors_with_gps
                (GPSPosition.mk 0 0 (Fin 0) (Fin 0) 6 (Fin 1) (Fin 0) (Fin 0)))
             (Sample.running true))) = false
  /\ existsb is_position_variance
       (Sample.events_of
          (updateAttitudeINSGPS (ext := Sample.platform) false true)
          (Sample.with_inputs
             (Sample.sensors_with_gps
                (GPSPosition.mk 0 0 (Fin 0) (Fin 0) 6 (Fin 1) (Fin 0) (Fin 0)))
             (Sample.running true))) = false.
Proof. vm_compute. repeat split. Qed.

(** C6 (amended): from a reset filter (stage 0, not initialized, no
    barometer report on record), over any run of cycles during which the
    barometer queue never holds an event and the rest of the system leaves
    the statics of the filter alone, the next cycle again ends at stage 0
    and not initialized; and it sets the error alarm when it is not a first
    run and returns 0. *)
Theorem ins_stalls_without_barometer (ext : Externals) (outdoor : bool)
    (steps : list Step) (e : World -> World) (first_run : bool) (w0 : World) :
  inited (ins w0) = false -> init_stage (glob w0) = 0%Z ->
  baro_updated (ins w0) = false ->
  Forall (fun s => outside (fst s) /\ baro_silent (fst s)) steps ->
  outside e -> baro_silent e ->
  let r := updateAttitudeINSGPS first_run outdoor (e (ins_run outdoor steps w0)) in
  inited (ins (snd r)) = false /\ init_stage (glob (snd r)) = 0%Z
  /\ (first_run = false -> fst r = 0%Z ->
      alarm (snd r) = SYSTEMALARMS_ALARM_ERROR).
Proof.
  intros Hi Hs Hb HF Ho Hq.
  assert (S : stalled (ins_run outdoor steps w0))
    by (apply stalled_run; [unfold stalled; auto | exact HF]).
  assert (S' : stalled (e (ins_run outdoor steps w0))).
  { destruct S as (S1 & S2 & S3). destruct (Ho (ins_run outdoor steps w0)) as (E1 & E2).
    unfold stalled. rewrite E1, E2. auto. }
  destruct (stalled_cycle ext first_run outdoor S' (Hq _)) as ((R1 & R2 & _) & R3).
  cbn zeta. auto.
Qed.

(** The sample after a first run and three more cycles without barometer
    events: the fifth cycle leaves the filter at stage 0 with the error
    alarm set. *)
Lemma ins_stalls_without_barometer_witness :
  inited (ins Sample.power_on) = false
  /\ init_stage (glob Sample.power_on) = 0%Z
  /\ baro_updated (ins Sample.power_on) = false
  /\ init_stage
       (glob (snd (updateAttitudeINSGPS (ext := Sample.platform) false false
                     (Sample.deliver_but baroQueue
                        (ins_run (ext := Sample.platform) false
                           ((Sample.deliver_but baroQueue, true)
                            :: repeat (Sample.deliver_but baroQueue, false) 3)
                           Sample.power_on))))) = 0%Z
  /\ alarm
       (snd (updateAttitudeINSGPS (ext := Sample.platform) false false
               (Sample.deliver_but baroQueue
                  (ins_run (ext := Sample.platform) false
                     ((Sample.deliver_but baroQueue, true)
                      :: repeat (Sample.deliver_but baroQueue, false) 3)
                     Sample.power_on))))
     = SYSTEMALARMS_ALARM_ERROR.
Proof.
  split; [reflexivity|]. split; [reflexivity|]. split; [reflexivity|].
  destruct (@ins_stalls_without_barometer Sample.platform false
              ((Sample.deliver_but baroQueue, true)
               :: repeat (Sample.deliver_but baroQueue, false) 3)
              (Sample.deliver_but baroQueue) false Sample.power_on
              eq_refl eq_refl eq_refl)
    as (_ & H2 & H3).
  - repeat constructor; try apply deliver_but_outside;
      apply deliver_but_baro_silent.
  - apply deliver_but_outside.
  - apply deliver_but_baro_silent.
  - split; [exact H2|]. apply H3; [reflexivity | vm_compute; reflexivity].
Defined.

(** C6, counterexample to the statement of the specification: the first-run
    cycle of the sample, the barometer silent, returns 0 and leaves the alarm
    clear; and a cycle that finds no gyro event returns -1 with the alarm at
    warning. *)
Lemma ins_stalled_cycles_without_error_alarm :
  (pending (Sample.deliver_but baroQueue Sample.power_on) baroQueue = 0%nat
   /\ fst (updateAttitudeINSGPS (ext := Sample.platform) true false
             (Sample.deliver_but baroQueue Sample.power_on)) = 0%Z
   /\ init_stage
        (glob (snd (updateAttitudeINSGPS (ext := Sample.platform) true false
                      (Sample.deliver_but baroQueue Sample.power_on)))) = 0%Z
   /\ alarm (snd (updateAttitudeINSGPS (ext := Sample.platform) true false
                    (Sample.deliver_but baroQueue Sample.power_on)))
      = SYSTEMALARMS_ALARM_OK)
  /\ (pending (Sample.silence Sample.power_on) baroQueue = 0%nat
      /\ fst (updateAttitudeINSGPS (ext := Sample.platform) false false
                (Sample.silence Sample.power_on)) = (-1)%Z
      /\ alarm (snd (updateAttitudeINSGPS (ext := Sample.platform) false false
                       (Sample.silence Sample.power_on)))
         = SYSTEMALARMS_ALARM_WARNING).
Proof. vm_compute. repeat split. Qed.

(** C7 (amended): along any run from a reset filter the stage counter stays
    between 0 and 11 and the filter is marked initialized exactly when the
    counter is 11.  A cycle that advances the counter starts not
    initialized; it marks the filter initialized exactly when it runs
    stage 10, the eleventh stage counting stage 0; and at each of the
    stages 1 to 10 all it does is one state prediction and one write of the
    attitude.  No cycle of a filter that is not initialized calls the
    correction.  A cycle of the initialized filter that gets its gyro and
    accel events calls it exactly when the sensor mask the cycle assembles
    is not zero (line 981): indoors always, [POS_SENSORS] being a non-zero
    mask of 16 bits; outdoors not when neither a usable magnetometer
    sample, nor a barometer report, nor a usable GPS position, nor a GPS
    velocity has arrived in the cycle. *)
Theorem ins_initialized_after_eleven_stages (ext : Externals) (outdoor : bool)
    (steps : list Step) (e : World -> World) (first_run : bool) (w0 : World)
    (evs : list Event) :
  inited (ins w0) = false -> init_stage (glob w0) = 0%Z ->
  Forall (fun s => outside (fst s)) steps -> outside e ->
  let w := e (ins_run outdoor steps w0) in
  let r := updateAttitudeINSGPS first_run outdoor w in
  added (updateAttitudeINSGPS first_run outdoor) w evs ->
  (0 <= init_stage (glob w) <= 11)%Z
  /\ (inited (ins w) = true <-> init_stage (glob w) = 11%Z)
  /\ (init_stage (glob (snd r)) = (init_stage (glob w) + 1)%Z ->
      inited (ins w) = false
      /\ (inited (ins (snd r)) = true <-> init_stage (glob w) = 10%Z)
      /\ ((1 <= init_stage (glob w))%Z ->
          exists gyros accels dT att,
            evs = [Lib (INSStatePrediction gyros accels dT);
                   AttitudeActualSet_ev att]))
  /\ (inited (ins w) = false -> Forall (fun ev => is_correction ev = false) evs)
  /\ ((exists ev, In ev evs /\ is_correction ev = true) ->
      init_stage (glob w) = 11%Z)
  /\ (first_run = false -> Nav w <> None -> inited (ins w) = true ->
      delivers w gyroQueue && delivers w accelQueue || readonly w = true ->
      existsb is_correction evs = negb (cycle_sensors outdoor w =? 0)%Z
      /\ (outdoor = false -> (0 < POS_SENSORS < 2 ^ 16)%Z ->
          existsb is_correction evs = true)
      /\ (outdoor = true -> mag_fresh w = false ->
          delivers w baroQueue = false -> delivers w gpsQueue = false ->
          delivers w gpsVelQueue = false ->
          existsb is_correction evs = false)).
Proof.
  intros Hi Hs HF Ho w r Ha.
  assert (S0 : staged (ins_run outdoor steps w0)).
  { apply staged_run; [|exact HF]. left. rewrite Hi, Hs. split; [reflexivity|lia]. }
  assert (S : staged w).
  { subst w. destruct (Ho (ins_run outdoor steps w0)) as (E1 & E2).
    unfold staged. rewrite E1, E2. exact S0. }
  clearbody w. clear S0.
  pose proof (adds_added (ins_cycle_adds ext first_run outdoor w) Ha) as F.
  rewrite Forall_forall in F.
  assert (Hcorr : forall ev, In ev evs -> is_correction ev = true -> inited (ins w) = true).
  { intros ev Hin Hc. destruct (F ev Hin) as (_ & H & _). apply H. exact Hc. }
  split; [|split; [|split; [|split; [|split]]]].
  - destruct S as [(_ & S)|(_ & S)]; lia.
  - destruct S as [(S1 & S2)|(S1 & S2)]; split; intros H; try congruence; lia.
  - intros Hn.
    pose proof (ins_cycle_transition ext first_run outdoor w) as Tr. cbn zeta in Tr.
    fold r in Tr.
    destruct (cycle_kind first_run outdoor w) eqn:K.
    + destruct Tr as (_ & _ & T & _). rewrite T in Hn. lia.
    + destruct Tr as (_ & _ & T & _). rewrite T in Hn.
      destruct S as [(_ & S)|(_ & S)]; lia.
    + pose proof (cycle_kind_not_inited _ _ _ K) as Hf.
      destruct S as [(_ & S)|(S & _)]; [|congruence].
      destruct Tr as (_ & T2 & T3 & _ & T5).
      rewrite wrap_i32_small in T3 by lia.
      split; [exact Hf|]. split.
      * rewrite T3. split; intros H.
        -- rewrite Z.gtb_ltb in H. apply Z.ltb_lt in H. lia.
        -- rewrite Z.gtb_ltb. apply Z.ltb_lt. lia.
      * intros H1. destruct T5 as (gyros & dT & att & T5); [lia|].
        exists gyros, (A3 (x (uavo_Accels (inp w))) (y (uavo_Accels (inp w)))
                           (z (uavo_Accels (inp w)))), dT, att.
        apply (added_exact [AttitudeActualSet_ev att;
                            Lib (INSStatePrediction gyros _ dT)] Ha).
        exact T5.
    + destruct Tr as (_ & _ & T & _). rewrite T in Hn. lia.
    + destruct Tr as (_ & _ & T & _). rewrite T in Hn. lia.
  - intros Hf. apply Forall_forall. intros ev Hin.
    destruct (is_correction ev) eqn:Hc; [|reflexivity].
    rewrite (Hcorr ev Hin Hc) in Hf. discriminate.
  - intros (ev & Hin & Hc). pose proof (Hcorr ev Hin Hc) as Ht.
    destruct S as [(S1 & _)|(_ & S2)]; [congruence|exact S2].
  - intros Hfr HN Hin Hw. subst first_run.
    apply wait_gyro_accel_passes in Hw.
    pose proof (@ins_running_correction ext outdoor w evs HN Hin Hw Ha) as Hc.
    split; [exact Hc|]. split.
    + intros Hout Hp. subst outdoor. rewrite Hc. apply negb_true_iff.
      apply Z.eqb_neq. apply sensors_of_indoor. exact Hp.
    + intros Hout Hm Hb Hg Hv. subst outdoor. rewrite Hc.
      unfold cycle_sensors, gps_fresh, vel_fresh.
      rewrite Hm, Hb, Hg, Hv. reflexivity.
Qed.

(** The sample at stage 10, after a first run and ten stages: the cycle is
    one prediction and one attitude write, and it marks the filter
    initialized. *)
Lemma ins_initialized_after_eleven_stages_witness :
  inited (ins Sample.power_on) = false
  /\ init_stage (glob Sample.power_on) = 0%Z
  /\ init_stage
       (glob (Sample.deliver
                (ins_run (ext := Sample.platform) false (Sample.cycles 10)
                   Sample.power_on))) = 10%Z
  /\ inited
       (ins (snd (updateAttitudeINSGPS (ext := Sample.platform) false false
                    (Sample.deliver
                       (ins_run (ext := Sample.platform) false
                          (Sample.cycles 10) Sample.power_on))))) = true
  /\ exists gyros accels dT att,
       Sample.events_of (updateAttitudeINSGPS (ext := Sample.platform) false false)
         (Sample.deliver
            (ins_run (ext := Sample.platform) false (Sample.cycles 10)
               Sample.power_on))
       = [Lib (INSStatePrediction gyros accels dT); AttitudeActualSet_ev att].
Proof.
  split; [reflexivity|]. split; [reflexivity|].
  split; [vm_compute; reflexivity|].
  destruct (@ins_initialized_after_eleven_stages Sample.platform false
              (Sample.cycles 10) Sample.deliver false Sample.power_on
              (Sample.events_of
                 (updateAttitudeINSGPS (ext := Sample.platform) false false)
                 (Sample.deliver
                    (ins_run (ext := Sample.platform) false (Sample.cycles 10)
                       Sample.power_on)))
              eq_refl eq_refl)
    as (_ & _ & H3 & _).
  - repeat constructor; apply deliver_outside.
  - apply deliver_outside.
  - vm_compute. reflexivity.
  - destruct H3 as (_ & H4 & H5); [vm_compute; reflexivity|].
    split; [apply H4; vm_compute; reflexivity|].
    apply H5. vm_compute. discriminate.
Defined.

(** C7, counterexample to the statement of the specification: after the first
    run and ten stages (0 to 9) the sample stands at stage 10 and is not
    initialized; the cycle that follows calls no correction; the filter is
    initialized after that eleventh stage, and the twelfth cycle is the first
    to call the correction. *)
Lemma ins_not_initialized_after_ten_stages :
  init_stage
    (glob (ins_run (ext := Sample.platform) false (Sample.cycles 10)
             Sample.power_on)) = 10%Z
  /\ inited
       (ins (ins_run (ext := Sample.platform) false (Sample.cycles 10)
               Sample.power_on)) = false
  /\ existsb is_correction
       (Sample.events_of
          (updateAttitudeINSGPS (ext := Sample.platform) false false)
          (Sample.deliver
             (ins_run (ext := Sample.platform) false (Sample.cycles 10)
                Sample.power_on))) = false
  /\ inited
       (ins (ins_run (ext := Sample.platform) false (Sample.cycles 11)
               Sample.power_on)) = true
  /\ existsb is_correction
       (Sample.events_of
          (updateAttitudeINSGPS (ext := Sample.platform) false false)
          (Sample.running false)) = true.
Proof. vm_compute. repeat split. Qed.

(** Outdoors, the cycle that follows stage 10 of the sample finds a gyro
    and an accel event and nothing else: the filter is initialized, the
    cycle returns 0, and no correction is called. *)
Example ins_outdoor_cycle_without_correction :
  inited
    (ins (ins_run (ext := Sample.platform) true (Sample.cycles 11)
            Sample.power_on)) = true
  /\ init_stage
       (glob (ins_run (ext := Sample.platform) true (Sample.cycles 11)
                Sample.power_on)) = 11%Z
  /\ fst (updateAttitudeINSGPS (ext := Sample.platform) false true
            (Sample.inertial_only
               (ins_run (ext := Sample.platform) true (Sample.cycles 11)
                  Sample.power_on))) = 0%Z
  /\ existsb is_correction
       (Sample.events_of
          (updateAttitudeINSGPS (ext := Sample.platform) false true)
          (Sample.inertial_only
             (ins_run (ext := Sample.platform) true (Sample.cycles 11)
                Sample.power_on))) = false.
Proof. vm_compute. repeat split. Qed.

(** The cycle of the initialized filter that finds an override pending,
    no settings update arriving while it computes. *)
Lemma ins_bias_override_undisturbed (ext : Externals) (outdoor : bool) (w : World)
    (evs : list Event) :
  inited (ins w) = true ->
  gyroBiasSettingsUpdated (glob w) = true ->
  let r := updateAttitudeINSGPS false outdoor w in
  fst r = 0%Z ->
  added (updateAttitudeINSGPS false outdoor) w evs ->
  (exists rest,
     evs = Lib (INSSetGyroBias (deg2rad3 (uavo_GyrosBias (pub w)))) :: rest)
  /\ gyroBiasSettingsUpdated (glob (snd r)) = false
  /\ exists nav',
       Nav (snd r) = Some nav'
       /\ if BiasCorrectGyro (attitudeSettings (glob w))
          then uavo_GyrosBias (pub (snd r)) = rad2deg3 (gyro_bias nav')
               /\ exists front,
                    evs = front ++ [GyrosBiasSet_ev (rad2deg3 (gyro_bias nav'))]
          else uavo_GyrosBias (pub (snd r)) = uavo_GyrosBias (pub w)
               /\ Forall (fun ev => is_bias_publication ev = false) evs.
Proof.
  intros Hi Hu r Hr Ha.
  assert (HN : Nav w <> None).
  { intros HN. subst r. rewrite ins_cycle_none in Hr by exact HN. discriminate. }
  assert (Hw : fst (wait_gyro_accel w) = false).
  { destruct (fst (wait_gyro_accel w)) eqn:E; [|reflexivity].
    subst r. rewrite ins_cycle_abandoned in Hr by assumption. discriminate. }
  pose proof (wait_gyro_accel_effect w) as E. cbn zeta in E.
  destruct E as (_ & Ei & Ep & Eg & Ec & En & Ev & El & _).
  pose proof (ins_entry_effect ext outdoor (snd (wait_gyro_accel w))) as W.
  cbn zeta in W.
  unfold added in Ha. subst r. revert Ha.
  rewrite ins_cycle_running by assumption.
  set (W0 := snd (ins_entry outdoor (snd (wait_gyro_accel w)))) in *.
  destruct W as (Wi & Wp & Wg & Wc & Wn & Wl & _ & _ & Winit & _).
  rewrite ?En, ?Ei, ?Eg, ?Ep, ?El, ?Ev in *.
  rewrite Winit, Hi. cbn [negb andb].
  assert (NW : Nav W0 <> None) by (rewrite Wn; exact HN).
  pose proof (ins_predict_correct_effect outdoor (uavo_Gyros (inp w)) (uavo_Accels (inp w))
     (uavo_Magnetometer (inp w)) (uavo_BaroAltitude (inp w)) (uavo_GPSPosition (inp w))
     (uavo_GPSVelocity (inp w)) (uavo_GyrosBias (pub w)) W0 NW) as S.
  cbn zeta in S.
  set (R := ins_predict_correct _ _ _ _ _ _ _ _ W0) in *.
  destruct S as (_ & _ & S3 & _ & S5 & nav' & S6 & S7).
  rewrite Wg in S5, S7. rewrite Wl in S5. rewrite Wp in S7.
  destruct (S5 Hu) as (new & Hnew). intros Ha.
  assert (Hev : rev evs = new ++ [Lib (INSSetGyroBias (deg2rad3 (uavo_GyrosBias (pub w))))]).
  { rewrite Hnew in Ha.
    change (new ++ Lib (INSSetGyroBias (deg2rad3 (uavo_GyrosBias (pub w)))) :: log w)
      with (new ++ [Lib (INSSetGyroBias (deg2rad3 (uavo_GyrosBias (pub w))))] ++ log w) in Ha.
    rewrite app_assoc in Ha. apply app_inv_tail in Ha. symmetry. exact Ha. }
  split; [|split; [exact S3|]].
  - exists (rev new). apply (f_equal (@rev Event)) in Hev.
    rewrite rev_involutive, rev_app_distr in Hev. exact Hev.
  - exists nav'. split; [exact S6|].
    destruct (BiasCorrectGyro (attitudeSettings (glob w))).
    + destruct S7 as (S7 & tl & Htl). split; [exact S7|].
      destruct new as [|n0 new'].
      * rewrite Hnew in Htl. cbn in Htl. inversion Htl.
      * rewrite Hnew in Htl. cbn in Htl. inversion Htl; subst n0.
        exists (rev (new' ++ [Lib (INSSetGyroBias (deg2rad3 (uavo_GyrosBias (pub w))))])).
        apply (f_equal (@rev Event)) in Hev. rewrite rev_involutive in Hev.
        rewrite Hev. cbn [app rev]. reflexivity.
    + destruct S7 as (S7 & S8). split; [exact S7|].
      assert (S9 : adds (fun ev => is_bias_publication ev = false) w (snd R)).
      { destruct S8 as (x & Hx & Fx). exists x. split; [rewrite Hx, Wl; reflexivity|exact Fx]. }
      destruct S9 as (x & Hx & Fx). rewrite Hx in Ha. apply app_inv_tail in Ha. subst x.
      apply Forall_forall. intros ev Hin. rewrite Forall_forall in Fx.
      apply Fx. apply -> in_rev. exact Hin.
Qed.




(* ------------------------------------------------------------------------- *)
(** * Further properties of the module *)

(** ** INS/GPS navigation filter: the ways a cycle can go *)

(** X1: When the INS library returns no navigation solution the cycle returns
    -1 at once: no queue is read, no alarm is set, nothing changes. *)
Theorem ins_without_navigation_solution (ext : Externals)
    (first_run outdoor : bool) (w : World) :
  Nav w = None -> updateAttitudeINSGPS first_run outdoor w = ((-1)%Z, w).
Proof. apply ins_cycle_none. Qed.

Lemma ins_without_navigation_solution_witness :
  Nav Sample.no_library = None
  /\ updateAttitudeINSGPS (ext := Sample.platform) false true Sample.no_library
     = ((-1)%Z, Sample.no_library).
Proof.
  split; [vm_compute; reflexivity|].
  apply (ins_without_navigation_solution Sample.platform false true
           Sample.no_library).
  vm_compute. reflexivity.
Defined.

(** X2: A cycle of the navigation filter that finds the gyro queue or the
    accel queue empty, outside simulation, returns -1 with the warning alarm
    set; the statics of the filter, the stage counter, the published objects,
    the library state and the log are as before. *)
Theorem ins_sensor_timeout (ext : Externals) (first_run outdoor : bool)
    (w : World) :
  Nav w <> None -> readonly w = false ->
  pending w gyroQueue = 0%nat \/ pending w accelQueue = 0%nat ->
  let r := updateAttitudeINSGPS first_run outdoor w in
  fst r = (-1)%Z /\ alarm (snd r) = SYSTEMALARMS_ALARM_WARNING
  /\ ins (snd r) = ins w /\ glob (snd r) = glob w /\ pub (snd r) = pub w
  /\ Nav (snd r) = Nav w /\ log (snd r) = log w.
Proof.
  intros HN Hro Hq.
  pose proof (ins_cycle_transition ext first_run outdoor w) as Tr.
  cbn zeta in Tr. unfold cycle_kind in Tr.
  rewrite (empty_queue_fails w Hq), Hro in Tr. cbn [negb andb] in Tr.
  destruct (Nav w) eqn:E; [|congruence].
  destruct Tr as (T1 & T2 & T3 & T4 & T5 & T6 & T7 & _).
  cbn zeta. rewrite T1, T2, T3, T4, T5, T6, (T7 ltac:(discriminate)).
  repeat split; reflexivity.
Qed.

Lemma ins_sensor_timeout_witness :
  Nav (Sample.deliver_but accelQueue Sample.power_on) <> None
  /\ readonly (Sample.deliver_but accelQueue Sample.power_on) = false
  /\ pending (Sample.deliver_but accelQueue Sample.power_on) accelQueue = 0%nat
  /\ fst (updateAttitudeINSGPS (ext := Sample.platform) false false
            (Sample.deliver_but accelQueue Sample.power_on)) = (-1)%Z
  /\ alarm (snd (updateAttitudeINSGPS (ext := Sample.platform) false false
                   (Sample.deliver_but accelQueue Sample.power_on)))
     = SYSTEMALARMS_ALARM_WARNING.
Proof.
  split; [vm_compute; congruence|].
  split; [vm_compute; reflexivity|]. split; [vm_compute; reflexivity|].
  destruct (@ins_sensor_timeout Sample.platform false false
              (Sample.deliver_but accelQueue Sample.power_on))
    as (H1 & H2 & _);
    [vm_compute; congruence | vm_compute; reflexivity
    | right; vm_compute; reflexivity |].
  split; [exact H1 | exact H2].
Defined.

Lemma ins_first_run_resets_lemma (ext : Externals) (outdoor : bool)
    (w : World) :
  Nav w <> None ->
  delivers w gyroQueue && delivers w accelQueue || readonly w = true ->
  let r := updateAttitudeINSGPS true outdoor w in
  fst r = 0%Z
  /\ inited (ins (snd r)) = false /\ init_stage (glob (snd r)) = 0%Z
  /\ pub (snd r) = pub w /\ log (snd r) = log w.
Proof.
  intros HN Hw. apply wait_gyro_accel_passes in Hw.
  destruct (ins_cycle_first_run ext outdoor w HN Hw)
    as (H1 & H2 & H3 & _ & _ & _ & _ & _ & _ & H10 & H11 & _).
  cbn zeta. repeat split; assumption.
Qed.

(** X3: A first run of the navigation filter that gets its gyro and accel
    events returns 0 with the filter reset: not initialized, stage 0, no
    sensor on record, the time stamp taken. It publishes nothing, calls
    nothing in the library and leaves the alarm as it was. *)
Theorem ins_first_run_resets (ext : Externals) (outdoor : bool) (w : World) :
  Nav w <> None ->
  delivers w gyroQueue && delivers w accelQueue || readonly w = true ->
  let r := updateAttitudeINSGPS true outdoor w in
  fst r = 0%Z
  /\ inited (ins (snd r)) = false /\ init_stage (glob (snd r)) = 0%Z
  /\ mag_updated (ins (snd r)) = false /\ baro_updated (ins (snd r)) = false
  /\ gps_updated (ins (snd r)) = false /\ gps_vel_updated (ins (snd r)) = false
  /\ ins_last_time (ins (snd r)) = delay_raw w
  /\ alarm (snd r) = alarm w /\ pub (snd r) = pub w /\ log (snd r) = log w
  /\ Nav (snd r) = Nav w.
Proof.
  intros HN Hw. apply wait_gyro_accel_passes in Hw.
  destruct (ins_cycle_first_run ext outdoor w HN Hw)
    as (H1 & H2 & H3 & H4 & H5 & H6 & H7 & H8 & H9 & H10 & H11 & H12 & _).
  cbn zeta. repeat split; assumption.
Qed.

(** The running sample is sent back to stage 0. *)
Lemma ins_first_run_resets_witness :
  Nav (Sample.running true) <> None
  /\ delivers (Sample.running true) gyroQueue
     && delivers (Sample.running true) accelQueue
     || readonly (Sample.running true) = true
  /\ inited (ins (Sample.running true)) = true
  /\ inited
       (ins (snd (updateAttitudeINSGPS (ext := Sample.platform) true true
                    (Sample.running true)))) = false
  /\ init_stage
       (glob (snd (updateAttitudeINSGPS (ext := Sample.platform) true true
                     (Sample.running true)))) = 0%Z.
Proof.
  assert (HN : Nav (Sample.running true) <> None)
    by (vm_compute; congruence).
  assert (Hw : delivers (Sample.running true) gyroQueue
               && delivers (Sample.running true) accelQueue
               || readonly (Sample.running true) = true)
    by (vm_compute; reflexivity).
  destruct (@ins_first_run_resets Sample.platform true (Sample.running true)
              HN Hw) as (_ & H2 & H3 & _).
  split; [exact HN|]. split; [exact Hw|].
  split; [vm_compute; reflexivity|]. split; [exact H2 | exact H3].
Defined.

(** X4: A cycle of the initialized filter that passes the wait for gyro and
    accel returns 0 and leaves it initialized; the alarm it leaves is the
    error alarm if the filter runs outdoors with fewer than 7 satellites, and
    clear otherwise. *)
Theorem ins_running_alarm (ext : Externals) (outdoor : bool) (w : World) :
  Nav w <> None -> inited (ins w) = true ->
  delivers w gyroQueue && delivers w accelQueue || readonly w = true ->
  let r := updateAttitudeINSGPS false outdoor w in
  fst r = 0%Z /\ inited (ins (snd r)) = true
  /\ init_stage (glob (snd r)) = init_stage (glob w)
  /\ alarm (snd r)
     = if outdoor && (GPSPosition.Satellites (uavo_GPSPosition (inp w)) <? 7)%Z
       then SYSTEMALARMS_ALARM_ERROR else SYSTEMALARMS_ALARM_OK.
Proof.
  intros HN Hi Hw. apply wait_gyro_accel_passes in Hw.
  pose proof (ins_cycle_transition ext false outdoor w) as Tr.
  cbn zeta in Tr. unfold cycle_kind in Tr.
  destruct (wait_gyro_accel_effect w) as (E & _). cbn zeta in E.
  rewrite <- E, Hw, Hi in Tr.
  destruct (Nav w); [|congruence]. exact Tr.
Qed.

(** The running sample outdoors with six satellites in view. *)
Lemma ins_running_alarm_witness :
  Nav (Sample.with_inputs
         (Sample.sensors_with_gps
            (GPSPosition.mk 0 0 (Fin 0) (Fin 0) 6 (Fin 1) (Fin 0) (Fin 0)))
         (Sample.running true)) <> None
  /\ alarm (Sample.running true) = SYSTEMALARMS_ALARM_ERROR
  /\ alarm
       (snd (updateAttitudeINSGPS (ext := Sample.platform) false true
               (Sample.running true))) = SYSTEMALARMS_ALARM_OK
  /\ alarm
       (snd (updateAttitudeINSGPS (ext := Sample.platform) false true
               (Sample.with_inputs
                  (Sample.sensors_with_gps
                     (GPSPosition.mk 0 0 (Fin 0) (Fin 0) 6 (Fin 1) (Fin 0) (Fin 0)))
                  (Sample.running true))))
     = SYSTEMALARMS_ALARM_ERROR.
Proof.
  split; [vm_compute; congruence|]. split; [vm_compute; reflexivity|].
  split.
  - destruct (@ins_running_alarm Sample.platform true (Sample.running true))
      as (_ & _ & _ & H).
    1-3: (vm_compute; congruence).
    rewrite H. vm_compute. reflexivity.
  - destruct (@ins_running_alarm Sample.platform true
                (Sample.with_inputs
                   (Sample.sensors_with_gps
                      (GPSPosition.mk 0 0 (Fin 0) (Fin 0) 6 (Fin 1) (Fin 0) (Fin 0)))
                   (Sample.running true)))
      as (_ & _ & _ & H).
    1-3: (vm_compute; congruence).
    rewrite H. vm_compute. reflexivity.
Defined.

(** X5: A filter that is not initialized and lacks a sensor (a magnetometer
    sample without NaN together with a magnetic reference, a barometer report,
    outdoors a GPS fix that meets the minimum requirement) idles: the cycle
    returns 0 with the error alarm set, the stage counter is not advanced,
    nothing is published and the library is not called. *)
Theorem ins_waits_for_sensors (ext : Externals) (outdoor : bool) (w : World) :
  Nav w <> None -> inited (ins w) = false -> ins_ready outdoor w = false ->
  delivers w gyroQueue && delivers w accelQueue || readonly w = true ->
  let r := updateAttitudeINSGPS false outdoor w in
  fst r = 0%Z /\ inited (ins (snd r)) = false
  /\ init_stage (glob (snd r)) = init_stage (glob w)
  /\ alarm (snd r) = SYSTEMALARMS_ALARM_ERROR
  /\ pub (snd r) = pub w /\ log (snd r) = log w.
Proof.
  intros HN Hi Hr Hw. apply wait_gyro_accel_passes in Hw.
  pose proof (ins_cycle_transition ext false outdoor w) as Tr.
  cbn zeta in Tr. unfold cycle_kind in Tr.
  destruct (wait_gyro_accel_effect w) as (E & _). cbn zeta in E.
  rewrite <- E, Hw, Hi, Hr in Tr.
  destruct (Nav w); [|congruence].
  destruct Tr as (T1 & T2 & T3 & _ & T5 & T6 & T7).
  cbn zeta. repeat split; assumption.
Qed.

(** The sample with a NaN in the magnetometer sample. *)
Lemma ins_waits_for_sensors_witness :
  Nav (Sample.with_inputs
         (Sample.sensors_with_mag (mkXYZ (Fin 100) NaN (Fin 0)))
         Sample.power_on) <> None
  /\ ins_ready false
       (Sample.with_inputs
          (Sample.sensors_with_mag (mkXYZ (Fin 100) NaN (Fin 0)))
          Sample.power_on) = false
  /\ init_stage
       (glob (snd (updateAttitudeINSGPS (ext := Sample.platform) false false
                     (Sample.with_inputs
                        (Sample.sensors_with_mag (mkXYZ (Fin 100) NaN (Fin 0)))
                        Sample.power_on)))) = 0%Z
  /\ alarm
       (snd (updateAttitudeINSGPS (ext := Sample.platform) false false
               (Sample.with_inputs
                  (Sample.sensors_with_mag (mkXYZ (Fin 100) NaN (Fin 0)))
                  Sample.power_on)))
     = SYSTEMALARMS_ALARM_ERROR.
Proof.
  split; [vm_compute; congruence|]. split; [vm_compute; reflexivity|].
  destruct (@ins_waits_for_sensors Sample.platform false
              (Sample.with_inputs
                 (Sample.sensors_with_mag (mkXYZ (Fin 100) NaN (Fin 0)))
                 Sample.power_on))
    as (_ & _ & H3 & H4 & _).
  1-4: (vm_compute; congruence).
  split; [rewrite H3; vm_compute; reflexivity | exact H4].
Defined.

(** ** INS/GPS navigation filter: sensors on record and barometer offset *)

(** X6: The sensors a cycle of the initialized filter leaves on record are
    those of this cycle alone: a magnetometer event with a sample free of NaN
    and a magnetic reference, a barometer event, and outdoors a GPS position
    event with a fix that meets the minimum requirement and a GPS velocity
    event. What earlier cycles recorded is dropped. *)
Theorem ins_sensors_of_the_cycle (ext : Externals) (outdoor : bool)
    (w : World) :
  Nav w <> None -> inited (ins w) = true ->
  delivers w gyroQueue && delivers w accelQueue || readonly w = true ->
  let r := updateAttitudeINSGPS false outdoor w in
  mag_updated (ins (snd r))
  = delivers w magQueue && mag_valid (uavo_Magnetometer (inp w))
    && Be_configured (homeLocation (glob w))
  /\ baro_updated (ins (snd r)) = delivers w baroQueue
  /\ gps_updated (ins (snd r))
     = delivers w gpsQueue && outdoor
       && gps_usable (uavo_GPSPosition (inp w)) (homeLocation (glob w))
  /\ gps_vel_updated (ins (snd r)) = delivers w gpsVelQueue && outdoor.
Proof.
  intros HN Hi Hw. apply wait_gyro_accel_passes in Hw.
  destruct (ins_running_cycle ext outdoor w HN Hi Hw)
    as (W & E & NW & _ & _ & _ & _ & _ & Wm & Wb & Wg & Wv).
  cbn zeta. rewrite E.
  destruct (ins_predict_correct_effect outdoor (uavo_Gyros (inp w))
              (uavo_Accels (inp w)) (uavo_Magnetometer (inp w))
              (uavo_BaroAltitude (inp w)) (uavo_GPSPosition (inp w))
              (uavo_GPSVelocity (inp w)) (uavo_GyrosBias (pub w)) W NW)
    as (_ & S & _).
  destruct (steady_flags S) as (S1 & S2 & S3 & S4 & _).
  rewrite S1, S2, S3, S4. auto.
Qed.

(** The running sample outdoors, the barometer silent in this cycle. *)
Lemma ins_sensors_of_the_cycle_witness :
  Nav (Sample.deliver_but baroQueue (Sample.running true)) <> None
  /\ baro_updated (ins (Sample.deliver_but baroQueue (Sample.running true)))
     = true
  /\ baro_updated
       (ins (snd (updateAttitudeINSGPS (ext := Sample.platform) false true
                    (Sample.deliver_but baroQueue (Sample.running true)))))
     = false
  /\ gps_updated
       (ins (snd (updateAttitudeINSGPS (ext := Sample.platform) false true
                    (Sample.deliver_but baroQueue (Sample.running true)))))
     = true.
Proof.
  split; [vm_compute; congruence|]. split; [vm_compute; reflexivity|].
  destruct (@ins_sensors_of_the_cycle Sample.platform true
              (Sample.deliver_but baroQueue (Sample.running true)))
    as (_ & H2 & H3 & _).
  1-3: (vm_compute; congruence).
  split; [rewrite H2 | rewrite H3]; vm_compute; reflexivity.
Defined.

(** X7: The barometer offset after a cycle of the initialized filter: indoors
    it is zero; outdoors it is low-pass filtered, with weight 0.9997 on the
    old value, towards the difference between the GPS altitude above home and
    the barometer altitude when this cycle has a usable GPS position, and kept
    otherwise. *)
Theorem ins_baro_offset (ext : Externals) (outdoor : bool) (w : World) :
  Nav w <> None -> inited (ins w) = true ->
  delivers w gyroQueue && delivers w accelQueue || readonly w = true ->
  let r := updateAttitudeINSGPS false outdoor w in
  baroOffset (ins (snd r))
  = if negb outdoor then Fin 0
    else if delivers w gpsQueue
            && gps_usable (uavo_GPSPosition (inp w)) (homeLocation (glob w))
    then Fin 0.9997 * baroOffset (ins w)
         + (Fin 1.0 - Fin 0.9997)
           * (- a2 (fst (getNED (uavo_GPSPosition (inp w)) w))
              - BaroAltitude.Altitude (uavo_BaroAltitude (inp w)))
    else baroOffset (ins w).
Proof.
  intros HN Hi Hw. apply wait_gyro_accel_passes in Hw.
  destruct (ins_running_cycle ext outdoor w HN Hi Hw)
    as (W & E & NW & Wg & _ & _ & _ & Wb & _ & _ & Wgps & _).
  cbn zeta. rewrite E, ins_predict_correct_baro, Wgps, Wb.
  rewrite (getNED_depends_on_home ext (uavo_GPSPosition (inp w)) w W)
    by (rewrite Wg; reflexivity).
  destruct outdoor; cbn [negb];
    rewrite ?andb_true_r, ?andb_false_r; reflexivity.
Qed.

(** The running sample indoors starts with the offset -10 of stage 0. *)
Lemma ins_baro_offset_witness :
  Nav (Sample.running false) <> None
  /\ baroOffset (ins (Sample.running false)) = Fin (-10)
  /\ baroOffset
       (ins (snd (updateAttitudeINSGPS (ext := Sample.platform) false false
                    (Sample.running false)))) = Fin 0.
Proof.
  split; [vm_compute; congruence|]. split; [vm_compute; reflexivity|].
  rewrite (@ins_baro_offset Sample.platform false (Sample.running false)).
  2-4: (vm_compute; congruence).
  reflexivity.
Defined.

Lemma plain_no_prediction (l : list Event) :
  Forall plain l -> filter is_prediction l = [].
Proof.
  induction 1 as [|e l (_ & He) _ IH]; [reflexivity|].
  cbn [filter]. rewrite He. exact IH.
Qed.

(** X8: The two predictions of a cycle of the initialized filter, the state
    prediction of line 910 and the covariance prediction of line 923, are
    handed the same time step, which is not below 0.001 s and not above 0.01 s
    whatever the delay counter says; the cycle calls no other prediction. *)
Theorem ins_time_step_range (ext : Externals) (outdoor : bool) (w : World)
    (evs : list Event) :
  Nav w <> None -> inited (ins w) = true ->
  delivers w gyroQueue && delivers w accelQueue || readonly w = true ->
  added (updateAttitudeINSGPS false outdoor) w evs ->
  exists (dT : float) (gyros accels : arr3),
    filter is_prediction evs
    = [Lib (INSStatePrediction gyros accels dT);
       Lib (INSCovariancePrediction dT)]
    /\ (Fin 0.001 <=? dT) = true /\ (dT <=? Fin 0.01) = true.
Proof.
  intros HN Hi Hw Ha. apply wait_gyro_accel_passes in Hw.
  destruct (@ins_running_events ext outdoor w evs HN Hi Hw Ha)
    as (dT & gyros & accels & att & e1 & e2 & e3 & E & C1 & C2
        & P1 & P2 & P3).
  exists dT, gyros, accels. split; [|split; assumption].
  rewrite E, !filter_app.
  rewrite (plain_no_prediction P1), (plain_no_prediction P2),
    (plain_no_prediction P3).
  destruct (cycle_sensors outdoor w =? 0)%Z; reflexivity.
Qed.

(** The running sample indoors: the delay counter has not moved since the
    last cycle, and both predictions get 0.001 s. *)
Lemma ins_time_step_range_witness :
  Nav (Sample.running false) <> None
  /\ inited (ins (Sample.running false)) = true
  /\ exists (dT : float) (gyros accels : arr3),
       filter is_prediction
         (Sample.events_of
            (updateAttitudeINSGPS (ext := Sample.platform) false false)
            (Sample.running false))
       = [Lib (INSStatePrediction gyros accels dT);
          Lib (INSCovariancePrediction dT)]
       /\ (Fin 0.001 <=? dT) = true /\ (dT <=? Fin 0.01) = true.
Proof.
  split; [vm_compute; congruence|]. split; [vm_compute; reflexivity|].
  apply (@ins_time_step_range Sample.platform false (Sample.running false)).
  1-4: (vm_compute; congruence).
Defined.

Lemma plain_not_correction (l : list Event) :
  Forall plain l -> filter is_correction l = [].
Proof.
  induction 1 as [|e l (He & _) _ IH]; [reflexivity|].
  cbn [filter]. rewrite He. exact IH.
Qed.

(** X28: A cycle of the initialized filter calls the correction at most once,
    and when the mask of the cycle is not zero: with the magnetometer sample,
    the position and the velocity of the cycle (the GPS position in the local
    frame and the GPS velocity where this cycle has them outdoors, the
    barometer altitude under the origin and no velocity indoors), the
    barometer altitude corrected by the offset the cycle leaves, and that
    mask. *)
Theorem ins_correction_arguments (ext : Externals) (outdoor : bool)
    (w : World) (evs : list Event) :
  Nav w <> None -> inited (ins w) = true ->
  delivers w gyroQueue && delivers w accelQueue || readonly w = true ->
  added (updateAttitudeINSGPS false outdoor) w evs ->
  let r := updateAttitudeINSGPS false outdoor w in
  let mag := uavo_Magnetometer (inp w) in
  filter is_correction evs
  = if (cycle_sensors outdoor w =? 0)%Z then []
    else [Lib (INSCorrection (A3 (x mag) (y mag) (z mag))
                 (cycle_position outdoor w) (cycle_velocity outdoor w)
                 (BaroAltitude.Altitude (uavo_BaroAltitude (inp w))
                  + baroOffset (ins (snd r)))
                 (cycle_sensors outdoor w))].
Proof.
  intros HN Hi Hw Ha. apply wait_gyro_accel_passes in Hw.
  destruct (@ins_running_events ext outdoor w evs HN Hi Hw Ha)
    as (dT & gyros & accels & att & e1 & e2 & e3 & E & _ & _ & P1 & P2 & P3).
  cbn zeta. rewrite E at 1. rewrite !filter_app.
  rewrite (plain_not_correction P1), (plain_not_correction P2),
    (plain_not_correction P3).
  destruct (cycle_sensors outdoor w =? 0)%Z; reflexivity.
Qed.

(** The running sample indoors: the correction gets the position (0, 0,
    -10) under the origin and all of the indoor mask. *)
Lemma ins_correction_arguments_witness :
  Nav (Sample.running false) <> None
  /\ inited (ins (Sample.running false)) = true
  /\ cycle_sensors (ext := Sample.platform) false (Sample.running false)
     = 0x3FF%Z
  /\ exists mag vel baro,
       filter is_correction
         (Sample.events_of
            (updateAttitudeINSGPS (ext := Sample.platform) false false)
            (Sample.running false))
       = [Lib (INSCorrection mag
                 (A3 (Fin 0) (Fin 0) (- (Fin 10 + Fin 0))) vel baro 0x3FF%Z)].
Proof.
  split; [vm_compute; congruence|]. split; [vm_compute; reflexivity|].
  split; [vm_compute; reflexivity|].
  do 3 eexists.
  rewrite (@ins_correction_arguments Sample.platform false
             (Sample.running false)).
  2-5: (vm_compute; congruence).
  vm_compute. reflexivity.
Defined.

(** ** INS/GPS navigation filter: stage 0 *)

(** A cycle that runs an initialization stage, seen from the state it
    starts in. *)
Lemma ins_stage_cycle (ext : Externals) (outdoor : bool) (w : World) :
  Nav w <> None -> inited (ins w) = false -> ins_ready outdoor w = true ->
  fst (wait_gyro_accel w) = false ->
  exists W : World,
    updateAttitudeINSGPS false outdoor w
    = ins_init_stage outdoor (uavo_Gyros (inp w)) (uavo_Accels (inp w))
        (uavo_BaroAltitude (inp w)) (uavo_GyrosBias (pub w)) W
    /\ glob W = glob w /\ inp W = inp w /\ pub W = pub w /\ log W = log w
    /\ inited (ins W) = false.
Proof.
  intros HN Hi Hr Hw.
  pose proof (wait_gyro_accel_effect w) as E. cbn zeta in E.
  destruct E as (_ & Ei & Ep & Eg & Ec & En & Ev & El & _).
  pose proof (ins_entry_effect ext outdoor (snd (wait_gyro_accel w))) as W.
  cbn zeta in W.
  exists (snd (ins_entry outdoor (snd (wait_gyro_accel w)))).
  rewrite ins_cycle_running by assumption.
  set (W0 := snd (ins_entry outdoor (snd (wait_gyro_accel w)))) in *.
  destruct W as (Wi & Wp & Wg & Wc & Wn & Wl & _ & _ & Winit & _ & _ & Wmag
                 & Wbaro & Wgps & _).
  rewrite !delivers_after_wait in * by discriminate.
  rewrite ?En, ?Ei, ?Eg, ?Ep, ?El, ?Ev in *.
  rewrite Hi in *. rewrite Winit. cbn [negb andb].
  replace (mag_updated (ins W0) && baro_updated (ins W0)
           && (gps_updated (ins W0) || negb outdoor))
    with (ins_ready outdoor w)
    by (unfold ins_ready; rewrite Wmag, Wbaro, Wgps; reflexivity).
  rewrite Hr.
  repeat match goal with |- _ /\ _ => split end; try assumption; reflexivity.
Qed.

Lemma ins_init_stage0 (ext : Externals) (outdoor : bool) (g : GyrosData)
    (a : AccelsData) (baro : BaroAltitude.Data) (b : GyrosBiasData)
    (w : World) :
  init_stage (glob w) = 0%Z ->
  let r := ins_init_stage outdoor g a baro b w in
  let alt := BaroAltitude.Altitude baro in
  let att := initial_attitude a (uavo_Magnetometer (inp w)) in
  let s := insSettings (glob w) in
  let NED := fst (getNED (uavo_GPSPosition (inp w)) w) in
  log (snd r)
  = [Lib (INSResetP Pdiag);
     Lib (INSSetState
            (if outdoor then NED
             else A3 (Fin 0.0) (Fin 0.0) (- (alt + - alt)))
            zeros (A4 (q1 att) (q2 att) (q3 att) (q4 att)) zeros zeros);
     AttitudeActualSet_ev att;
     Lib (INSSetGyroBias (deg2rad3 b))]
    ++ (if outdoor
        then [Lib (INSSetMagNorth (HomeLocation.Be (homeLocation (glob w))))]
        else [])
    ++ [Lib (INSSetBaroVar (baro_var s)); Lib (INSSetGyroVar (gyro_var s));
        Lib (INSSetAccelVar (accel_var s)); Lib (INSSetMagVar (mag_var s));
        Lib INSGPSInit]
    ++ log w
  /\ baroOffset (ins (snd r)) = (if outdoor then - a2 NED - alt else - alt)
  /\ init_stage (glob (snd r)) = 1%Z
  /\ inited (ins (snd r)) = inited (ins w).
Proof.
  intros H0. wdestruct w. subst init_stage0.
  unfold ins_init_stage, ins_stage0_indoor, ins_stage0_outdoor, ins_reset,
    ins_seed, getNED.
  change (0 =? 0)%Z with true.
  destruct outdoor; wcbv; change (wrap_i32 (0 + 1)) with 1%Z;
    change (1 >? 10)%Z with false; wcbv; repeat split; reflexivity.
Qed.

(** X9: Stage 0, the first cycle in which every sensor the filter waits for
    has reported: the library is reset and given the variances of the
    settings, outdoors the magnetic reference, the published gyro bias in
    radians, the attitude worked out from the accelerometer and the
    magnetometer, which is published, and a position: outdoors the GPS fix in
    the local frame, indoors (0, 0, -(altitude - altitude)). The barometer
    offset is set so that the barometer altitude maps to that position, and
    the stage counter goes to 1. *)
Theorem ins_stage0_seeds_the_library (ext : Externals) (outdoor : bool)
    (w : World) :
  Nav w <> None -> inited (ins w) = false -> init_stage (glob w) = 0%Z ->
  ins_ready outdoor w = true ->
  delivers w gyroQueue && delivers w accelQueue || readonly w = true ->
  let r := updateAttitudeINSGPS false outdoor w in
  let alt := BaroAltitude.Altitude (uavo_BaroAltitude (inp w)) in
  let att := initial_attitude (uavo_Accels (inp w)) (uavo_Magnetometer (inp w)) in
  let s := insSettings (glob w) in
  let NED := fst (getNED (uavo_GPSPosition (inp w)) w) in
  added (updateAttitudeINSGPS false outdoor) w
    ([Lib INSGPSInit; Lib (INSSetMagVar (mag_var s));
      Lib (INSSetAccelVar (accel_var s)); Lib (INSSetGyroVar (gyro_var s));
      Lib (INSSetBaroVar (baro_var s))]
     ++ (if outdoor
         then [Lib (INSSetMagNorth (HomeLocation.Be (homeLocation (glob w))))]
         else [])
     ++ [Lib (INSSetGyroBias (deg2rad3 (uavo_GyrosBias (pub w))));
         AttitudeActualSet_ev att;
         Lib (INSSetState
                (if outdoor then NED
                 else A3 (Fin 0.0) (Fin 0.0) (- (alt + - alt)))
                zeros (A4 (q1 att) (q2 att) (q3 att) (q4 att)) zeros zeros);
         Lib (INSResetP Pdiag)])
  /\ baroOffset (ins (snd r)) = (if outdoor then - a2 NED - alt else - alt)
  /\ init_stage (glob (snd r)) = 1%Z
  /\ inited (ins (snd r)) = false
  /\ fst r = 0%Z.
Proof.
  intros HN Hi H0 Hr Hw. apply wait_gyro_accel_passes in Hw.
  destruct (ins_stage_cycle ext outdoor w HN Hi Hr Hw)
    as (W & E & Wg & Wi & Wp & Wl & Winit).
  assert (H0' : init_stage (glob W) = 0%Z) by (rewrite Wg; exact H0).
  pose proof (ins_init_stage0 ext outdoor (uavo_Gyros (inp w))
                (uavo_Accels (inp w)) (uavo_BaroAltitude (inp w))
                (uavo_GyrosBias (pub w)) W H0') as S.
  cbn zeta in S. destruct S as (S1 & S2 & S3 & S4).
  pose proof (ins_init_stage_effect ext outdoor (uavo_Gyros (inp w))
                (uavo_Accels (inp w)) (uavo_BaroAltitude (inp w))
                (uavo_GyrosBias (pub w)) W) as S'.
  cbn zeta in S'. destruct S' as (S0 & _).
  rewrite (getNED_depends_on_home ext (uavo_GPSPosition (inp W)) w W) in S1, S2
    by (rewrite Wg; reflexivity).
  rewrite Wg, Wi, Wl in S1. rewrite Wi in S2.
  cbn zeta. unfold added. rewrite E, S1, S2, S3, S4, Winit, S0.
  repeat split.
  destruct outdoor; reflexivity.
Qed.

(** The first stage of the sample, indoors. *)
Lemma ins_stage0_seeds_the_library_witness :
  Nav (Sample.deliver
         (ins_run (ext := Sample.platform) false (Sample.cycles 0)
            Sample.power_on)) <> None
  /\ ins_ready false
       (Sample.deliver
          (ins_run (ext := Sample.platform) false (Sample.cycles 0)
             Sample.power_on)) = true
  /\ baroOffset
       (ins (snd (updateAttitudeINSGPS (ext := Sample.platform) false false
                    (Sample.deliver
                       (ins_run (ext := Sample.platform) false
                          (Sample.cycles 0) Sample.power_on)))))
     = - Fin 10
  /\ init_stage
       (glob (snd (updateAttitudeINSGPS (ext := Sample.platform) false false
                     (Sample.deliver
                        (ins_run (ext := Sample.platform) false
                           (Sample.cycles 0) Sample.power_on))))) = 1%Z.
Proof.
  split; [vm_compute; congruence|]. split; [vm_compute; reflexivity|].
  destruct (@ins_stage0_seeds_the_library Sample.platform false
              (Sample.deliver
                 (ins_run (ext := Sample.platform) false (Sample.cycles 0)
                    Sample.power_on)))
    as (_ & H2 & H3 & _).
  1-5: (vm_compute; congruence).
  split; [rewrite H2; vm_compute; reflexivity | exact H3].
Defined.

(** ** Gyro bias accumulator: outside an accumulation window *)

Lemma repeat_accumulate_off (g : GyrosData) (n : nat) (w : World) :
  accumulating_gyro (estimation w) = false ->
  repeat_m n (accumulate_gyro g) w = (tt, w).
Proof.
  intros H. induction n as [|n IH]; [reflexivity|].
  cbn [repeat_m]. unfold bind. rewrite (accumulate_gyro_off g w H). exact IH.
Qed.

(** X10: While the accumulating flag is clear the accumulator ignores every
    sample and a compute request does nothing, however many samples were
    offered: no sample is counted and no bias is published. *)
Theorem accumulator_idle_outside_window (g : GyrosData) (n : nat)
    (w : World) :
  accumulating_gyro (estimation w) = false ->
  accumulate_window n g w = (tt, w).
Proof.
  intros H. unfold accumulate_window, bind.
  rewrite (repeat_accumulate_off g n w H).
  apply accumulate_gyro_compute_idle. exact H.
Qed.

Lemma accumulator_idle_outside_window_witness :
  accumulating_gyro (estimation Sample.power_on) = false
  /\ accumulate_window 500 (mkXYZ (Fin 1) (Fin 1) (Fin 1)) Sample.power_on
     = (tt, Sample.power_on).
Proof.
  split; [vm_compute; reflexivity|].
  apply accumulator_idle_outside_window. vm_compute. reflexivity.
Defined.

(** ** Settings callback *)

(** X11: An update of the inertial sensor settings, or the forced update at
    task start, replaces the published gyro bias by the configured initial
    bias and marks an override as pending; an update of any other object
    leaves both alone. *)
Theorem settings_push_gyro_bias (ext : Externals) (ev : option UAVObjHandle)
    (w : World) :
  let w' := snd (settingsUpdatedCb ev w) in
  let b := InitialGyroBias (uavo_InertialSensorSettings (inp w)) in
  if concerns ev InertialSensorSettingsHandle
  then uavo_GyrosBias (pub w') = mkXYZ (a0 b) (a1 b) (a2 b)
       /\ gyroBiasSettingsUpdated (glob w') = true
  else uavo_GyrosBias (pub w') = uavo_GyrosBias (pub w)
       /\ gyroBiasSettingsUpdated (glob w')
          = gyroBiasSettingsUpdated (glob w).
Proof.
  wdestruct w. unfold settingsUpdatedCb.
  destruct ev as [[]|]; wcbv; repeat (break_if; wcbv); split; reflexivity.
Qed.

(** X12: The forced update at task start does what the five single updates do
    one after the other. *)
Theorem settings_forced_update_is_all_five (ext : Externals) (w : World) :
  settingsUpdatedCb None w
  = (settingsUpdatedCb (Some InertialSensorSettingsHandle) ;;;
     settingsUpdatedCb (Some INSSettingsHandle) ;;;
     settingsUpdatedCb (Some HomeLocationHandle) ;;;
     settingsUpdatedCb (Some AttitudeSettingsHandle) ;;;
     settingsUpdatedCb (Some RevoSettingsHandle)) w.
Proof.
  wdestruct w. unfold settingsUpdatedCb. wcbv.
  repeat (break_if; wcbv); reflexivity.
Qed.

(** ** Accelerometer low pass filter *)

(** X13: With an accel time constant below 0.0001 in the settings, an update
    of the attitude settings switches the filter off with a zero coefficient,
    and a filter step then hands the raw values through; above, the filter is
    switched on with the coefficient exp(-0.0025 / tau). *)
Theorem settings_accel_filter (ext : Externals) (raw filtered : arr3)
    (w : World) :
  let tau := AccelTau (uavo_AttitudeSettings (inp w)) in
  let w' := snd (settingsUpdatedCb (Some AttitudeSettingsHandle) w) in
  attitudeSettings (glob w') = uavo_AttitudeSettings (inp w)
  /\ (if tau <? Fin 0.0001
      then accel_alpha (glob w') = Fin 0
           /\ accel_filter_enabled (glob w') = false
           /\ apply_accel_filter raw filtered w' = (raw, w')
      else accel_alpha (glob w') = expf (- Fin 0.0025 / tau)
           /\ accel_filter_enabled (glob w') = true).
Proof.
  wdestruct w. unfold settingsUpdatedCb, apply_accel_filter. wcbv.
  destruct uavo_AttitudeSettings0 as [kp ki yb mk tau z bc]. wcbv.
  destruct (tau <? Fin 0.0001); wcbv; repeat split.
  destruct raw; reflexivity.
Qed.

(** ** Complementary filter: first run *)

(** X15: A first run of the complementary filter on a board with a registered
    magnetometer returns -1 when no magnetometer event is waiting: the
    attitude is not seeded, the statics of the filter and the alarm are left
    alone, and the first run will be tried again. *)
Theorem cf_first_run_waits_for_magnetometer (ext : Externals) (w : World) :
  delivers w gyroQueue && delivers w accelQueue || readonly w = true ->
  mag_registered w = true -> pending w magQueue = 0%nat ->
  let r := updateAttitudeComplementary true w in
  fst r = (-1)%Z /\ pub (snd r) = pub w /\ cf (snd r) = cf w
  /\ glob (snd r) = glob w /\ log (snd r) = log w /\ alarm (snd r) = alarm w.
Proof.
  unfold delivers. intros Hw Hm Hq. wdestruct w. subst.
  unfold updateAttitudeComplementary, wait_gyro_accel, cf_first_run. wcbv.
  destruct (pend gyroQueue =? 0)%nat, (pend accelQueue =? 0)%nat, readonly0;
    try discriminate Hw; wcbv; rewrite Hq; change (0 =? 0)%nat with true;
    wcbv; repeat split; reflexivity.
Qed.

Lemma cf_first_run_waits_for_magnetometer_witness :
  mag_registered (Sample.deliver_but magQueue Sample.power_on) = true
  /\ pending (Sample.deliver_but magQueue Sample.power_on) magQueue = 0%nat
  /\ fst (updateAttitudeComplementary (ext := Sample.platform) true
            (Sample.deliver_but magQueue Sample.power_on)) = (-1)%Z.
Proof.
  split; [vm_compute; reflexivity|]. split; [vm_compute; reflexivity|].
  destruct (@cf_first_run_waits_for_magnetometer Sample.platform
              (Sample.deliver_but magQueue Sample.power_on)) as (H & _).
  1-3: (vm_compute; reflexivity).
  exact H.
Defined.

(** X16: A first run that gets its events returns 0 after publishing the
    attitude worked out from the accelerometer and, when a magnetometer is
    registered, its sample, otherwise the field (100, 0, 0); the filter status
    is back at power-on, the arming count at zero, the time stamp taken. The
    alarm is not cleared by a first run. *)
Theorem cf_first_run_seeds_attitude (ext : Externals) (w : World) :
  delivers w gyroQueue && delivers w accelQueue || readonly w = true ->
  mag_registered w = false \/ pending w magQueue <> 0%nat ->
  let r := updateAttitudeComplementary true w in
  let att :=
    initial_attitude (uavo_Accels (inp w))
      (if mag_registered w then uavo_Magnetometer (inp w)
       else mkXYZ (Fin 100) (Fin 0) (Fin 0)) in
  fst r = 0%Z
  /\ uavo_AttitudeActual (pub (snd r)) = att
  /\ log (snd r) = AttitudeActualSet_ev att :: log w
  /\ cf (snd r)
     = mkCFStatics (delay_raw w) (accels_filtered (cf w))
         (grot_filtered (cf w)) 0 CF_POWERON
  /\ glob (snd r) = glob w /\ alarm (snd r) = alarm w.
Proof.
  unfold delivers. intros Hw Hm. wdestruct w.
  unfold updateAttitudeComplementary, wait_gyro_accel, cf_first_run. wcbv.
  destruct (pend gyroQueue =? 0)%nat, (pend accelQueue =? 0)%nat, readonly0;
    try discriminate Hw; wcbv.
  all: destruct mag_registered0; wcbv;
    [destruct (pend magQueue =? 0)%nat eqn:E; wcbv;
     [apply Nat.eqb_eq in E; destruct Hm; congruence|] |];
    repeat split; reflexivity.
Qed.

Lemma cf_first_run_seeds_attitude_witness :
  mag_registered Sample.power_on = true
  /\ pending Sample.power_on magQueue <> 0%nat
  /\ fst (updateAttitudeComplementary (ext := Sample.platform) true
            Sample.power_on) = 0%Z
  /\ uavo_AttitudeActual
       (pub (snd (updateAttitudeComplementary (ext := Sample.platform) true
                    Sample.power_on)))
     = initial_attitude (ext := Sample.platform)
         (mkXYZ (Fin 0) (Fin 0) (Fin (-9.81))) (mkXYZ (Fin 100) (Fin 0) (Fin 0)).
Proof.
  split; [vm_compute; reflexivity|]. split; [vm_compute; congruence|].
  destruct (@cf_first_run_seeds_attitude Sample.platform Sample.power_on)
    as (H1 & H2 & _).
  - vm_compute. reflexivity.
  - right. vm_compute. congruence.
  - split; [exact H1|]. rewrite H2. vm_compute. reflexivity.
Defined.

(** ** Complementary filter: a cycle after the first run *)

(** The cycle ends with the integration step, the pass-through of GPS data
    and the clearing of the alarm. *)
Lemma cf_cycle_tail (ext : Externals) (w : World) :
  fst (wait_gyro_accel w) = false ->
  exists (g : GyrosData) (e : arr3) (q : arr4) (dT : float) (u : World),
    updateAttitudeComplementary false w
    = (0%Z,
       set_alarm SYSTEMALARMS_ALARM_OK
         (snd (cf_passthrough (snd (cf_integrate g e q dT u))))).
Proof.
  intros Hw. unfold updateAttitudeComplementary, bind at 1.
  destruct (wait_gyro_accel w) as [ab w1]. cbn [fst] in Hw. subst ab.
  cbv beta iota delta [bind ret AccelsGet GyrosGet gets getC setC modify
    PIOS_DELAY_GetRaw AttitudeActualGet AlarmsClear AlarmsSet].
  destruct (cf_status_update w1) as [? w2].
  destruct (accumulate_gyro (uavo_Gyros (inp w2)) w2) as [? w3].
  cbv beta iota delta [bind ret AccelsGet GyrosGet gets getC setC modify
    PIOS_DELAY_GetRaw AttitudeActualGet AlarmsClear AlarmsSet].
  match goal with |- context [cf_accel_err ?a ?q ?u] =>
    destruct (cf_accel_err a q u) as [err w5] end.
  match goal with |- context [cf_mag_err ?q ?u] =>
    destruct (cf_mag_err q u) as [? w6] end.
  match goal with |- context [cf_integrate ?g ?e ?q ?d w6] =>
    exists g, e, q, d, w6; destruct (cf_integrate g e q d w6) as [? w7] end.
  cbn [snd]. destruct (cf_passthrough w7) as [? w8]. reflexivity.
Qed.

(** X17: Once the wait for gyro and accel is passed, a cycle after the first
    run returns 0 and clears the alarm. In simulation, where the published
    attitude is read-only, this holds with empty sensor queues as well. *)
Theorem cf_cycle_clears_alarm (ext : Externals) (w : World) :
  delivers w gyroQueue && delivers w accelQueue || readonly w = true ->
  let r := updateAttitudeComplementary false w in
  fst r = 0%Z /\ alarm (snd r) = SYSTEMALARMS_ALARM_OK.
Proof.
  intros Hw. apply wait_gyro_accel_passes in Hw.
  destruct (cf_cycle_tail ext w Hw) as (g & e & q & dT & u & E).
  cbn zeta. rewrite E. split; reflexivity.
Qed.

(** The sample in simulation with every sensor queue empty. *)
Lemma cf_cycle_clears_alarm_witness :
  pending (Sample.simulated (Sample.silence Sample.power_on)) gyroQueue = 0%nat
  /\ readonly (Sample.simulated (Sample.silence Sample.power_on)) = true
  /\ fst (updateAttitudeComplementary (ext := Sample.platform) false
            (Sample.simulated (Sample.silence Sample.power_on))) = 0%Z
  /\ alarm (snd (updateAttitudeComplementary (ext := Sample.platform) false
                   (Sample.simulated (Sample.silence Sample.power_on))))
     = SYSTEMALARMS_ALARM_OK.
Proof.
  split; [vm_compute; reflexivity|]. split; [vm_compute; reflexivity|].
  apply (@cf_cycle_clears_alarm Sample.platform
           (Sample.simulated (Sample.silence Sample.power_on))).
  vm_compute. reflexivity.
Defined.

Lemma flt_neg_of_negative (a : float) :
  (a <? Fin 0) = true -> (- a <? Fin 0) = false.
Proof.
  destruct a as [|v]; [discriminate|]. unfold flt, fcmp, fneg.
  intros H. apply negb_true_iff in H. apply negb_false_iff.
  apply Qle_bool_iff.
  assert (Hn : ~ 0 <= v) by (intros C; apply Qle_bool_iff in C; congruence).
  apply Qnot_le_lt in Hn. lra.
Qed.

Lemma flt_div_not_negative (a s : float) :
  (a <? Fin 0) = false -> (s <? Fin 0) = false -> (a / s <? Fin 0) = false.
Proof.
  destruct a as [|v], s as [|d]; try reflexivity.
  unfold flt, fcmp, fdiv. intros Ha Hs.
  destruct (Qeq_bool d 0); [reflexivity|].
  apply negb_false_iff in Ha, Hs. apply negb_false_iff.
  apply Qle_bool_iff in Ha, Hs. apply Qle_bool_iff.
  unfold Qdiv. apply Qmult_le_0_compat; [exact Ha|].
  apply Qinv_le_0_compat. exact Hs.
Qed.

Lemma cf_passthrough_qmag (w : World) :
  qmag (glob (snd (cf_passthrough w))) = qmag (glob w).
Proof.
  wdestruct w. unfold cf_passthrough, getNED. wcbv.
  repeat (break_if; wcbv); reflexivity.
Qed.

Lemma cf_passthrough_attitude (w : World) :
  uavo_AttitudeActual (pub (snd (cf_passthrough w)))
  = uavo_AttitudeActual (pub w).
Proof.
  wdestruct w. unfold cf_passthrough, getNED. wcbv.
  repeat (break_if; wcbv); reflexivity.
Qed.

Section ScalarPart.

Context {ext : Externals}.

(** The square root of the platform returns no negative number. *)
Hypothesis sqrtf_not_negative : forall a, (sqrtf a <? Fin 0) = false.

(** Lines 526-547: the quaternion handed back and the norm left in the
    file-scope [qmag]. *)
Lemma cf_renormalize_result (q : arr4) (w : World) :
  let n := fst (cf_renormalize q w) in
  let m := qmag (glob (snd (cf_renormalize q w))) in
  (b0 n <? Fin 0) = false
  /\ if (fabs m <? Fin 1.0e-3) || (m !=? m)
     then n = A4 (Fin 1) (Fin 0) (Fin 0) (Fin 0)
     else exists p : arr4,
            (p = q \/ p = A4 (- b0 q) (- b1 q) (- b2 q) (- b3 q))
            /\ (b0 p <? Fin 0) = false
            /\ m = sqrtf (b0 p * b0 p + b1 p * b1 p + b2 p * b2 p
                          + b3 p * b3 p)
            /\ n = A4 (b0 p / m) (b1 p / m) (b2 p / m) (b3 p / m).
Proof.
  wdestruct w. destruct q as [x0 x1 x2 x3]. unfold cf_renormalize. wcbv.
  destruct (x0 <? Fin 0) eqn:E; wcbv.
  - set (M := sqrtf (- x0 * - x0 + - x1 * - x1 + - x2 * - x2 + - x3 * - x3)).
    destruct (fabs M <? Fin 1.0e-3) eqn:C1; wcbv; rewrite ?C1; wcbv;
      [split; reflexivity|].
    destruct (M !=? M) eqn:C2; wcbv; rewrite ?C1, ?C2; wcbv;
      [split; reflexivity|].
    split; [apply flt_div_not_negative;
            [auto using flt_neg_of_negative | apply sqrtf_not_negative]|].
    exists (A4 (- x0) (- x1) (- x2) (- x3)). wcbv.
    repeat split; auto using flt_neg_of_negative.
  - set (M := sqrtf (x0 * x0 + x1 * x1 + x2 * x2 + x3 * x3)).
    destruct (fabs M <? Fin 1.0e-3) eqn:C1; wcbv; rewrite ?C1; wcbv;
      [split; reflexivity|].
    destruct (M !=? M) eqn:C2; wcbv; rewrite ?C1, ?C2; wcbv;
      [split; reflexivity|].
    split; [apply flt_div_not_negative; [auto | apply sqrtf_not_negative]|].
    exists (A4 x0 x1 x2 x3). wcbv. repeat split; auto.
Qed.

Lemma cf_integrate_result (g : GyrosData) (e : arr3) (q : arr4) (dT : float)
    (w : World) :
  let w' := snd (cf_integrate g e q dT w) in
  let m := qmag (glob w') in
  exists n : arr4,
    uavo_AttitudeActual (pub w') = with_quaternion n
    /\ (b0 n <? Fin 0) = false
    /\ if (fabs m <? Fin 1.0e-3) || (m !=? m)
       then n = A4 (Fin 1) (Fin 0) (Fin 0) (Fin 0)
       else exists p : arr4,
              (b0 p <? Fin 0) = false
              /\ m = sqrtf (b0 p * b0 p + b1 p * b1 p + b2 p * b2 p
                            + b3 p * b3 p)
              /\ n = A4 (b0 p / m) (b1 p / m) (b2 p / m) (b3 p / m).
Proof.
  unfold cf_integrate.
  cbv beta iota zeta delta [bind getG gets GyrosBiasGet GyrosBiasSet modify
    emit ret AttitudeActualSet].
  match goal with |- context [cf_renormalize ?q' ?u] =>
    pose proof (cf_renormalize_result q' u) as H;
    destruct (cf_renormalize q' u) as [qn u'] end.
  cbn [fst snd] in *. destruct H as (H1 & H2).
  exists qn. destruct u'. cbn [pub glob set_pub set_log
    uavo_AttitudeActual set_uavo_AttitudeActual] in *.
  split; [reflexivity|]. split; [exact H1|].
  destruct (_ || _); [exact H2|].
  destruct H2 as (p & _ & Hp). exists p. exact Hp.
Qed.

End ScalarPart.


Lemma sqrt_q_not_negative (a : float) : (Sample.sqrt_q a <? Fin 0) = false.
Proof.
  destruct a as [|v]; [reflexivity|]. unfold Sample.sqrt_q.
  destruct (Qle_bool 0 v); [|reflexivity].
  unfold flt, fcmp. apply negb_false_iff. apply Qle_bool_iff.
  unfold Qle. cbn. pose proof (Z.sqrt_nonneg (Qnum v)). lia.
Qed.


(** ** Complementary filter: the initialization state *)

(** X19: In normal operation, outside arming (or with zeroing during arming
    switched off), the status update changes nothing: the gains of the
    settings stay as they are and the accumulator is not touched. *)
Theorem cf_status_normal_is_stable (w : World) :
  complimentary_filter_status (cf w) = CF_NORMAL ->
  ZeroDuringArming (attitudeSettings (glob w))
  && is_arming (uavo_FlightStatus (inp w)) = false ->
  cf_status_update w = (tt, w).
Proof.
  intros Hs Ha. wdestruct w. subst. unfold cf_status_update, is_arming in *.
  wcbv. wcbv_all. rewrite Ha. reflexivity.
Qed.

Lemma cf_status_normal_is_stable_witness :
  complimentary_filter_status
    (cf (Sample.with_status CF_NORMAL Sample.power_on)) = CF_NORMAL
  /\ cf_status_update (Sample.with_status CF_NORMAL Sample.power_on)
     = (tt, Sample.with_status CF_NORMAL Sample.power_on).
Proof.
  split; [vm_compute; reflexivity|].
  apply cf_status_normal_is_stable; vm_compute; reflexivity.
Defined.

(** X20: When arming begins in normal operation with zeroing during arming
    switched on, the status update opens an accumulation window: the
    accumulator is emptied and its flag set, the status becomes arming, the
    accel filter is switched off and the gains are raised (AccelKp to 1 for
    the first 20 cycles of arming). Nothing is published. *)
Theorem cf_arming_opens_window (w : World) :
  complimentary_filter_status (cf w) = CF_NORMAL ->
  ZeroDuringArming (attitudeSettings (glob w)) = true ->
  Armed (uavo_FlightStatus (inp w)) = FLIGHTSTATUS_ARMED_ARMING ->
  let w' := snd (cf_status_update w) in
  complimentary_filter_status (cf w') = CF_ARMING
  /\ estimation w' = mk_gyro_bias_estimation (A3 (Fin 0) (Fin 0) (Fin 0)) 0 true
  /\ accel_filter_enabled (glob w') = false
  /\ arming_count (cf w') = wrap_u32 (arming_count (cf w) + 1)
  /\ ((arming_count (cf w) <? 20)%Z = true ->
      AccelKp (attitudeSettings (glob w')) = Fin 1.0)
  /\ AccelKi (attitudeSettings (glob w')) = Fin 0.1
  /\ YawBiasRate (attitudeSettings (glob w')) = Fin 0.1
  /\ MagKp (attitudeSettings (glob w')) = Fin 0.1
  /\ pub w' = pub w /\ log w' = log w.
Proof.
  intros Hs Hz Ha. wdestruct w. subst.
  destruct attitudeSettings0 as [kp ki yb mk tau z bc].
  destruct uavo_FlightStatus0 as [armed].
  wcbv_all. cbn [Armed] in Ha. subst.
  unfold cf_status_update, accumulate_gyro_zero, is_arming, estimation. wcbv.
  cbn [Armed].
  repeat (break_if; wcbv); repeat split; try reflexivity;
    intros; discriminate.
Qed.

Lemma cf_arming_opens_window_witness :
  complimentary_filter_status (cf (Sample.arming Sample.power_on)) = CF_NORMAL
  /\ ZeroDuringArming (attitudeSettings (glob (Sample.arming Sample.power_on)))
     = true
  /\ Armed (uavo_FlightStatus (inp (Sample.arming Sample.power_on)))
     = FLIGHTSTATUS_ARMED_ARMING
  /\ complimentary_filter_status
       (cf (snd (cf_status_update (Sample.arming Sample.power_on))))
     = CF_ARMING
  /\ estimation (snd (cf_status_update (Sample.arming Sample.power_on)))
     = mk_gyro_bias_estimation (A3 (Fin 0) (Fin 0) (Fin 0)) 0 true.
Proof.
  split; [vm_compute; reflexivity|]. split; [vm_compute; reflexivity|].
  split; [vm_compute; reflexivity|].
  destruct (@cf_arming_opens_window (Sample.arming Sample.power_on))
    as (H1 & H2 & _).
  1-3: (vm_compute; reflexivity).
  split; [exact H1 | exact H2].
Defined.

(** X21: When arming is over, the status update closes the window: the mean of
    the accumulated samples is published as the gyro bias if more than 100
    were taken while the flag was set, and nothing is published otherwise;
    either way the flag is cleared, the arming count is back at zero, the
    settings are reloaded from the object and the status is normal. *)
Theorem cf_arming_closes_window (w : World) :
  complimentary_filter_status (cf w) = CF_ARMING ->
  ZeroDuringArming (attitudeSettings (glob w))
  && is_arming (uavo_FlightStatus (inp w)) = false ->
  let w' := snd (cf_status_update w) in
  let e := estimation w in
  let n := of_int (accumulated_gyro_samples e) in
  complimentary_filter_status (cf w') = CF_NORMAL
  /\ accumulating_gyro (estimation w') = false
  /\ arming_count (cf w') = 0%Z
  /\ attitudeSettings (glob w') = uavo_AttitudeSettings (inp w)
  /\ (if accumulating_gyro e && (accumulated_gyro_samples e >? 100)%Z
      then uavo_GyrosBias (pub w')
           = mkXYZ (a0 (accumulated_gyro e) / n)%F
               (a1 (accumulated_gyro e) / n)%F (a2 (accumulated_gyro e) / n)%F
           /\ log w' = GyrosBiasSet_ev (uavo_GyrosBias (pub w')) :: log w
      else pub w' = pub w /\ log w' = log w).
Proof.
  intros Hs Ha. wdestruct w. subst.
  destruct gyro_bias_estimation0 as [[s0 s1 s2] k f].
  unfold cf_status_update, accumulate_gyro_compute, accumulate_gyro_zero,
    is_arming, estimation in *.
  wcbv. wcbv_all. rewrite Ha. wcbv.
  destruct f; wcbv; repeat (break_if; wcbv);
    try congruence; repeat split; reflexivity.
Qed.

Lemma cf_arming_closes_window_witness :
  complimentary_filter_status
    (cf (Sample.with_status CF_ARMING Sample.power_on)) = CF_ARMING
  /\ complimentary_filter_status
       (cf (snd (cf_status_update
                   (Sample.with_status CF_ARMING Sample.power_on))))
     = CF_NORMAL
  /\ pub (snd (cf_status_update
                 (Sample.with_status CF_ARMING Sample.power_on)))
     = pub Sample.power_on.
Proof.
  split; [vm_compute; reflexivity|].
  destruct (@cf_arming_closes_window
              (Sample.with_status CF_ARMING Sample.power_on))
    as (H1 & _ & _ & _ & H5).
  1-2: (vm_compute; reflexivity).
  split; [exact H1|].
  change (accumulating_gyro
            (estimation (Sample.with_status CF_ARMING Sample.power_on))
          && (accumulated_gyro_samples
                (estimation (Sample.with_status CF_ARMING Sample.power_on))
              >? 100)%Z) with false in H5.
  destruct H5 as (H5 & _). rewrite H5. vm_compute. reflexivity.
Defined.

(** ** Module start and task *)

(** X22: [AttitudeStart] publishes the quaternion (1, 0, 0, 0), keeping the
    Euler angles, and a zero gyro bias, and returns 0. The head of
    [AttitudeTask], in whatever state [u] the task is started, clears the
    alarm and forces a settings update: the published gyro bias becomes the
    configured initial bias, so that the zero of the start function does not
    last, with an override pending; the four copies of the settings are
    loaded; the published attitude is left as it was. The task then sleeps 100
    ticks and enters its loop in the state the rest of the system has made of
    that one meanwhile, asking for a first run. *)
Theorem task_start_state (ext : Externals) (elapse : Z -> World -> World)
    (w u : World) :
  let s := AttitudeStart w in
  let a := uavo_AttitudeActual (pub (snd s)) in
  let r := AttitudeTask_start elapse u in
  let u1 := snd ((AlarmsClear ;;; settingsUpdatedCb None) u) in
  (fst s = 0%Z
   /\ a = mkAttitudeActual (Fin 1) (Fin 0) (Fin 0) (Fin 0)
           (Roll (uavo_AttitudeActual (pub w)))
           (Pitch (uavo_AttitudeActual (pub w)))
           (Yaw (uavo_AttitudeActual (pub w)))
   /\ uavo_GyrosBias (pub (snd s)) = mkXYZ (Fin 0) (Fin 0) (Fin 0))
  /\ fst r = mkTaskLocals true None
  /\ snd r = elapse 100%Z u1
  /\ uavo_GyrosBias (pub u1) = configured_bias (inp u)
  /\ gyroBiasSettingsUpdated (glob u1) = true
  /\ attitudeSettings (glob u1) = uavo_AttitudeSettings (inp u)
  /\ homeLocation (glob u1) = uavo_HomeLocation (inp u)
  /\ insSettings (glob u1) = uavo_INSSettings (inp u)
  /\ revoSettings (glob u1) = uavo_RevoSettings (inp u)
  /\ uavo_AttitudeActual (pub u1) = uavo_AttitudeActual (pub u)
  /\ alarm u1 = SYSTEMALARMS_ALARM_OK.
Proof.
  split.
  - wdestruct w. unfold AttitudeStart. wcbv. repeat split; reflexivity.
  - wdestruct u. unfold AttitudeTask_start, settingsUpdatedCb, configured_bias.
    wcbv. repeat (break_if; wcbv); repeat split; reflexivity.
Qed.

(** X23: With a fusion algorithm the task does not know, a pass of the loop
    sets the alarm to critical and does nothing else; the first-run request
    stays, or is raised if the setting has just changed. *)
Theorem task_unknown_algorithm (ext : Externals) (l : TaskLocals) (n : Z)
    (w : World) :
  FusionAlgorithm (revoSettings (glob w))
  = REVOSETTINGS_FUSIONALGORITHM_other n ->
  let r := AttitudeTask_loop l w in
  snd r = set_alarm SYSTEMALARMS_ALARM_CRITICAL w
  /\ last_algorithm (fst r)
     = (if algorithm_changed (last_algorithm l)
             (REVOSETTINGS_FUSIONALGORITHM_other n)
        then Some (REVOSETTINGS_FUSIONALGORITHM_other n)
        else last_algorithm l)
  /\ first_run (fst r)
     = (first_run l
        || algorithm_changed (last_algorithm l)
             (REVOSETTINGS_FUSIONALGORITHM_other n)).
Proof.
  intros H. unfold AttitudeTask_loop, bind, getG, gets, AlarmsSet, modify, ret.
  rewrite H. cbn [fst snd].
  destruct (algorithm_changed (last_algorithm l)
              (REVOSETTINGS_FUSIONALGORITHM_other n));
    cbn; rewrite ?orb_true_r, ?orb_false_r; repeat split; reflexivity.
Qed.

Lemma task_unknown_algorithm_witness :
  FusionAlgorithm (revoSettings (glob (Sample.with_algorithm
                                         (REVOSETTINGS_FUSIONALGORITHM_other 9)
                                         Sample.power_on)))
  = REVOSETTINGS_FUSIONALGORITHM_other 9
  /\ alarm (snd (AttitudeTask_loop (ext := Sample.platform)
                   (mkTaskLocals true None)
                   (Sample.with_algorithm
                      (REVOSETTINGS_FUSIONALGORITHM_other 9) Sample.power_on)))
     = SYSTEMALARMS_ALARM_CRITICAL
  /\ first_run (fst (AttitudeTask_loop (ext := Sample.platform)
                       (mkTaskLocals true None)
                       (Sample.with_algorithm
                          (REVOSETTINGS_FUSIONALGORITHM_other 9)
                          Sample.power_on)))
     = true.
Proof.
  split; [vm_compute; reflexivity|].
  destruct (@task_unknown_algorithm Sample.platform (mkTaskLocals true None) 9
              (Sample.with_algorithm (REVOSETTINGS_FUSIONALGORITHM_other 9)
                 Sample.power_on))
    as (H1 & _ & H3).
  - vm_compute. reflexivity.
  - split; [rewrite H1; reflexivity | rewrite H3; reflexivity].
Defined.

(** X24: A pass of the loop that finds the fusion algorithm changed to one of
    the two INS modes runs the navigation filter as a first run: when the
    library has a navigation solution and the gyro and accel events arrive,
    the filter is back at stage 0 and not initialized, whatever it was before,
    and the first-run request is served. *)
Theorem task_switch_to_ins_restarts (ext : Externals) (l : TaskLocals)
    (outdoor : bool) (w : World) :
  let a := if outdoor then REVOSETTINGS_FUSIONALGORITHM_INSOUTDOOR
           else REVOSETTINGS_FUSIONALGORITHM_INSINDOOR in
  FusionAlgorithm (revoSettings (glob w)) = a ->
  algorithm_changed (last_algorithm l) a = true ->
  Nav w <> None ->
  delivers w gyroQueue && delivers w accelQueue || readonly w = true ->
  let r := AttitudeTask_loop l w in
  fst r = mkTaskLocals false (Some a)
  /\ inited (ins (snd r)) = false /\ init_stage (glob (snd r)) = 0%Z
  /\ pub (snd r) = pub w /\ log (snd r) = log w.
Proof.
  intros a Ha Hc HN Hw.
  destruct (@ins_first_run_resets_lemma ext outdoor w HN Hw)
    as (H1 & H2 & H3 & H4 & H5).
  unfold AttitudeTask_loop, bind, getG, gets, ret.
  rewrite Ha, Hc. cbn [first_run last_algorithm fst snd].
  assert (E : (match a with
               | REVOSETTINGS_FUSIONALGORITHM_COMPLEMENTARY =>
                   updateAttitudeComplementary true
               | REVOSETTINGS_FUSIONALGORITHM_INSOUTDOOR =>
                   updateAttitudeINSGPS true true
               | REVOSETTINGS_FUSIONALGORITHM_INSINDOOR =>
                   updateAttitudeINSGPS true false
               | REVOSETTINGS_FUSIONALGORITHM_other _ =>
                   fun w0 : World =>
                   let (_, w') := AlarmsSet SYSTEMALARMS_ALARM_CRITICAL w0 in
                   ((-1)%Z, w')
               end) w = updateAttitudeINSGPS true outdoor w)
    by (subst a; destruct outdoor; reflexivity).
  rewrite E.
  destruct (updateAttitudeINSGPS true outdoor w) as [rv w'].
  cbn [fst snd] in *. subst rv. cbn. repeat split; assumption.
Qed.

(** The running sample, the setting switched from indoor to outdoor. *)
Lemma task_switch_to_ins_restarts_witness :
  inited (ins (Sample.with_algorithm REVOSETTINGS_FUSIONALGORITHM_INSOUTDOOR
                 (Sample.running false))) = true
  /\ inited
       (ins (snd (AttitudeTask_loop (ext := Sample.platform)
                    (mkTaskLocals false
                       (Some REVOSETTINGS_FUSIONALGORITHM_INSINDOOR))
                    (Sample.with_algorithm
                       REVOSETTINGS_FUSIONALGORITHM_INSOUTDOOR
                       (Sample.running false))))) = false
  /\ init_stage
       (glob (snd (AttitudeTask_loop (ext := Sample.platform)
                     (mkTaskLocals false
                        (Some REVOSETTINGS_FUSIONALGORITHM_INSINDOOR))
                     (Sample.with_algorithm
                        REVOSETTINGS_FUSIONALGORITHM_INSOUTDOOR
                        (Sample.running false))))) = 0%Z.
Proof.
  split; [vm_compute; reflexivity|].
  destruct (@task_switch_to_ins_restarts Sample.platform
              (mkTaskLocals false (Some REVOSETTINGS_FUSIONALGORITHM_INSINDOOR))
              true
              (Sample.with_algorithm REVOSETTINGS_FUSIONALGORITHM_INSOUTDOOR
                 (Sample.running false)))
    as (_ & H2 & H3 & _).
  1-4: (vm_compute; congruence).
  split; [exact H2 | exact H3].
Defined.

(** X25: A pass of the loop whose filter cycle fails for want of a gyro or
    accel event keeps a first-run request standing: the first run is tried
    again in the next pass. *)
Theorem task_retries_first_run (ext : Externals) (l : TaskLocals)
    (w : World) :
  first_run l = true ->
  readonly w = false ->
  pending w gyroQueue = 0%nat \/ pending w accelQueue = 0%nat ->
  (forall n, FusionAlgorithm (revoSettings (glob w))
             <> REVOSETTINGS_FUSIONALGORITHM_other n) ->
  (FusionAlgorithm (revoSettings (glob w))
   = REVOSETTINGS_FUSIONALGORITHM_COMPLEMENTARY \/ Nav w <> None) ->
  let r := AttitudeTask_loop l w in
  first_run (fst r) = true
  /\ alarm (snd r) = SYSTEMALARMS_ALARM_WARNING
  /\ pub (snd r) = pub w /\ log (snd r) = log w.
Proof.
  intros Hf Hro Hq Hk HN.
  assert (Hd : fst (wait_gyro_accel w) = true).
  { destruct (wait_gyro_accel_effect w) as (E & _). cbn zeta in E.
    rewrite E, (empty_queue_fails w Hq), Hro. reflexivity. }
  pose proof (wait_gyro_accel_effect w) as We. cbn zeta in We.
  destruct We as (_ & _ & Wp & _ & _ & _ & _ & Wl & _ & _ & _ & _ & Wa & _).
  rewrite Hd in Wa.
  assert (Hf' : forall a,
             first_run (if algorithm_changed (last_algorithm l) a
                        then mkTaskLocals true (Some a) else l) = true)
    by (intros a; destruct (algorithm_changed _ _); [reflexivity | exact Hf]).
  assert (E : exists l', AttitudeTask_loop l w = (l', snd (wait_gyro_accel w))
                         /\ first_run l' = true).
  { unfold AttitudeTask_loop, getG, gets. unfold bind at 1 2 3. cbv beta.
    destruct (FusionAlgorithm (revoSettings (glob w))) eqn:A;
      cbv beta iota; try rewrite Hf'.
    - unfold updateAttitudeComplementary, bind.
      destruct (wait_gyro_accel w) as [ab w1]. cbn [fst snd] in *. subst ab.
      cbn [fst snd ret Z.eqb]. eexists. split; [reflexivity | apply Hf'].
    - destruct HN as [HN|HN]; [discriminate|].
      rewrite (ins_cycle_abandoned ext true true w HN Hd).
      cbn [fst snd ret Z.eqb]. eexists. split; [reflexivity | apply Hf'].
    - destruct HN as [HN|HN]; [discriminate|].
      rewrite (ins_cycle_abandoned ext true false w HN Hd).
      cbn [fst snd ret Z.eqb]. eexists. split; [reflexivity | apply Hf'].
    - exfalso. apply (Hk n). reflexivity. }
  destruct E as (l' & E & El). cbn zeta. rewrite E. cbn [fst snd]. auto.
Qed.

Lemma task_retries_first_run_witness :
  readonly (Sample.silence Sample.power_on) = false
  /\ pending (Sample.silence Sample.power_on) gyroQueue = 0%nat
  /\ first_run
       (fst (AttitudeTask_loop (ext := Sample.platform)
               (mkTaskLocals true None) (Sample.silence Sample.power_on)))
     = true
  /\ alarm
       (snd (AttitudeTask_loop (ext := Sample.platform)
               (mkTaskLocals true None) (Sample.silence Sample.power_on)))
     = SYSTEMALARMS_ALARM_WARNING.
Proof.
  split; [vm_compute; reflexivity|]. split; [vm_compute; reflexivity|].
  destruct (@task_retries_first_run Sample.platform (mkTaskLocals true None)
              (Sample.silence Sample.power_on))
    as (H1 & H2 & _).
  - reflexivity.
  - vm_compute. reflexivity.
  - left. vm_compute. reflexivity.
  - intros n. vm_compute. congruence.
  - right. vm_compute. congruence.
  - split; [exact H1 | exact H2].
Defined.

(** ** Sensor queues *)

Lemma wait_gyro_accel_pending (w : World) (k : queue) :
  pending (snd (wait_gyro_accel w)) k
  = match k with
    | gyroQueue => Nat.pred (pending w k)
    | accelQueue =>
        if delivers w gyroQueue then Nat.pred (pending w k) else pending w k
    | _ => pending w k
    end.
Proof.
  wdestruct w. unfold wait_gyro_accel, delivers. wcbv.
  destruct (pend gyroQueue =? 0)%nat, (pend accelQueue =? 0)%nat, readonly0;
    wcbv; destruct k; reflexivity.
Qed.

Lemma ins_entry_pending (ext : Externals) (outdoor : bool) (w : World)
    (k : queue) :
  pending (snd (ins_entry outdoor w)) k
  = match k with
    | gyroQueue | accelQueue => pending w k
    | _ => Nat.pred (pending w k)
    end.
Proof.
  destruct k; wdestruct w;
    unfold ins_entry, clear_updated, ins_poll, ins_screen, ins_alarm; wcbv;
    destruct inited0; wcbv; repeat (break_if; wcbv); reflexivity.
Qed.

(** X26: A cycle of the initialized navigation filter that receives its gyro
    event takes one event, if there is one, from each of the six sensor
    queues, and no more. *)
Theorem ins_cycle_takes_one_event_per_queue (ext : Externals)
    (outdoor : bool) (w : World) :
  Nav w <> None -> inited (ins w) = true ->
  delivers w gyroQueue = true ->
  delivers w accelQueue = true \/ readonly w = true ->
  forall k : queue,
    pending (snd (updateAttitudeINSGPS false outdoor w)) k
    = Nat.pred (pending w k).
Proof.
  intros HN Hi Hg Ha k.
  assert (Hw : fst (wait_gyro_accel w) = false).
  { apply wait_gyro_accel_passes. rewrite Hg.
    destruct Ha as [Ha|Ha]; rewrite Ha; [reflexivity | apply orb_true_r]. }
  rewrite ins_cycle_running by assumption.
  pose proof (ins_entry_effect ext outdoor (snd (wait_gyro_accel w))) as W.
  cbn zeta in W.
  destruct W as (_ & _ & _ & _ & Wn & _ & _ & _ & Winit & _).
  pose proof (wait_gyro_accel_effect w) as E. cbn zeta in E.
  destruct E as (_ & _ & _ & _ & _ & En & Ev & _).
  rewrite En in Winit. rewrite Winit, Hi. cbn [negb andb].
  set (W0 := snd (ins_entry outdoor (snd (wait_gyro_accel w)))) in *.
  assert (NW : Nav W0 <> None) by (rewrite Wn, Ev; exact HN).
  destruct (ins_predict_correct_effect outdoor (uavo_Gyros (inp w))
              (uavo_Accels (inp w)) (uavo_Magnetometer (inp w))
              (uavo_BaroAltitude (inp w)) (uavo_GPSPosition (inp w))
              (uavo_GPSVelocity (inp w)) (uavo_GyrosBias (pub w)) W0 NW)
    as (_ & (Sp & _) & _).
  rewrite Sp. unfold W0.
  rewrite ins_entry_pending, !wait_gyro_accel_pending, Hg.
  destruct k; reflexivity.
Qed.

(** The running sample with two magnetometer events waiting. *)
Lemma ins_cycle_takes_one_event_per_queue_witness :
  pending (Sample.two_mag_events (Sample.running false)) magQueue = 2%nat
  /\ pending
       (snd (updateAttitudeINSGPS (ext := Sample.platform) false false
               (Sample.two_mag_events (Sample.running false)))) magQueue
     = 1%nat
  /\ pending
       (snd (updateAttitudeINSGPS (ext := Sample.platform) false false
               (Sample.two_mag_events (Sample.running false)))) gyroQueue
     = 0%nat.
Proof.
  split; [vm_compute; reflexivity|].
  assert (H := @ins_cycle_takes_one_event_per_queue Sample.platform false
                 (Sample.two_mag_events (Sample.running false))).
  split; rewrite H; try (vm_compute; congruence);
    left; vm_compute; reflexivity.
Defined.

(** ** Complementary filter: GPS data passed through *)

(** What the phases of a cycle before the pass-through leave alone. *)
Lemma cf_status_update_positions (w : World) :
  let w' := snd (cf_status_update w) in
  uavo_NEDPosition (pub w') = uavo_NEDPosition (pub w)
  /\ uavo_PositionActual (pub w') = uavo_PositionActual (pub w)
  /\ homeLocation (glob w') = homeLocation (glob w).
Proof.
  wdestruct w.
  unfold cf_status_update, accumulate_gyro_compute, accumulate_gyro_zero,
    is_arming.
  wcbv. repeat (break_if; wcbv); repeat split.
Qed.

Lemma accumulate_gyro_positions (g : GyrosData) (w : World) :
  let w' := snd (accumulate_gyro g w) in
  uavo_NEDPosition (pub w') = uavo_NEDPosition (pub w)
  /\ uavo_PositionActual (pub w') = uavo_PositionActual (pub w)
  /\ homeLocation (glob w') = homeLocation (glob w).
Proof.
  wdestruct w. unfold accumulate_gyro. wcbv.
  repeat (break_if; wcbv); repeat split.
Qed.

Lemma cf_accel_err_positions (ext : Externals) (a : AccelsData) (q : arr4)
    (w : World) :
  let w' := snd (cf_accel_err a q w) in
  uavo_NEDPosition (pub w') = uavo_NEDPosition (pub w)
  /\ uavo_PositionActual (pub w') = uavo_PositionActual (pub w)
  /\ homeLocation (glob w') = homeLocation (glob w).
Proof.
  wdestruct w. unfold cf_accel_err, apply_accel_filter. wcbv.
  repeat (break_if; wcbv); repeat split.
Qed.

Lemma cf_mag_err_positions (ext : Externals) (q : arr4) (w : World) :
  let w' := snd (cf_mag_err q w) in
  uavo_NEDPosition (pub w') = uavo_NEDPosition (pub w)
  /\ uavo_PositionActual (pub w') = uavo_PositionActual (pub w)
  /\ homeLocation (glob w') = homeLocation (glob w).
Proof.
  wdestruct w. unfold cf_mag_err. wcbv.
  repeat (break_if; wcbv); repeat split.
Qed.

Lemma cf_integrate_positions (ext : Externals) (g : GyrosData) (e : arr3)
    (q : arr4) (dT : float) (w : World) :
  let w' := snd (cf_integrate g e q dT w) in
  uavo_NEDPosition (pub w') = uavo_NEDPosition (pub w)
  /\ uavo_PositionActual (pub w') = uavo_PositionActual (pub w)
  /\ homeLocation (glob w') = homeLocation (glob w).
Proof.
  wdestruct w. unfold cf_integrate, cf_renormalize. wcbv.
  repeat (break_if; wcbv); repeat split.
Qed.

Lemma cf_passthrough_without_home (w : World) :
  HomeLocation.Set_ (homeLocation (glob w)) = false ->
  let w' := snd (cf_passthrough w) in
  uavo_NEDPosition (pub w') = uavo_NEDPosition (pub w)
  /\ uavo_PositionActual (pub w') = uavo_PositionActual (pub w).
Proof.
  intros H. wdestruct w. destruct homeLocation0 as [la lo al be st].
  wcbv_all. cbn [HomeLocation.Set_] in H. subst st.
  unfold cf_passthrough, getNED. wcbv. cbn [HomeLocation.Set_].
  repeat (break_if; wcbv); repeat split.
Qed.

(** X27: While no home location is set, a cycle of the complementary filter
    leaves the published position objects alone, GPS fix in the queue or not. *)
Theorem cf_no_position_without_home (ext : Externals) (first_run : bool)
    (w : World) :
  HomeLocation.Set_ (homeLocation (glob w)) = false ->
  let r := updateAttitudeComplementary first_run w in
  uavo_NEDPosition (pub (snd r)) = uavo_NEDPosition (pub w)
  /\ uavo_PositionActual (pub (snd r)) = uavo_PositionActual (pub w).
Proof.
  intros Hh r.
  pose proof (wait_gyro_accel_effect w) as E. cbn zeta in E.
  destruct E as (_ & _ & Ep & Eg & _).
  assert (Er : r = updateAttitudeComplementary first_run w) by reflexivity.
  clearbody r. revert Er.
  unfold updateAttitudeComplementary, bind at 1.
  destruct (wait_gyro_accel w) as [ab w1]. cbn [fst snd] in *.
  rewrite <- Ep. rewrite <- Eg in Hh. clear Ep Eg.
  destruct ab; [intros ->; split; reflexivity|].
  destruct first_run.
  - revert Hh. clear. intros _. wdestruct w1. unfold cf_first_run. wcbv.
    repeat (break_if; wcbv); intros ->; repeat split.
  - cbv beta iota delta [bind ret AccelsGet GyrosGet gets getC setC modify
      PIOS_DELAY_GetRaw AttitudeActualGet AlarmsClear AlarmsSet].
    pose proof (cf_status_update_positions w1) as K1.
    destruct (cf_status_update w1) as [? w2]. cbn [fst snd] in *.
    pose proof (accumulate_gyro_positions (uavo_Gyros (inp w2)) w2) as K2.
    destruct (accumulate_gyro (uavo_Gyros (inp w2)) w2) as [? w3].
    cbn [fst snd] in *.
    cbv beta iota delta [bind ret AccelsGet GyrosGet gets getC setC modify
      PIOS_DELAY_GetRaw AttitudeActualGet AlarmsClear AlarmsSet].
    set (w4 := set_cf _ w3).
    match goal with |- context [cf_accel_err ?a ?q w4] =>
      pose proof (cf_accel_err_positions ext a q w4) as K4;
      destruct (cf_accel_err a q w4) as [err w5] end.
    cbn [fst snd] in *.
    match goal with |- context [cf_mag_err ?q w5] =>
      pose proof (cf_mag_err_positions ext q w5) as K5;
      destruct (cf_mag_err q w5) as [? w6] end.
    cbn [fst snd] in *.
    match goal with |- context [cf_integrate ?g ?e ?q ?d w6] =>
      pose proof (cf_integrate_positions ext g e q d w6) as K6;
      destruct (cf_integrate g e q d w6) as [? w7] end.
    cbn [fst snd] in *.
    destruct K1 as (A1 & B1 & C1), K2 as (A2 & B2 & C2), K4 as (A4 & B4 & C4),
      K5 as (A5 & B5 & C5), K6 as (A6 & B6 & C6).
    assert (A3' : uavo_NEDPosition (pub w4) = uavo_NEDPosition (pub w3))
      by reflexivity.
    assert (B3' : uavo_PositionActual (pub w4) = uavo_PositionActual (pub w3))
      by reflexivity.
    assert (C3' : homeLocation (glob w4) = homeLocation (glob w3))
      by reflexivity.
    assert (Hh7 : HomeLocation.Set_ (homeLocation (glob w7)) = false)
      by (rewrite C6, C5, C4, C3', C2, C1; exact Hh).
    pose proof (cf_passthrough_without_home w7 Hh7) as K7. cbn zeta in K7.
    destruct (cf_passthrough w7) as [? w8]. cbn [fst snd] in *.
    destruct K7 as (A7 & B7).
    intros ->. unfold set_alarm. cbn [snd pub].
    split; congruence.
Qed.

(** The sample, home location not set, a GPS fix waiting. *)
Lemma cf_no_position_without_home_witness :
  HomeLocation.Set_ (homeLocation (glob (Sample.without_home Sample.power_on)))
  = false
  /\ pending (Sample.without_home Sample.power_on) gpsQueue = 1%nat
  /\ uavo_NEDPosition
       (pub (snd (updateAttitudeComplementary (ext := Sample.platform) false
                    (Sample.without_home Sample.power_on))))
     = uavo_NEDPosition (pub (Sample.without_home Sample.power_on)).
Proof.
  split; [vm_compute; reflexivity|]. split; [vm_compute; reflexivity|].
  destruct (@cf_no_position_without_home Sample.platform false
              (Sample.without_home Sample.power_on)) as (H & _).
  - vm_compute. reflexivity.
  - exact H.
Defined.
